(** * Todo application: query layer, validation and request handlers

    A shallow embedding of the relational core of the todo application
    ([src/lib/db/schema.ts], [src/lib/db/queries.ts], the zod schemas of
    [src/lib/validations/todo.ts], the response helpers and the
    [/api/todos] handlers), with the properties of its specification
    stated and proved over it.

    Modelling conventions.
    - A table is the list of its rows, in storage order.  A uuid and a
      text are strings, a timestamp is the number of milliseconds since
      the epoch (an integer).
    - [drizzle] calls are modelled by the SQL statement they denote,
      executed against the tables: a statement computes the tables it
      would leave and is refused, changing nothing, when they break a
      constraint declared in the schema (primary keys, unique columns,
      foreign keys, varchar lengths).  [onDelete: "cascade"] is part of
      the delete statement.  An update that sets no column and an insert
      of no row are taken as statements that write nothing.
    - An [async] function is a computation over the database that either
      returns or throws; what was written before a throw stays written
      (no function of the query layer opens a transaction).
    - The clock and the uuid generator are read from an environment
      given to each call.  The format checks of zod ([.datetime()],
      [.uuid()]) and the date parser of JavaScript are parameters of the
      schemas and handlers: the properties hold whatever they are. *)

From Stdlib Require Import String Ascii List ZArith Bool DecimalString.
From Stdlib Require Import Sorted Permutation Lia.
Import ListNotations.

Local Open Scope string_scope.
Local Open Scope list_scope.

(** ** Schema ([src/lib/db/schema.ts]) *)

Definition uuid := string.
Definition timestamp := Z.

Module User.
Record t := mk
  { id : uuid;
    email : string;
    name : option string;
    created_at : timestamp }.
End User.

Module Todo.
Record t := mk
  { id : uuid;
    user_id : uuid;
    title : string;
    description : option string;
    is_completed : bool;
    priority : Z;
    due_date : option timestamp;
    created_at : timestamp;
    updated_at : timestamp }.
End Todo.

Module Category.
Record t := mk
  { id : uuid;
    user_id : uuid;
    name : string;
    color : string;
    created_at : timestamp }.
End Category.

Module TodoCategory.
Record t := mk
  { todo_id : uuid;
    category_id : uuid;
    created_at : timestamp }.

(** The composite primary key [(todo_id, category_id)]. *)
Definition pk (r : t) : uuid * uuid := (todo_id r, category_id r).
End TodoCategory.

(** [TodoWithCategories = Todo & { categories: Category[] }]. *)
Record TodoWithCategories := mkTodoWithCategories
  { twc_todo : Todo.t;
    twc_categories : list Category.t }.

(** The database: the four tables of the schema. *)
Record Db := mkDb
  { users : list User.t;
    todos : list Todo.t;
    categories : list Category.t;
    todoCategories : list TodoCategory.t }.

(** ** Constraints declared by the schema *)

Definition mem (x : string) (l : list string) : bool :=
  existsb (String.eqb x) l.

Definition pk_eqb (a b : uuid * uuid) : bool :=
  (fst a =? fst b) && (snd a =? snd b).

Fixpoint uniqueb {A : Type} (eqb : A -> A -> bool) (l : list A) : bool :=
  match l with
  | [] => true
  | x :: r => negb (existsb (eqb x) r) && uniqueb eqb r
  end.

Definition todo_row_ok (db : Db) (t : Todo.t) : bool :=
  mem (Todo.user_id t) (map User.id (users db))
  && (String.length (Todo.title t) <=? 200)%nat.

Definition category_row_ok (db : Db) (c : Category.t) : bool :=
  mem (Category.user_id c) (map User.id (users db))
  && (String.length (Category.name c) <=? 50)%nat
  && (String.length (Category.color c) <=? 7)%nat.

Definition todo_category_row_ok (db : Db) (r : TodoCategory.t) : bool :=
  mem (TodoCategory.todo_id r) (map Todo.id (todos db))
  && mem (TodoCategory.category_id r) (map Category.id (categories db)).

(** Primary keys and [email] are unique, every foreign key has its
    parent row, every varchar fits its declared length. *)
Definition integrity (db : Db) : bool :=
  uniqueb String.eqb (map User.id (users db))
  && uniqueb String.eqb (map User.email (users db))
  && uniqueb String.eqb (map Todo.id (todos db))
  && forallb (todo_row_ok db) (todos db)
  && uniqueb String.eqb (map Category.id (categories db))
  && forallb (category_row_ok db) (categories db)
  && uniqueb pk_eqb (map TodoCategory.pk (todoCategories db))
  && forallb (todo_category_row_ok db) (todoCategories db).

(** ** Thrown values and asynchronous computations *)

(** One segment of the path of a zod issue: an object key or an array
    index. *)
Inductive PathSeg :=
| PKey (k : string)
| PIdx (i : nat).

(** The message of a zod issue: the text given in the schema, or one of
    the library's default texts, kept as a tag. *)
Inductive ZodMessage :=
| Custom (text : string)
| InvalidType
| InvalidEnumValue
| InvalidDatetime
| InvalidUuid.

Record ZodIssue := mkIssue
  { path : list PathSeg;
    message : ZodMessage }.

(** What a [throw] can carry: an [Error] with its message, a [ZodError]
    with its issues, or a value that is no [Error]. *)
Inductive exn :=
| JsError (msg : string)
| JsZodError (errors : list ZodIssue)
| JsOther.

Inductive result (A : Type) :=
| Ok (a : A)
| Throw (e : exn).
Arguments Ok {A} a.
Arguments Throw {A} e.

Definition M (A : Type) : Type := Db -> result A * Db.

Definition ret {A} (a : A) : M A := fun db => (Ok a, db).

Definition throw {A} (e : exn) : M A := fun db => (Throw e, db).

Definition bind {A B} (m : M A) (k : A -> M B) : M B :=
  fun db =>
    match m db with
    | (Ok a, db') => k a db'
    | (Throw e, db') => (Throw e, db')
    end.

(** [try { m } catch (error) { h error }]. *)
Definition try_catch {A} (m : M A) (h : exn -> M A) : M A :=
  fun db =>
    match m db with
    | (Ok a, db') => (Ok a, db')
    | (Throw e, db') => h e db'
    end.

Declare Scope async_scope.
Delimit Scope async_scope with async.
Notation "x <- m ;; k" := (bind m (fun x => k))
  (at level 61, m at next level, right associativity) : async_scope.
Notation "m ;; k" := (bind m (fun _ => k))
  (at level 61, right associativity) : async_scope.
Local Open Scope async_scope.

(** The pattern every function of the query layer is wrapped in:
    [try { ... } catch (error) { console.error(...); throw new Error(msg) }]. *)
Definition rethrow_as {A} (msg : string) (m : M A) : M A :=
  try_catch m (fun _ => throw (JsError msg)).

(** A read: it evaluates a query on the tables. *)
Definition query {A} (q : Db -> A) : M A := fun db => (Ok (q db), db).

(** The error the driver raises when a statement breaks a constraint.
    Its text never leaves the query layer. *)
Definition constraint_violation : exn :=
  JsError "statement violates a constraint of the schema".

(** A write: [f] gives the tables the statement would leave and its
    [returning()] rows, or nothing when a value it carries cannot be
    stored in its column; the statement is refused in that case, and
    when the tables it would leave break a constraint. *)
Definition statement {A} (f : Db -> option (Db * A)) : M A :=
  fun db =>
    match f db with
    | Some (db', r) =>
        if integrity db' then (Ok r, db') else (Throw constraint_violation, db)
    | None => (Throw constraint_violation, db)
    end.

(** ** Query layer ([src/lib/db/queries.ts]) *)

(** A JavaScript string is truthy when it is not empty. *)
Definition truthy (s : string) : bool := negb (s =? "").

(** SQL [LIKE]: [%] matches any run of characters, [_] any single one,
    a backslash takes the next character literally.  (The patterns built
    below end with [%]: none ends with a lone backslash.) *)
Fixpoint like (p : string) : string -> bool :=
  match p with
  | EmptyString =>
      fun s => match s with EmptyString => true | _ => false end
  | String "%" p' =>
      fix star (s : string) : bool :=
        like p' s
        || match s with EmptyString => false | String _ s' => star s' end
  | String "_" p' =>
      fun s => match s with String _ s' => like p' s' | _ => false end
  | String "\" (String c p') =>
      fun s =>
        match s with
        | String d s' => Ascii.eqb c d && like p' s'
        | _ => false
        end
  | String c p' =>
      fun s =>
        match s with
        | String d s' => Ascii.eqb c d && like p' s'
        | _ => false
        end
  end.

Module SortField.
Inductive t := due_date | priority | created_at | title.
End SortField.

Module SortDirection.
Inductive t := asc | desc.
End SortDirection.

Module TodoSort.
Record t := mk
  { field : SortField.t;
    direction : SortDirection.t }.
End TodoSort.

Module TodoFilters.
Record t := mk
  { isCompleted : option bool;
    priority : option Z;
    categoryId : option string;
    search : option string }.
End TodoFilters.

(** [ORDER BY column ASC]: ascending on the column, [NULL] last. *)
Definition le_nulls_last (a b : option timestamp) : bool :=
  match a, b with
  | Some x, Some y => (x <=? y)%Z
  | Some _, None => true
  | None, Some _ => false
  | None, None => true
  end.

Definition le_asc (f : SortField.t) (a b : Todo.t) : bool :=
  match f with
  | SortField.due_date => le_nulls_last (Todo.due_date a) (Todo.due_date b)
  | SortField.priority => (Todo.priority a <=? Todo.priority b)%Z
  | SortField.created_at => (Todo.created_at a <=? Todo.created_at b)%Z
  | SortField.title => String.leb (Todo.title a) (Todo.title b)
  end.
(* Texts are compared character by character, as under the "C" collation. *)

Fixpoint insert_by {A} (le : A -> A -> bool) (x : A) (l : list A) : list A :=
  match l with
  | [] => [x]
  | y :: r => if le x y then x :: l else y :: insert_by le x r
  end.

(** Rows that compare equal keep their storage order. *)
Definition sort_by {A} (le : A -> A -> bool) (l : list A) : list A :=
  fold_right (insert_by le) [] l.

(** [ORDER BY column ASC] or [DESC]; descending is the reverse order,
    with [NULL] first. *)
Definition orderBy (f : SortField.t) (d : SortDirection.t)
    (rows : list Todo.t) : list Todo.t :=
  match d with
  | SortDirection.asc => sort_by (le_asc f) rows
  | SortDirection.desc => sort_by (fun a b => le_asc f b a) rows
  end.

Definition option_bind {A B} (o : option A) (f : A -> option B) : option B :=
  match o with Some a => f a | None => None end.

(** The [conditions] array of [getUserTodos]. *)
Definition conditions (userId : uuid) (filters : option TodoFilters.t)
    : list (Todo.t -> bool) :=
  [fun t => Todo.user_id t =? userId]
  ++ match option_bind filters TodoFilters.isCompleted with
     | Some b => [fun t => Bool.eqb (Todo.is_completed t) b]
     | None => []
     end
  ++ match option_bind filters TodoFilters.priority with
     | Some p => [fun t => (Todo.priority t =? p)%Z]
     | None => []
     end
  ++ match option_bind filters TodoFilters.search with
     | Some s =>
         if truthy s then
           [fun t =>
              like ("%" ++ s ++ "%") (Todo.title t)
              || match Todo.description t with
                 | Some d => like ("%" ++ s ++ "%") d
                 | None => false
                 end]
         else []
     | None => []
     end.

Definition getUserTodos (userId : uuid) (filters : option TodoFilters.t)
    (sort : option TodoSort.t) : M (list Todo.t) :=
  rethrow_as "Failed to fetch todos"
    (let sortField :=
       match sort with Some s => TodoSort.field s | None => SortField.created_at end in
     let sortDirection :=
       match sort with Some s => TodoSort.direction s | None => SortDirection.desc end in
     result <- query (fun db =>
       orderBy sortField sortDirection
         (filter (fun t => forallb (fun c => c t) (conditions userId filters))
                 (todos db))) ;;
     match option_bind filters TodoFilters.categoryId with
     | Some categoryId =>
         if truthy categoryId then
           todoIds <- query (fun db =>
             map TodoCategory.todo_id
               (filter (fun tc => TodoCategory.category_id tc =? categoryId)
                       (todoCategories db))) ;;
           ret (filter (fun todo => mem (Todo.id todo) todoIds) result)
         else ret result
     | None => ret result
     end).

(** [and(eq(todos.id, todoId), eq(todos.user_id, userId))]. *)
Definition owned_todo (todoId userId : uuid) (t : Todo.t) : bool :=
  (Todo.id t =? todoId) && (Todo.user_id t =? userId).

Definition getTodoById (todoId userId : uuid) : M (option Todo.t) :=
  rethrow_as "Failed to fetch todo"
    (result <- query (fun db =>
       firstn 1 (filter (owned_todo todoId userId) (todos db))) ;;
     ret (hd_error result)).

Definition getTodoWithCategories (todoId userId : uuid)
    : M (option TodoWithCategories) :=
  rethrow_as "Failed to fetch todo with categories"
    (todo <- getTodoById todoId userId ;;
     match todo with
     | None => ret None
     | Some todo =>
         todoCategs <- query (fun db =>
           flat_map
             (fun tc =>
                filter (fun c => TodoCategory.category_id tc =? Category.id c)
                       (categories db))
             (filter (fun tc => TodoCategory.todo_id tc =? todoId)
                     (todoCategories db))) ;;
         ret (Some (mkTodoWithCategories todo todoCategs))
     end).

(** What the clock and the uuid generator give during one call:
    [new Date()] and the [defaultNow()] and [defaultRandom()] column
    defaults. *)
Record Env := mkEnv
  { now : timestamp;
    randomUuid : uuid }.

(** A value handed to a timestamp column: an instant, or something that
    denotes none, which the column refuses. *)
Inductive TimestampInput :=
| Instant (t : timestamp)
| NotAnInstant.

(** The value stored for a nullable timestamp column, when it can be. *)
Definition stored (v : option TimestampInput) : option (option timestamp) :=
  match v with
  | None => Some None
  | Some (Instant t) => Some (Some t)
  | Some NotAnInstant => None
  end.

Module NewTodo.
Record t := mk
  { id : option uuid;
    user_id : uuid;
    title : string;
    description : option string;
    is_completed : option bool;
    priority : option Z;
    due_date : option TimestampInput;
    created_at : option timestamp;
    updated_at : option timestamp }.
End NewTodo.

(** [Partial<Omit<NewTodo, "user_id" | "created_at">>]: a field is
    [None] when the key is absent; a nullable column is cleared by
    [Some None]. *)
Module TodoUpdate.
Record t := mk
  { id : option uuid;
    title : option string;
    description : option (option string);
    is_completed : option bool;
    priority : option Z;
    due_date : option (option TimestampInput);
    updated_at : option timestamp }.

Definition empty : t := mk None None None None None None None.
End TodoUpdate.

Module NewCategory.
Record t := mk
  { id : option uuid;
    user_id : uuid;
    name : string;
    color : string;
    created_at : option timestamp }.
End NewCategory.

(** [Partial<Omit<NewCategory, "user_id" | "created_at">>]. *)
Module CategoryUpdate.
Record t := mk
  { id : option uuid;
    name : option string;
    color : option string }.
End CategoryUpdate.

Definition or_default {A} (o : option A) (d : A) : A :=
  match o with Some a => a | None => d end.

Definition with_todos (db : Db) (l : list Todo.t) : Db :=
  mkDb (users db) l (categories db) (todoCategories db).

Definition with_categories (db : Db) (l : list Category.t) : Db :=
  mkDb (users db) (todos db) l (todoCategories db).

Definition with_todoCategories (db : Db) (l : list TodoCategory.t) : Db :=
  mkDb (users db) (todos db) (categories db) l.

(** The row [insert(todos).values(data)] writes, column defaults filled in. *)
Definition new_todo_row (env : Env) (data : NewTodo.t)
    (due : option timestamp) : Todo.t :=
  Todo.mk (or_default (NewTodo.id data) (randomUuid env))
          (NewTodo.user_id data)
          (NewTodo.title data)
          (NewTodo.description data)
          (or_default (NewTodo.is_completed data) false)
          (or_default (NewTodo.priority data) 2%Z)
          due
          (or_default (NewTodo.created_at data) (now env))
          (or_default (NewTodo.updated_at data) (now env)).

Definition createTodo (env : Env) (data : NewTodo.t) : M Todo.t :=
  rethrow_as "Failed to create todo"
    (statement (fun db =>
       match stored (NewTodo.due_date data) with
       | Some due =>
           let row := new_todo_row env data due in
           Some (with_todos db (todos db ++ [row]), row)
       | None => None
       end)).

(** The row [update(todos).set(u)] leaves in place of [t]. *)
Definition set_todo (u : TodoUpdate.t) (due : option (option timestamp))
    (t : Todo.t) : Todo.t :=
  Todo.mk (or_default (TodoUpdate.id u) (Todo.id t))
          (Todo.user_id t)
          (or_default (TodoUpdate.title u) (Todo.title t))
          (or_default (TodoUpdate.description u) (Todo.description t))
          (or_default (TodoUpdate.is_completed u) (Todo.is_completed t))
          (or_default (TodoUpdate.priority u) (Todo.priority t))
          (or_default due (Todo.due_date t))
          (Todo.created_at t)
          (or_default (TodoUpdate.updated_at u) (Todo.updated_at t)).

(** The value an update stores in a nullable timestamp column: nothing
    when the key is absent, [NULL], or an instant. *)
Definition stored_update (v : option (option TimestampInput))
    : option (option (option timestamp)) :=
  match v with
  | None => Some None
  | Some x => option_map Some (stored x)
  end.


Definition updateTodo (env : Env) (todoId userId : uuid)
    (data : TodoUpdate.t) : M (option Todo.t) :=
  rethrow_as "Failed to update todo"
    (let updateData :=
       TodoUpdate.mk (TodoUpdate.id data) (TodoUpdate.title data)
         (TodoUpdate.description data) (TodoUpdate.is_completed data)
         (TodoUpdate.priority data) (TodoUpdate.due_date data)
         (Some (now env)) in
     result <- statement (fun db =>
       match stored_update (TodoUpdate.due_date updateData) with
       | Some due =>
           let hit := owned_todo todoId userId in
           Some (with_todos db
                   (map (fun t => if hit t then set_todo updateData due t else t)
                        (todos db)),
                 map (set_todo updateData due) (filter hit (todos db)))
       | None => None
       end) ;;
     ret (hd_error result)).

Definition toggleTodoCompletion (env : Env) (todoId userId : uuid)
    : M (option Todo.t) :=
  rethrow_as "Failed to toggle todo completion"
    (todo <- getTodoById todoId userId ;;
     match todo with
     | None => ret None
     | Some todo =>
         updateTodo env todoId userId
           (TodoUpdate.mk None None None (Some (negb (Todo.is_completed todo)))
                          None None None)
     end).

(** [delete(todos) ... returning()], with the cascade of
    [todo_categories.todo_id]. *)
Definition deleteTodo (todoId userId : uuid) : M bool :=
  rethrow_as "Failed to delete todo"
    (result <- statement (fun db =>
       let hit := owned_todo todoId userId in
       let deleted := filter hit (todos db) in
       Some (mkDb (users db)
                  (filter (fun t => negb (hit t)) (todos db))
                  (categories db)
                  (filter (fun tc =>
                             negb (mem (TodoCategory.todo_id tc)
                                       (map Todo.id deleted)))
                          (todoCategories db)),
             deleted)) ;;
     ret (0 <? length result)%nat).

(** [sql`${todos.id} = ANY(${todoIds})`] with the user condition. *)
Definition bulkUpdateTodos (env : Env) (todoIds : list uuid) (userId : uuid)
    (data : TodoUpdate.t) : M nat :=
  rethrow_as "Failed to bulk update todos"
    (let updateData :=
       TodoUpdate.mk (TodoUpdate.id data) (TodoUpdate.title data)
         (TodoUpdate.description data) (TodoUpdate.is_completed data)
         (TodoUpdate.priority data) (TodoUpdate.due_date data)
         (Some (now env)) in
     result <- statement (fun db =>
       match stored_update (TodoUpdate.due_date updateData) with
       | Some due =>
           let hit := fun t =>
             mem (Todo.id t) todoIds && (Todo.user_id t =? userId) in
           Some (with_todos db
                   (map (fun t => if hit t then set_todo updateData due t else t)
                        (todos db)),
                 map (set_todo updateData due) (filter hit (todos db)))
       | None => None
       end) ;;
     ret (length result)).

Record TodoStats := mkTodoStats
  { total : nat;
    completed : nat;
    pending : nat;
    overdue : nat }.

Definition getTodoStats (env : Env) (userId : uuid) : M TodoStats :=
  rethrow_as "Failed to fetch todo statistics"
    (allTodos <- query (fun db =>
       filter (fun t => Todo.user_id t =? userId) (todos db)) ;;
     let total := length allTodos in
     let completed := length (filter Todo.is_completed allTodos) in
     let pending := (total - completed)%nat in
     let overdue :=
       length
         (filter (fun t =>
                    negb (Todo.is_completed t)
                    && match Todo.due_date t with
                       | Some due => (due <? now env)%Z
                       | None => false
                       end)
                 allTodos) in
     ret (mkTodoStats total completed pending overdue)).

Definition getUserCategories (userId : uuid) : M (list Category.t) :=
  rethrow_as "Failed to fetch categories"
    (query (fun db =>
       sort_by (fun a b => String.leb (Category.name a) (Category.name b))
         (filter (fun c => Category.user_id c =? userId) (categories db)))).

(** [and(eq(categories.id, categoryId), eq(categories.user_id, userId))]. *)
Definition owned_category (categoryId userId : uuid) (c : Category.t) : bool :=
  (Category.id c =? categoryId) && (Category.user_id c =? userId).

Definition getCategoryById (categoryId userId : uuid) : M (option Category.t) :=
  rethrow_as "Failed to fetch category"
    (result <- query (fun db =>
       firstn 1 (filter (owned_category categoryId userId) (categories db))) ;;
     ret (hd_error result)).

Definition createCategory (env : Env) (data : NewCategory.t) : M Category.t :=
  rethrow_as "Failed to create category"
    (statement (fun db =>
       let row :=
         Category.mk (or_default (NewCategory.id data) (randomUuid env))
                     (NewCategory.user_id data)
                     (NewCategory.name data)
                     (NewCategory.color data)
                     (or_default (NewCategory.created_at data) (now env)) in
       Some (with_categories db (categories db ++ [row]), row))).

Definition set_category (u : CategoryUpdate.t) (c : Category.t) : Category.t :=
  Category.mk (or_default (CategoryUpdate.id u) (Category.id c))
              (Category.user_id c)
              (or_default (CategoryUpdate.name u) (Category.name c))
              (or_default (CategoryUpdate.color u) (Category.color c))
              (Category.created_at c).

Definition updateCategory (categoryId userId : uuid)
    (data : CategoryUpdate.t) : M (option Category.t) :=
  rethrow_as "Failed to update category"
    (result <- statement (fun db =>
       let hit := owned_category categoryId userId in
       Some (with_categories db
               (map (fun c => if hit c then set_category data c else c)
                    (categories db)),
             map (set_category data) (filter hit (categories db)))) ;;
     ret (hd_error result)).

(** [delete(categories) ... returning()], with the cascade of
    [todo_categories.category_id]. *)
Definition deleteCategory (categoryId userId : uuid) : M bool :=
  rethrow_as "Failed to delete category"
    (result <- statement (fun db =>
       let hit := owned_category categoryId userId in
       let deleted := filter hit (categories db) in
       Some (mkDb (users db)
                  (todos db)
                  (filter (fun c => negb (hit c)) (categories db))
                  (filter (fun tc =>
                             negb (mem (TodoCategory.category_id tc)
                                       (map Category.id deleted)))
                          (todoCategories db)),
             deleted)) ;;
     ret (0 <? length result)%nat).

(** [CategoryWithCount = Category & { todoCount: number }]. *)
Record CategoryWithCount := mkCategoryWithCount
  { cwc_category : Category.t;
    todoCount : nat }.

(** [Promise.all(l.map(f))], the calls taken in the order of [l]. *)
Fixpoint all {A B} (f : A -> M B) (l : list A) : M (list B) :=
  match l with
  | [] => ret []
  | x :: r => y <- f x ;; ys <- all f r ;; ret (y :: ys)
  end.

Definition getCategoriesWithCounts (userId : uuid) : M (list CategoryWithCount) :=
  rethrow_as "Failed to fetch categories with counts"
    (userCategories <- getUserCategories userId ;;
     all (fun category =>
            count <- query (fun db =>
              length
                (filter (fun row : TodoCategory.t * Todo.t =>
                           (TodoCategory.category_id (fst row) =? Category.id category)
                           && (Todo.user_id (snd row) =? userId))
                        (flat_map
                           (fun tc =>
                              map (fun t => (tc, t))
                                  (filter (fun t => TodoCategory.todo_id tc =? Todo.id t)
                                          (todos db)))
                           (todoCategories db)))) ;;
            ret (mkCategoryWithCount category count))
         userCategories).

(** [insert(todoCategories).values(values).onConflictDoNothing()]: a
    value whose primary key is already in the table, or was written by
    an earlier value of the same statement, is skipped. *)
Definition insert_todoCategories (env : Env) (values : list (uuid * uuid))
    (rows : list TodoCategory.t) : list TodoCategory.t :=
  fold_left
    (fun rows v =>
       if existsb (pk_eqb v) (map TodoCategory.pk rows) then rows
       else rows ++ [TodoCategory.mk (fst v) (snd v) (now env)])
    values rows.

Definition addCategoriesToTodo (env : Env) (todoId : uuid)
    (categoryIds : list uuid) (userId : uuid) : M unit :=
  rethrow_as "Failed to add categories to todo"
    (todo <- getTodoById todoId userId ;;
     match todo with
     | None => throw (JsError "Todo not found or access denied")
     | Some _ =>
         userCategs <- getUserCategories userId ;;
         let validCategoryIds := map Category.id userCategs in
         let invalidCategories :=
           filter (fun id => negb (mem id validCategoryIds)) categoryIds in
         if (0 <? length invalidCategories)%nat then
           throw (JsError "One or more categories not found or access denied")
         else
           let values := map (fun categoryId => (todoId, categoryId)) categoryIds in
           statement (fun db =>
             Some (with_todoCategories db
                     (insert_todoCategories env values (todoCategories db)),
                   tt))
     end).

Definition removeCategoriesFromTodo (todoId : uuid) (categoryIds : list uuid)
    (userId : uuid) : M unit :=
  rethrow_as "Failed to remove categories from todo"
    (todo <- getTodoById todoId userId ;;
     match todo with
     | None => throw (JsError "Todo not found or access denied")
     | Some _ =>
         statement (fun db =>
           Some (with_todoCategories db
                   (filter (fun tc =>
                              negb ((TodoCategory.todo_id tc =? todoId)
                                    && mem (TodoCategory.category_id tc) categoryIds))
                           (todoCategories db)),
                 tt))
     end).

Definition replaceTodoCategories (env : Env) (todoId : uuid)
    (categoryIds : list uuid) (userId : uuid) : M unit :=
  rethrow_as "Failed to replace todo categories"
    (todo <- getTodoById todoId userId ;;
     match todo with
     | None => throw (JsError "Todo not found or access denied")
     | Some _ =>
         statement (fun db =>
           Some (with_todoCategories db
                   (filter (fun tc => negb (TodoCategory.todo_id tc =? todoId))
                           (todoCategories db)),
                 tt)) ;;
         if (0 <? length categoryIds)%nat then
           addCategoriesToTodo env todoId categoryIds userId
         else ret tt
     end).

Definition getTodoCategories (todoId userId : uuid) : M (list Category.t) :=
  rethrow_as "Failed to fetch todo categories"
    (todo <- getTodoById todoId userId ;;
     match todo with
     | None => throw (JsError "Todo not found or access denied")
     | Some _ =>
         query (fun db =>
           flat_map
             (fun tc =>
                filter (fun c => TodoCategory.category_id tc =? Category.id c)
                       (categories db))
             (filter (fun tc => TodoCategory.todo_id tc =? todoId)
                     (todoCategories db)))
     end).

(** ** Validation layer ([src/lib/validations/todo.ts]) *)

(** A parsed JSON value.  No schema below accepts a number, so only the
    fact that a value is one matters. *)
#[warnings="-register-all"]
Inductive json :=
| JNull
| JBool (b : bool)
| JNumber (n : Z)
| JString (s : string)
| JArray (items : list json)
| JObject (fields : list (string * json)).

(** [input[key]] on a parsed object, whose keys are distinct; [None] is
    [undefined]. *)
Fixpoint lookup (key : string) (fields : list (string * json)) : option json :=
  match fields with
  | [] => None
  | (k, v) :: r => if k =? key then Some v else lookup key r
  end.

(** The outcome of parsing with a zod type: the value, unless parsing
    aborted, and the issues raised on the way. *)
Definition parsed (A : Type) : Type := option A * list ZodIssue.

Definition check := string -> option ZodMessage.

Definition z_min (n : nat) (msg : string) : check :=
  fun s => if (String.length s <? n)%nat then Some (Custom msg) else None.

Definition z_max (n : nat) (msg : string) : check :=
  fun s => if (n <? String.length s)%nat then Some (Custom msg) else None.

Definition z_format (accepts : string -> bool) (msg : ZodMessage) : check :=
  fun s => if accepts s then None else Some msg.

(** [z.string()] with its checks. *)
Definition z_string (checks : list check) (p : list PathSeg)
    (v : option json) : parsed string :=
  match v with
  | Some (JString s) =>
      (Some s,
       flat_map (fun c => match c s with
                          | Some m => [mkIssue p m]
                          | None => []
                          end) checks)
  | _ => (None, [mkIssue p InvalidType])
  end.

Definition z_boolean (p : list PathSeg) (v : option json) : parsed bool :=
  match v with
  | Some (JBool b) => (Some b, [])
  | _ => (None, [mkIssue p InvalidType])
  end.

(** [z.enum(values)]. *)
Definition z_enum (values : list string) (p : list PathSeg)
    (v : option json) : parsed string :=
  match v with
  | Some (JString s) =>
      if mem s values then (Some s, []) else (None, [mkIssue p InvalidEnumValue])
  | _ => (None, [mkIssue p InvalidType])
  end.

(** [schema.transform(f)]. *)
Definition z_transform {A B} (f : A -> B)
    (schema : list PathSeg -> option json -> parsed A)
    (p : list PathSeg) (v : option json) : parsed B :=
  let (a, issues) := schema p v in (option_map f a, issues).

(** [schema.optional()]: [undefined] is accepted as it is. *)
Definition z_optional {A} (schema : list PathSeg -> option json -> parsed A)
    (p : list PathSeg) (v : option json) : parsed (option A) :=
  match v with
  | None => (Some None, [])
  | Some _ => let (a, issues) := schema p v in (option_map Some a, issues)
  end.

(** [schema.nullable()]: [null] is accepted as it is. *)
Definition z_nullable {A} (schema : list PathSeg -> option json -> parsed A)
    (p : list PathSeg) (v : option json) : parsed (option A) :=
  match v with
  | Some JNull => (Some None, [])
  | _ => let (a, issues) := schema p v in (option_map Some a, issues)
  end.

Fixpoint z_items {A} (schema : list PathSeg -> option json -> parsed A)
    (p : list PathSeg) (i : nat) (items : list json) : parsed (list A) :=
  match items with
  | [] => (Some [], [])
  | x :: r =>
      let (a, issues) := schema (p ++ [PIdx i]) (Some x) in
      let (l, issues') := z_items schema p (S i) r in
      (match a, l with
       | Some a, Some l => Some (a :: l)
       | _, _ => None
       end,
       issues ++ issues')
  end.

(** [z.array(schema)]. *)
Definition z_array {A} (schema : list PathSeg -> option json -> parsed A)
    (p : list PathSeg) (v : option json) : parsed (list A) :=
  match v with
  | Some (JArray items) => z_items schema p 0 items
  | _ => (None, [mkIssue p InvalidType])
  end.

Definition digit (c : ascii) : option Z :=
  let n := Z.of_nat (nat_of_ascii c) in
  if ((48 <=? n) && (n <=? 57))%Z then Some (n - 48)%Z else None.

Fixpoint digits (acc : Z) (s : string) : Z :=
  match s with
  | EmptyString => acc
  | String c r =>
      match digit c with
      | Some d => digits (10 * acc + d)%Z r
      | None => acc
      end
  end.

(** [parseInt] on a text that starts with a decimal digit, which is all
    [priorityEnum] hands it. *)
Definition parseInt (val : string) : Z := digits 0 val.

Definition priorityEnum : list PathSeg -> option json -> parsed Z :=
  z_transform parseInt (z_enum ["1"; "2"; "3"; "4"]).

Module CreateTodoInput.
Record t := mk
  { title : string;
    description : option string;
    priority : option Z;
    dueDate : option string;
    categoryIds : option (list string) }.
End CreateTodoInput.

(** A key of the output is [None] when the parsed object does not have
    it; [dueDate] is [Some None] when it is [null]. *)
Module UpdateTodoInput.
Record t := mk
  { title : option string;
    description : option string;
    priority : option Z;
    dueDate : option (option string);
    isCompleted : option bool;
    categoryIds : option (list string) }.
End UpdateTodoInput.

Section Schemas.

(** The two format checks of zod that the schemas use: [.datetime()]
    and [.uuid()]. *)
Variable zod_datetime : string -> bool.
Variable zod_uuid : string -> bool.

Definition title_schema :=
  z_string [z_min 1 "Title is required";
            z_max 200 "Title must be 200 characters or less"].

Definition datetime_schema :=
  z_string [z_format zod_datetime InvalidDatetime].

Definition categoryIds_schema :=
  z_array (z_string [z_format zod_uuid InvalidUuid]).

(** [createTodoSchema.parse(body)]: the value, or the issues of the
    [ZodError] it throws. *)
Definition createTodoSchema (body : json)
    : CreateTodoInput.t + list ZodIssue :=
  match body with
  | JObject input =>
      let (title, i1) := title_schema [PKey "title"] (lookup "title" input) in
      let (description, i2) :=
        z_optional (z_string []) [PKey "description"]
                   (lookup "description" input) in
      let (priority, i3) :=
        z_optional priorityEnum [PKey "priority"] (lookup "priority" input) in
      let (dueDate, i4) :=
        z_optional datetime_schema [PKey "dueDate"] (lookup "dueDate" input) in
      let (categoryIds, i5) :=
        z_optional categoryIds_schema [PKey "categoryIds"]
                   (lookup "categoryIds" input) in
      match title, description, priority, dueDate, categoryIds,
            i1 ++ i2 ++ i3 ++ i4 ++ i5 with
      | Some t, Some d, Some p, Some dd, Some c, [] =>
          inl (CreateTodoInput.mk t d p dd c)
      | _, _, _, _, _, issues => inr issues
      end
  | _ => inr [mkIssue [] InvalidType]
  end.

(** The keys of its shape that the parsed object has: the keys of the
    value [updateTodoSchema] builds before its refinement runs. *)
Definition recognized (input : list (string * json)) : list string :=
  filter (fun k => match lookup k input with Some _ => true | None => false end)
         ["title"; "description"; "priority"; "dueDate"; "isCompleted";
          "categoryIds"].

(** [updateTodoSchema.parse(body)].  The refinement runs on the value
    the object schema built, unless an invalid field aborted it. *)
Definition updateTodoSchema (body : json)
    : UpdateTodoInput.t + list ZodIssue :=
  match body with
  | JObject input =>
      let (title, i1) :=
        z_optional title_schema [PKey "title"] (lookup "title" input) in
      let (description, i2) :=
        z_optional (z_string []) [PKey "description"]
                   (lookup "description" input) in
      let (priority, i3) :=
        z_optional priorityEnum [PKey "priority"] (lookup "priority" input) in
      let (dueDate, i4) :=
        z_nullable (z_optional datetime_schema) [PKey "dueDate"]
                   (lookup "dueDate" input) in
      let (isCompleted, i5) :=
        z_optional z_boolean [PKey "isCompleted"] (lookup "isCompleted" input) in
      let (categoryIds, i6) :=
        z_optional categoryIds_schema [PKey "categoryIds"]
                   (lookup "categoryIds" input) in
      match title, description, priority, dueDate, isCompleted, categoryIds with
      | Some t, Some d, Some p, Some dd, Some ic, Some c =>
          let refinement :=
            if (0 <? length (recognized input))%nat then []
            else [mkIssue []
                    (Custom "At least one field must be provided for update")] in
          match i1 ++ i2 ++ i3 ++ i4 ++ i5 ++ i6 ++ refinement with
          | [] =>
              inl (UpdateTodoInput.mk t d p
                     match dd with
                     | None => Some None
                     | Some None => None
                     | Some (Some s) => Some (Some s)
                     end
                     ic c)
          | issues => inr issues
          end
      | _, _, _, _, _, _ => inr (i1 ++ i2 ++ i3 ++ i4 ++ i5 ++ i6)
      end
  | _ => inr [mkIssue [] InvalidType]
  end.

End Schemas.

(** ** Response helpers ([src/lib/utils/api-response.ts]) *)

Record ValidationDetail := mkValidationDetail
  { field : string;
    detail : ZodMessage }.

Record ApiError := mkApiError
  { error : string;
    code : Z;
    validation : option (list ValidationDetail) }.

(** The JSON bodies the handlers send. *)
Inductive ResponseBody :=
| ErrorBody (e : ApiError)
| TodoBody (todo : TodoWithCategories + Todo.t)
| SuccessBody.

Record Response := mkResponse
  { body : ResponseBody;
    status : Z }.

Definition successResponse (data : ResponseBody) (status : Z) : Response :=
  mkResponse data status.

Definition errorResponse (message : string) (status : Z)
    (validation : option (list ValidationDetail)) : Response :=
  mkResponse (ErrorBody (mkApiError message status validation)) status.

Definition seg_text (s : PathSeg) : string :=
  match s with
  | PKey k => k
  | PIdx i => NilEmpty.string_of_uint (Nat.to_uint i)
  end.

(** [err.path.join('.')]. *)
Definition join_path (p : list PathSeg) : string :=
  String.concat "." (map seg_text p).

Definition handleValidationError (errors : list ZodIssue) : Response :=
  errorResponse "Validation failed" 400
    (Some (map (fun err => mkValidationDetail (join_path (path err)) (message err))
               errors)).

(** [hay.includes(needle)]. *)
Fixpoint includes (hay needle : string) : bool :=
  String.prefix needle hay
  || match hay with
     | EmptyString => false
     | String _ r => includes r needle
     end.

Definition handleError (error : exn) : Response :=
  match error with
  | JsZodError errors => handleValidationError errors
  | JsError message =>
      if includes message "not found" then
        errorResponse "Resource not found" 404 None
      else if includes message "unauthorized" || includes message "No user found" then
        errorResponse "Unauthorized access" 401 None
      else if includes message "forbidden" then
        errorResponse "Access forbidden" 403 None
      else errorResponse message 500 None
  | JsOther => errorResponse "An unexpected error occurred" 500 None
  end.

(** ** Request handlers ([/api/todos] and [/api/todos/[id]]) *)

(** [getUserId()]: the id of the user of the session, when there is one. *)
Definition getUserId (session : option uuid) : M uuid :=
  match session with
  | Some id => ret id
  | None => throw (JsError "No user found in session")
  end.

(** The body of a request: the value [request.json()] resolves to, or
    the message of the [SyntaxError] it rejects with. *)
Inductive RequestBody :=
| Parsed (value : json)
| Malformed (msg : string).

Definition request_json (b : RequestBody) : M json :=
  match b with
  | Parsed value => ret value
  | Malformed msg => throw (JsError msg)
  end.

Definition parse {A} (r : A + list ZodIssue) : M A :=
  match r with
  | inl a => ret a
  | inr issues => throw (JsZodError issues)
  end.

Section Handlers.

Variable zod_datetime : string -> bool.
Variable zod_uuid : string -> bool.

(** [new Date(text).getTime()], [None] for an invalid date. *)
Variable Date_parse : string -> option timestamp.

(** [dueDate < now], false when [dueDate] is an invalid date. *)
Definition before (dueDate : string) (now : timestamp) : bool :=
  match Date_parse dueDate with
  | Some t => (t <? now)%Z
  | None => false
  end.

(** The validated text, handed as it is to the [due_date] column. *)
Definition due_input (dueDate : string) : TimestampInput :=
  match Date_parse dueDate with
  | Some t => Instant t
  | None => NotAnInstant
  end.

Definition or_updated (t : option TodoWithCategories) (u : Todo.t)
    : TodoWithCategories + Todo.t :=
  match t with Some t => inl t | None => inr u end.

(** [POST /api/todos]. *)
Definition POST (env : Env) (session : option uuid) (request : RequestBody)
    : M Response :=
  try_catch
    (userId <- getUserId session ;;
     body <- request_json request ;;
     validatedData <- parse (createTodoSchema zod_datetime zod_uuid body) ;;
     if match CreateTodoInput.dueDate validatedData with
        | Some dueDate => truthy dueDate && before dueDate (now env)
        | None => false
        end
     then ret (errorResponse "Due date cannot be in the past" 400 None)
     else
       newTodo <- createTodo env
         (NewTodo.mk None userId
            (CreateTodoInput.title validatedData)
            (match CreateTodoInput.description validatedData with
             | Some d => if truthy d then Some d else None
             | None => None
             end)
            (Some false)
            (Some (match CreateTodoInput.priority validatedData with
                   | Some p => if (p =? 0)%Z then 2%Z else p
                   | None => 2%Z
                   end))
            (match CreateTodoInput.dueDate validatedData with
             | Some d => if truthy d then Some (due_input d) else None
             | None => None
             end)
            None None) ;;
       match CreateTodoInput.categoryIds validatedData with
       | Some categoryIds =>
           if (0 <? length categoryIds)%nat then
             replaceTodoCategories env (Todo.id newTodo) categoryIds userId
           else ret tt
       | None => ret tt
       end ;;
       todoWithCategories <- getTodoWithCategories (Todo.id newTodo) userId ;;
       ret (successResponse (TodoBody (or_updated todoWithCategories newTodo)) 201))
    (fun error => ret (handleError error)).

(** [PATCH /api/todos/[id]]. *)
Definition PATCH (env : Env) (session : option uuid) (id : uuid)
    (request : RequestBody) : M Response :=
  try_catch
    (userId <- getUserId session ;;
     existingTodo <- getTodoById id userId ;;
     match existingTodo with
     | None => ret (errorResponse "Todo not found" 404 None)
     | Some existingTodo =>
         body <- request_json request ;;
         validatedData <- parse (updateTodoSchema zod_datetime zod_uuid body) ;;
         if match UpdateTodoInput.dueDate validatedData with
            | Some (Some dueDate) =>
                negb (Todo.is_completed existingTodo)
                && before dueDate (now env)
            | _ => false
            end
         then ret (errorResponse "Due date cannot be in the past" 400 None)
         else
           let updateData :=
             TodoUpdate.mk None
               (UpdateTodoInput.title validatedData)
               (option_map Some (UpdateTodoInput.description validatedData))
               (UpdateTodoInput.isCompleted validatedData)
               (UpdateTodoInput.priority validatedData)
               (option_map (option_map due_input)
                           (UpdateTodoInput.dueDate validatedData))
               None in
           updatedTodo <- updateTodo env id userId updateData ;;
           match updatedTodo with
           | None => ret (errorResponse "Failed to update todo" 500 None)
           | Some updatedTodo =>
               match UpdateTodoInput.categoryIds validatedData with
               | Some categoryIds =>
                   replaceTodoCategories env id categoryIds userId
               | None => ret tt
               end ;;
               todoWithCategories <- getTodoWithCategories id userId ;;
               ret (successResponse
                      (TodoBody (or_updated todoWithCategories updatedTodo)) 200)
           end
     end)
    (fun error => ret (handleError error)).

(** [DELETE /api/todos/[id]]. *)
Definition DELETE (session : option uuid) (id : uuid) : M Response :=
  try_catch
    (userId <- getUserId session ;;
     existingTodo <- getTodoById id userId ;;
     match existingTodo with
     | None => ret (errorResponse "Todo not found" 404 None)
     | Some _ =>
         deleted <- deleteTodo id userId ;;
         if deleted then ret (successResponse SuccessBody 200)
         else ret (errorResponse "Failed to delete todo" 500 None)
     end)
    (fun error => ret (handleError error)).

End Handlers.

(** ** The other schemas and handlers

    [todoQuerySchema], [createCategorySchema]
    ([src/lib/validations/category.ts]) and the handlers of
    [GET /api/todos], [/api/categories] and [/api/categories/[id]]. *)

(** [schema.optional().default(d)]: the default takes the place of
    [undefined] before [optional] sees it. *)
Definition z_default {A} (d : json)
    (schema : list PathSeg -> option json -> parsed A)
    (p : list PathSeg) (v : option json) : parsed A :=
  match v with
  | None => schema p (Some d)
  | Some _ => schema p v
  end.

Module TodoQueryParams.
Record t := mk
  { status : string;
    priority : option Z;
    category : option string;
    sortBy : string;
    sortOrder : string }.
End TodoQueryParams.

(** [todoQuerySchema.parse(queryParams)]. *)
Definition todoQuerySchema (queryParams : json)
    : TodoQueryParams.t + list ZodIssue :=
  match queryParams with
  | JObject input =>
      let (status, i1) :=
        z_default (JString "all") (z_enum ["completed"; "incomplete"; "all"])
                  [PKey "status"] (lookup "status" input) in
      let (priority, i2) :=
        z_optional priorityEnum [PKey "priority"] (lookup "priority" input) in
      let (category, i3) :=
        z_optional (z_string []) [PKey "category"] (lookup "category" input) in
      let (sortBy, i4) :=
        z_default (JString "createdAt")
                  (z_enum ["dueDate"; "priority"; "createdAt"; "title"])
                  [PKey "sortBy"] (lookup "sortBy" input) in
      let (sortOrder, i5) :=
        z_default (JString "desc") (z_enum ["asc"; "desc"])
                  [PKey "sortOrder"] (lookup "sortOrder" input) in
      match status, priority, category, sortBy, sortOrder,
            i1 ++ i2 ++ i3 ++ i4 ++ i5 with
      | Some s, Some p, Some c, Some sb, Some so, [] =>
          inl (TodoQueryParams.mk s p c sb so)
      | _, _, _, _, _, issues => inr issues
      end
  | _ => inr [mkIssue [] InvalidType]
  end.

Definition is_hex (c : ascii) : bool :=
  let n := nat_of_ascii c in
  ((48 <=? n) && (n <=? 57) || (65 <=? n) && (n <=? 70)
   || (97 <=? n) && (n <=? 102))%nat.

Fixpoint all_hex (s : string) : bool :=
  match s with
  | EmptyString => true
  | String c r => is_hex c && all_hex r
  end.

(** [/^#([A-Fa-f0-9]{6}|[A-Fa-f0-9]{3})$/.test(s)]. *)
Definition hexColorRegex (s : string) : bool :=
  match s with
  | String "#" digits =>
      all_hex digits
      && ((String.length digits =? 6) || (String.length digits =? 3))%nat
  | _ => false
  end.

Module CreateCategoryInput.
Record t := mk
  { name : string;
    color : string }.
End CreateCategoryInput.

(** [createCategorySchema.parse(body)]. *)
Definition createCategorySchema (body : json)
    : CreateCategoryInput.t + list ZodIssue :=
  match body with
  | JObject input =>
      let (name, i1) :=
        z_string [z_min 1 "Category name is required";
                  z_max 50 "Category name must be 50 characters or less"]
                 [PKey "name"] (lookup "name" input) in
      let (color, i2) :=
        z_default (JString "#3B82F6")
          (z_string [z_format hexColorRegex
                       (Custom "Color must be a valid hex color code")])
          [PKey "color"] (lookup "color" input) in
      match name, color, i1 ++ i2 with
      | Some n, Some c, [] => inl (CreateCategoryInput.mk n c)
      | _, _, issues => inr issues
      end
  | _ => inr [mkIssue [] InvalidType]
  end.

(** What the handlers of collections put in a success response. *)
Inductive Payload :=
| TodosPayload (todos : list Todo.t) (totalCount : nat)
| CategoriesPayload (categories : list Category.t) (totalCount : nat)
| CategoryPayload (category : Category.t).

(** The response of such a handler: [successResponse] on a payload, or
    a response of the error helpers. *)
Inductive CollectionResponse :=
| Success (data : Payload) (status : Z)
| Failure (response : Response).

(** [searchParams.get(...)] for the five parameters [GET /api/todos]
    reads; [None] is [null]. *)
Module SearchParams.
Record t := mk
  { status : option string;
    priority : option string;
    category : option string;
    sortBy : option string;
    sortOrder : option string }.
End SearchParams.

(** [value || fallback] on a string or [null]. *)
Definition or_text (value : option string) (fallback : string) : string :=
  match value with
  | Some s => if truthy s then s else fallback
  | None => fallback
  end.

Definition text_or_null (value : option string) : json :=
  match value with
  | Some s => JString s
  | None => JNull
  end.

(** [sortFieldMap[sortBy]]; a key the map does not have gives
    [undefined], which [getUserTodos] takes as [created_at]. *)
Definition sortFieldMap (sortBy : string) : SortField.t :=
  if sortBy =? "dueDate" then SortField.due_date
  else if sortBy =? "priority" then SortField.priority
  else if sortBy =? "title" then SortField.title
  else SortField.created_at.

(** A direction as [getUserTodos] reads it: ascending for ["asc"],
    descending otherwise. *)
Definition direction_of (sortOrder : string) : SortDirection.t :=
  if sortOrder =? "asc" then SortDirection.asc else SortDirection.desc.

Module TodosRoute.

(** The [filters] object [GET] builds. *)
Definition filters_of (validatedParams : TodoQueryParams.t) : TodoFilters.t :=
  TodoFilters.mk
    (if TodoQueryParams.status validatedParams =? "completed" then Some true
     else if TodoQueryParams.status validatedParams =? "incomplete" then Some false
     else None)
    (match TodoQueryParams.priority validatedParams with
     | Some p => if (p =? 0)%Z then None else Some p
     | None => None
     end)
    (match TodoQueryParams.category validatedParams with
     | Some c => if truthy c then Some c else None
     | None => None
     end)
    None.

(** [GET /api/todos]. *)
Definition GET (session : option uuid) (searchParams : SearchParams.t)
    : M CollectionResponse :=
  try_catch
    (userId <- getUserId session ;;
     let queryParams :=
       JObject
         [("status", JString (or_text (SearchParams.status searchParams) "all"));
          ("priority", text_or_null (SearchParams.priority searchParams));
          ("category", text_or_null (SearchParams.category searchParams));
          ("sortBy",
           JString (or_text (SearchParams.sortBy searchParams) "createdAt"));
          ("sortOrder",
           JString (or_text (SearchParams.sortOrder searchParams) "desc"))] in
     validatedParams <- parse (todoQuerySchema queryParams) ;;
     let sort :=
       TodoSort.mk (sortFieldMap (TodoQueryParams.sortBy validatedParams))
                   (direction_of (TodoQueryParams.sortOrder validatedParams)) in
     todos <- getUserTodos userId (Some (filters_of validatedParams)) (Some sort) ;;
     ret (Success (TodosPayload todos (length todos)) 200))
    (fun error => ret (Failure (handleError error))).

End TodosRoute.

Module CategoriesRoute.

(** [GET /api/categories]. *)
Definition GET (session : option uuid) : M CollectionResponse :=
  try_catch
    (userId <- getUserId session ;;
     categories <- getUserCategories userId ;;
     ret (Success (CategoriesPayload categories (length categories)) 200))
    (fun error => ret (Failure (handleError error))).

(** [POST /api/categories]. *)
Definition POST (env : Env) (session : option uuid) (request : RequestBody)
    : M CollectionResponse :=
  try_catch
    (userId <- getUserId session ;;
     body <- request_json request ;;
     validatedData <- parse (createCategorySchema body) ;;
     newCategory <- createCategory env
       (NewCategory.mk None userId
          (CreateCategoryInput.name validatedData)
          (CreateCategoryInput.color validatedData)
          None) ;;
     ret (Success (CategoryPayload newCategory) 201))
    (fun error => ret (Failure (handleError error))).

End CategoriesRoute.

Module CategoryRoute.

(** [DELETE /api/categories/[id]]. *)
Definition DELETE (session : option uuid) (id : uuid) : M Response :=
  try_catch
    (userId <- getUserId session ;;
     existingCategory <- getCategoryById id userId ;;
     match existingCategory with
     | None => ret (errorResponse "Category not found" 404 None)
     | Some _ =>
         deleted <- deleteCategory id userId ;;
         if deleted then ret (successResponse SuccessBody 200)
         else ret (errorResponse "Failed to delete category" 500 None)
     end)
    (fun error => ret (handleError error)).

End CategoryRoute.

(** ** A sample database

    Two users; Alice has two todos and two categories, Bob one of each.
    Alice's first todo is tagged with her category Home. *)

Module Sample.
Local Open Scope Z_scope.

Definition alice : uuid := "user-alice".
Definition bob : uuid := "user-bob".

Definition milk : Todo.t :=
  Todo.mk "todo-milk" alice "Buy milk" None false 2 (Some 1700000000000) 100 100.
Definition taxes : Todo.t :=
  Todo.mk "todo-taxes" alice "File taxes" (Some "before April") true 3 None 200 250.
Definition report : Todo.t :=
  Todo.mk "todo-report" bob "Write report" None false 4 None 300 300.

Definition home : Category.t := Category.mk "cat-home" alice "Home" "#3B82F6" 10.
Definition errands : Category.t :=
  Category.mk "cat-errands" alice "Errands" "#10B981" 20.
Definition work : Category.t := Category.mk "cat-work" bob "Work" "#fff" 30.

Definition db : Db :=
  mkDb [User.mk alice "alice@example.org" (Some "Alice") 1;
        User.mk bob "bob@example.org" None 2]
       [milk; taxes; report]
       [home; errands; work]
       [TodoCategory.mk "todo-milk" "cat-home" 400;
        TodoCategory.mk "todo-report" "cat-work" 500].

Definition env : Env := mkEnv 1600000000000 "todo-new".
End Sample.

(** The two format checks and the date parser, on the one text the
    scenarios below use: midnight of 1 January 2020, UTC. *)
Definition sample_datetime (s : string) : bool := s =? "2020-01-01T00:00:00Z".

Definition sample_uuid (s : string) : bool := String.prefix "cat-" s.

Definition sample_Date_parse (s : string) : option timestamp :=
  if s =? "2020-01-01T00:00:00Z" then Some 1577836800000%Z else None.

(** ** Vocabulary of the properties *)

(** The constraints of the schema, as propositions. *)
Record Integrity (db : Db) : Prop := mkIntegrity
  { user_pk : NoDup (map User.id (users db));
    user_email_unique : NoDup (map User.email (users db));
    todo_pk : NoDup (map Todo.id (todos db));
    todo_rows : forall t, In t (todos db) -> todo_row_ok db t = true;
    category_pk : NoDup (map Category.id (categories db));
    category_rows : forall c, In c (categories db) -> category_row_ok db c = true;
    todo_category_pk : NoDup (map TodoCategory.pk (todoCategories db));
    todo_category_rows :
      forall r, In r (todoCategories db) -> todo_category_row_ok db r = true }.

Ltac run :=
  cbv beta iota zeta delta
    [rethrow_as try_catch bind query ret throw statement].




(** The [filters] object without its [categoryId] key. *)
Definition without_category (f : TodoFilters.t) : TodoFilters.t :=
  TodoFilters.mk (TodoFilters.isCompleted f) (TodoFilters.priority f) None
                 (TodoFilters.search f).

(** The rows the first query of [getUserTodos] returns. *)
Definition selected (userId : uuid) (filters : option TodoFilters.t)
    (sort : option TodoSort.t) (db : Db) : list Todo.t :=
  orderBy
    match sort with Some s => TodoSort.field s | None => SortField.created_at end
    match sort with Some s => TodoSort.direction s | None => SortDirection.desc end
    (filter (fun t => forallb (fun c => c t) (conditions userId filters))
            (todos db)).

(** The tables [deleteCategory] leaves. *)
Definition without_category_rows (categoryId userId : uuid) (db : Db) : Db :=
  mkDb (users db) (todos db)
       (filter (fun c => negb (owned_category categoryId userId c)) (categories db))
       (filter (fun tc =>
                  negb (mem (TodoCategory.category_id tc)
                            (map Category.id
                                 (filter (owned_category categoryId userId)
                                         (categories db)))))
               (todoCategories db)).

(** The tables after the [delete] statement of [replaceTodoCategories]. *)
Definition cleared (todoId : uuid) (db : Db) : Db :=
  with_todoCategories db
    (filter (fun tc => negb (TodoCategory.todo_id tc =? todoId))
            (todoCategories db)).

(** The association rows of one todo. *)
Definition rows_of (todoId : uuid) (db : Db) : list TodoCategory.t :=
  filter (fun tc => TodoCategory.todo_id tc =? todoId) (todoCategories db).

(** The ids of the categories of a user, as [addCategoriesToTodo]
    collects them. *)
Definition category_ids_of (userId : uuid) (db : Db) : list uuid :=
  map Category.id
    (sort_by (fun a b => String.leb (Category.name a) (Category.name b))
       (filter (fun c => Category.user_id c =? userId) (categories db))).

Ltac step := cbv beta iota zeta delta [rethrow_as try_catch bind ret throw query].

(** The tables after [addCategoriesToTodo] has inserted its values. *)
Definition added (env : Env) (todoId : uuid) (categoryIds : list uuid)
    (db : Db) : Db :=
  with_todoCategories db
    (insert_todoCategories env (map (fun c => (todoId, c)) categoryIds)
                           (todoCategories db)).

(** The tables after a successful [replaceTodoCategories]. *)
Definition replaced (env : Env) (todoId : uuid) (categoryIds : list uuid)
    (db : Db) : Db :=
  added env todoId categoryIds (cleared todoId db).

(** The reading of the specification under which category verification
    comes before the removal: when a supplied id is not a category of
    the user, the call fails and the association rows of the todo are
    the ones there were.  (The text of the failure is left open.) *)
Definition verifies_before_removing : Prop :=
  forall (env : Env) (db : Db) (t : Todo.t) (categoryIds : list uuid) (bad : uuid),
    integrity db = true ->
    In t (todos db) ->
    In bad categoryIds ->
    ~ In bad (category_ids_of (Todo.user_id t) db) ->
    exists e db',
      replaceTodoCategories env (Todo.id t) categoryIds (Todo.user_id t) db
      = (Throw e, db')
      /\ rows_of (Todo.id t) db' = rows_of (Todo.id t) db.

(** The issue raised by the refinement of [updateTodoSchema]. *)
Definition at_least_one_field : ZodIssue :=
  mkIssue [] (Custom "At least one field must be provided for update").

(** The reading of the specification under which an update without a
    recognized field is refused by validation before the query layer is
    called at all: the answer of [PATCH] is then the validation failure
    whatever the tables hold. *)
Definition validation_precedes_queries : Prop :=
  forall (zod_datetime zod_uuid : string -> bool)
         (Date_parse : string -> option timestamp)
         (env : Env) (userId id : uuid) (input : list (string * json)) (db : Db),
    recognized input = [] ->
    PATCH zod_datetime zod_uuid Date_parse env (Some userId) id
          (Parsed (JObject input)) db
    = (Ok (handleValidationError [at_least_one_field]), db).

(** The reading of the specification under which the rule on past due
    dates looks at the completion state the update results in: an
    incomplete todo can be completed and given a past due date in one
    [PATCH]. *)
Definition completing_allows_past_due_date : Prop :=
  forall (zod_datetime zod_uuid : string -> bool)
         (Date_parse : string -> option timestamp)
         (env : Env) (db : Db) (t : Todo.t) (body : json)
         (v : UpdateTodoInput.t) (d : string) (ts : timestamp),
    integrity db = true ->
    In t (todos db) ->
    Todo.is_completed t = false ->
    updateTodoSchema zod_datetime zod_uuid body = inl v ->
    UpdateTodoInput.isCompleted v = Some true ->
    UpdateTodoInput.dueDate v = Some (Some d) ->
    Date_parse d = Some ts ->
    (ts < now env)%Z ->
    exists todo db',
      PATCH zod_datetime zod_uuid Date_parse env (Some (Todo.user_id t))
            (Todo.id t) (Parsed body) db
      = (Ok (successResponse (TodoBody todo) 200), db').

(** The message matches none of the patterns [handleError] looks for. *)
Definition unclassified (msg : string) : bool :=
  negb (includes msg "not found")
  && negb (includes msg "unauthorized" || includes msg "No user found")
  && negb (includes msg "forbidden").

(** The reading of the specification under which the 500 answer to an
    [Error] that matches no pattern carries a generic text: one text,
    whatever the message of the [Error]. *)
Definition unclassified_failures_are_generic : Prop :=
  exists generic : string,
    forall msg, unclassified msg = true ->
      handleError (JsError msg) = errorResponse generic 500 None.

(** The calls of the query layer: every function [queries.ts] exports. *)
Inductive query_layer : forall {A : Type}, M A -> Prop :=
| call_getUserTodos u f s : query_layer (getUserTodos u f s)
| call_getTodoById i u : query_layer (getTodoById i u)
| call_getTodoWithCategories i u : query_layer (getTodoWithCategories i u)
| call_createTodo env d : query_layer (createTodo env d)
| call_updateTodo env i u d : query_layer (updateTodo env i u d)
| call_toggleTodoCompletion env i u : query_layer (toggleTodoCompletion env i u)
| call_deleteTodo i u : query_layer (deleteTodo i u)
| call_bulkUpdateTodos env l u d : query_layer (bulkUpdateTodos env l u d)
| call_getTodoStats env u : query_layer (getTodoStats env u)
| call_getUserCategories u : query_layer (getUserCategories u)
| call_getCategoryById i u : query_layer (getCategoryById i u)
| call_createCategory env d : query_layer (createCategory env d)
| call_updateCategory i u d : query_layer (updateCategory i u d)
| call_deleteCategory i u : query_layer (deleteCategory i u)
| call_getCategoriesWithCounts u : query_layer (getCategoriesWithCounts u)
| call_addCategoriesToTodo env i l u : query_layer (addCategoriesToTodo env i l u)
| call_removeCategoriesFromTodo i l u : query_layer (removeCategoriesFromTodo i l u)
| call_replaceTodoCategories env i l u : query_layer (replaceTodoCategories env i l u)
| call_getTodoCategories i u : query_layer (getTodoCategories i u).

(** The messages of the errors the query layer throws. *)
Definition query_layer_messages : list string :=
  ["Failed to fetch todos"; "Failed to fetch todo";
   "Failed to fetch todo with categories"; "Failed to create todo";
   "Failed to update todo"; "Failed to toggle todo completion";
   "Failed to delete todo"; "Failed to bulk update todos";
   "Failed to fetch todo statistics"; "Failed to fetch categories";
   "Failed to fetch category"; "Failed to create category";
   "Failed to update category"; "Failed to delete category";
   "Failed to fetch categories with counts";
   "Failed to add categories to todo"; "Failed to remove categories from todo";
   "Failed to replace todo categories"; "Failed to fetch todo categories"].

Section HandlerVocabulary.

Variable Date_parse : string -> option timestamp.

(** The check of [POST] on the due date, as a proposition: a due date
    is supplied and is an instant strictly before now. *)
Definition past_due (v : CreateTodoInput.t) (now : timestamp) : Prop :=
  exists d ts,
    CreateTodoInput.dueDate v = Some d /\ d <> ""
    /\ Date_parse d = Some ts /\ (ts < now)%Z.

(** The row [POST] asks [createTodo] to insert. *)
Definition new_todo (userId : uuid) (v : CreateTodoInput.t) : NewTodo.t :=
  NewTodo.mk None userId
    (CreateTodoInput.title v)
    (match CreateTodoInput.description v with
     | Some d => if truthy d then Some d else None
     | None => None
     end)
    (Some false)
    (Some (match CreateTodoInput.priority v with
           | Some p => if (p =? 0)%Z then 2%Z else p
           | None => 2%Z
           end))
    (match CreateTodoInput.dueDate v with
     | Some d => if truthy d then Some (due_input Date_parse d) else None
     | None => None
     end)
    None None.

(** What [POST] does once the body has passed the schema and the check
    on the due date. *)
Definition POST_create (env : Env) (userId : uuid) (v : CreateTodoInput.t)
    : M Response :=
  try_catch
    (newTodo <- createTodo env (new_todo userId v) ;;
     match CreateTodoInput.categoryIds v with
     | Some categoryIds =>
         if (0 <? length categoryIds)%nat then
           replaceTodoCategories env (Todo.id newTodo) categoryIds userId
         else ret tt
     | None => ret tt
     end ;;
     todoWithCategories <- getTodoWithCategories (Todo.id newTodo) userId ;;
     ret (successResponse (TodoBody (or_updated todoWithCategories newTodo)) 201))
    (fun error => ret (handleError error)).

End HandlerVocabulary.

(** ** Vocabulary of the further properties *)

(** The order [orderBy] asks for, as a relation on rows. *)
Definition in_order (f : SortField.t) (d : SortDirection.t) (a b : Todo.t) : Prop :=
  match d with
  | SortDirection.asc => le_asc f a b = true
  | SortDirection.desc => le_asc f b a = true
  end.

(** The row passes the filters of [getUserTodos] that are set, the
    category filter apart. *)
Definition passes (userId : uuid) (filters : option TodoFilters.t) (t : Todo.t)
    : Prop :=
  Todo.user_id t = userId
  /\ (forall b, option_bind filters TodoFilters.isCompleted = Some b ->
        Todo.is_completed t = b)
  /\ (forall p, option_bind filters TodoFilters.priority = Some p ->
        Todo.priority t = p)
  /\ (forall s, option_bind filters TodoFilters.search = Some s -> s <> "" ->
        like ("%" ++ s ++ "%") (Todo.title t) = true
        \/ exists d, Todo.description t = Some d
                     /\ like ("%" ++ s ++ "%") d = true).

(** The [updateData] object of [updateTodo]: [data] with [updated_at]
    set to the current time. *)
Definition updateData_of (env : Env) (data : TodoUpdate.t) : TodoUpdate.t :=
  TodoUpdate.mk (TodoUpdate.id data) (TodoUpdate.title data)
    (TodoUpdate.description data) (TodoUpdate.is_completed data)
    (TodoUpdate.priority data) (TodoUpdate.due_date data)
    (Some (now env)).

(** The title of the update, if it has one, fits the [varchar(200)]
    column. *)
Definition title_fits (data : TodoUpdate.t) : Prop :=
  forall s, TodoUpdate.title data = Some s -> (String.length s <= 200)%nat.

(** The categories joined to the association rows of a todo: the query
    of [getTodoWithCategories] and [getTodoCategories]. *)
Definition categories_of_todo (todoId : uuid) (db : Db) : list Category.t :=
  flat_map
    (fun tc =>
       filter (fun c => TodoCategory.category_id tc =? Category.id c)
              (categories db))
    (filter (fun tc => TodoCategory.todo_id tc =? todoId) (todoCategories db)).

(** What the schemas accept for a field, from the value [x] the parsed
    object has under the key ([None] when it has none) to the value [o]
    of the output. *)
Definition accepted_text (x : option json) (o : option string) : Prop :=
  x = option_map JString o.

Definition accepted_priority (x : option json) (o : option Z) : Prop :=
  match o with
  | Some n =>
      exists s, x = Some (JString s) /\ In s ["1"; "2"; "3"; "4"]
                /\ n = parseInt s /\ (1 <= n <= 4)%Z
  | None => x = None
  end.

Definition accepted_datetime (zod_datetime : string -> bool) (x : option json)
    (o : option string) : Prop :=
  match o with
  | Some d => x = Some (JString d) /\ zod_datetime d = true
  | None => x = None
  end.

Definition accepted_ids (zod_uuid : string -> bool) (x : option json)
    (o : option (list string)) : Prop :=
  match o with
  | Some ids =>
      x = Some (JArray (map JString ids))
      /\ Forall (fun id => zod_uuid id = true) ids
  | None => x = None
  end.

Definition accepted_title (x : option json) (t : string) : Prop :=
  x = Some (JString t) /\ (1 <= String.length t <= 200)%nat.


Definition accepted_optional_title (x : option json) (o : option string) : Prop :=
  match o with
  | Some t => accepted_title x t
  | None => x = None
  end.

(** [dueDate] of an update: absent, [null], or a datetime text. *)
Definition accepted_due_update (zod_datetime : string -> bool) (x : option json)
    (o : option (option string)) : Prop :=
  match o with
  | None => x = None
  | Some None => x = Some JNull
  | Some (Some d) => x = Some (JString d) /\ zod_datetime d = true
  end.

Definition accepted_flag (x : option json) (o : option bool) : Prop :=
  x = option_map JBool o.




Definition accepted_name (x : option json) (n : string) : Prop :=
  x = Some (JString n) /\ (1 <= String.length n <= 50)%nat.

(** The colour is the default when the key is absent, the text of the
    key otherwise; either way a [#] and three or six hexadecimal
    digits. *)
Definition accepted_color (x : option json) (c : string) : Prop :=
  (x = None /\ c = "#3B82F6" \/ x = Some (JString c))
  /\ hexColorRegex c = true
  /\ (String.length c = 4 \/ String.length c = 7)%nat.






(** The text has [needle] somewhere in it. *)
Definition contains (text needle : string) : Prop :=
  exists pre post, text = (pre ++ needle ++ post)%string.


(** The tables without the todo of that id and its association rows,
    and without the category of that id and its association rows. *)
Definition todo_deleted (todoId : uuid) (db : Db) : Db :=
  mkDb (users db)
       (filter (fun x => negb (Todo.id x =? todoId)) (todos db))
       (categories db)
       (filter (fun r => negb (TodoCategory.todo_id r =? todoId))
               (todoCategories db)).

Definition category_deleted (categoryId : uuid) (db : Db) : Db :=
  mkDb (users db)
       (todos db)
       (filter (fun x => negb (Category.id x =? categoryId)) (categories db))
       (filter (fun r => negb (TodoCategory.category_id r =? categoryId))
               (todoCategories db)).


(** The row [PATCH /api/todos/[id]] leaves in place of [t] for a body
    that passed the schema with no due date text: the fields the body
    has replace the old ones, a [dueDate] of [null] clears the due
    date, and [updated_at] is the current time. *)
Definition patched (env : Env) (v : UpdateTodoInput.t) (t : Todo.t) : Todo.t :=
  Todo.mk (Todo.id t)
          (Todo.user_id t)
          (or_default (UpdateTodoInput.title v) (Todo.title t))
          (match UpdateTodoInput.description v with
           | Some d => Some d
           | None => Todo.description t
           end)
          (or_default (UpdateTodoInput.isCompleted v) (Todo.is_completed t))
          (or_default (UpdateTodoInput.priority v) (Todo.priority t))
          (match UpdateTodoInput.dueDate v with
           | Some None => None
           | _ => Todo.due_date t
           end)
          (Todo.created_at t)
          (now env).

(** The tables with [t'] in place of the todo of that id. *)
Definition todo_replaced (t' : Todo.t) (db : Db) : Db :=
  with_todos db
    (map (fun x => if Todo.id x =? Todo.id t' then t' else x) (todos db)).


(** The association rows of a category with a todo of the user. *)
Definition tags_of (userId categoryId : uuid) (db : Db) : list TodoCategory.t :=
  filter (fun tc =>
            (TodoCategory.category_id tc =? categoryId)
            && mem (TodoCategory.todo_id tc)
                   (map Todo.id
                        (filter (fun t => Todo.user_id t =? userId) (todos db))))
         (todoCategories db).

(** * Properties *)

(** ** The tables and their constraints *)

Lemma db_eta (db : Db) :
  mkDb (users db) (todos db) (categories db) (todoCategories db) = db.
Proof. destruct db; reflexivity. Qed.

Lemma mem_In (x : string) (l : list string) : mem x l = true <-> In x l.
Proof.
  unfold mem. rewrite existsb_exists. split.
  - intros [y [Hy Heq]]. apply String.eqb_eq in Heq. now subst.
  - intros H. exists x. split; [assumption | apply String.eqb_refl].
Qed.

Lemma mem_false (x : string) (l : list string) : mem x l = false <-> ~ In x l.
Proof.
  rewrite <- mem_In. destruct (mem x l); split; intros; congruence.
Qed.

Lemma pk_eqb_eq (a b : uuid * uuid) : pk_eqb a b = true <-> a = b.
Proof.
  destruct a as [a1 a2], b as [b1 b2]. unfold pk_eqb. simpl.
  rewrite andb_true_iff, !String.eqb_eq. split.
  - intros [-> ->]. reflexivity.
  - intros H. inversion H. split; reflexivity.
Qed.

Section Unique.
Context {A : Type} (eqb : A -> A -> bool).
Hypothesis eqb_eq : forall a b, eqb a b = true <-> a = b.

Lemma existsb_eqb_In (x : A) (l : list A) :
  existsb (eqb x) l = true <-> In x l.
Proof.
  rewrite existsb_exists. split.
  - intros [y [Hy Heq]]. apply eqb_eq in Heq. now subst.
  - intros H. exists x. split; [assumption | now apply eqb_eq].
Qed.

Lemma existsb_eqb_false (x : A) (l : list A) :
  existsb (eqb x) l = false <-> ~ In x l.
Proof.
  rewrite <- existsb_eqb_In.
  destruct (existsb (eqb x) l); split; intros; congruence.
Qed.

Lemma uniqueb_NoDup (l : list A) : uniqueb eqb l = true <-> NoDup l.
Proof.
  induction l as [|x r IH]; simpl.
  - split; [constructor | reflexivity].
  - rewrite andb_true_iff, negb_true_iff, existsb_eqb_false, IH. split.
    + intros [Hx Hr]. now constructor.
    + intros H. inversion H. now split.
Qed.
End Unique.

Lemma integrity_spec (db : Db) : integrity db = true <-> Integrity db.
Proof.
  unfold integrity. rewrite !andb_true_iff.
  rewrite !(uniqueb_NoDup String.eqb String.eqb_eq).
  rewrite (uniqueb_NoDup pk_eqb pk_eqb_eq).
  rewrite !forallb_forall. split.
  - intros [[[[[[[H1 H2] H3] H4] H5] H6] H7] H8]. now constructor.
  - intros [H1 H2 H3 H4 H5 H6 H7 H8]. repeat split; assumption.
Qed.

(** ** Running the query layer *)

Lemma filter_none {A} (f : A -> bool) (l : list A) :
  (forall x, In x l -> f x = false) -> filter f l = [].
Proof.
  induction l as [|x r IH]; simpl; intros H; [reflexivity|].
  rewrite (H x (or_introl eq_refl)). apply IH. intros y Hy. apply H. now right.
Qed.

Lemma filter_all {A} (f : A -> bool) (l : list A) :
  (forall x, In x l -> f x = true) -> filter f l = l.
Proof.
  induction l as [|x r IH]; simpl; intros H; [reflexivity|].
  rewrite (H x (or_introl eq_refl)). f_equal. apply IH. intros y Hy. apply H. now right.
Qed.


(** What the six operations do when no row matches both the id and the
    user. *)
Section NoMatch.
Variable env : Env.
Variable db : Db.
Hypothesis consistent : integrity db = true.

Lemma getTodoById_miss todoId userId :
  (forall t, In t (todos db) -> owned_todo todoId userId t = false) ->
  getTodoById todoId userId db = (Ok None, db).
Proof. intros H. unfold getTodoById. run. now rewrite (filter_none _ _ H). Qed.


Lemma deleteTodo_miss todoId userId :
  (forall t, In t (todos db) -> owned_todo todoId userId t = false) ->
  deleteTodo todoId userId db = (Ok false, db).
Proof.
  intros H. unfold deleteTodo. run. rewrite (filter_none _ _ H). simpl.
  rewrite !filter_all.
  - rewrite db_eta, consistent. reflexivity.
  - reflexivity.
  - intros t Ht. now rewrite (H t Ht).
Qed.

Lemma getCategoryById_miss categoryId userId :
  (forall c, In c (categories db) -> owned_category categoryId userId c = false) ->
  getCategoryById categoryId userId db = (Ok None, db).
Proof. intros H. unfold getCategoryById. run. now rewrite (filter_none _ _ H). Qed.


End NoMatch.

Lemma NoDup_map_inj {A B} (f : A -> B) (l : list A) (x y : A) :
  NoDup (map f l) -> In x l -> In y l -> f x = f y -> x = y.
Proof.
  induction l as [|a r IH]; simpl; intros Hnd Hx Hy Heq; [contradiction|].
  inversion Hnd as [|? ? Hnotin Hnd']; subst.
  destruct Hx as [->|Hx], Hy as [->|Hy].
  - reflexivity.
  - exfalso. apply Hnotin. rewrite Heq. now apply in_map.
  - exfalso. apply Hnotin. rewrite <- Heq. now apply in_map.
  - now apply IH.
Qed.

Lemma foreign_todo_not_owned (db : Db) (A : uuid) (t : Todo.t) :
  integrity db = true -> In t (todos db) -> Todo.user_id t <> A ->
  forall t', In t' (todos db) -> owned_todo (Todo.id t) A t' = false.
Proof.
  intros Hi Ht Hne t' Ht'. apply integrity_spec in Hi.
  unfold owned_todo. apply andb_false_iff.
  destruct (String.eqb_spec (Todo.id t') (Todo.id t)) as [Heq|]; [right | now left].
  apply (NoDup_map_inj Todo.id _ _ _ (todo_pk db Hi) Ht' Ht) in Heq. subst t'.
  now apply String.eqb_neq.
Qed.










(** Whatever the id, the six operations return and touch only rows of
    the requesting user. *)
Section Frame.
Variable env : Env.
Variable A : uuid.
Variable db : Db.







End Frame.

(** ** Ownership isolation *)



(** ** Listing todos *)



Lemma insert_by_In {A} (le : A -> A -> bool) (x y : A) (l : list A) :
  In y (insert_by le x l) <-> y = x \/ In y l.
Proof.
  induction l as [|z r IH]; simpl.
  - intuition congruence.
  - destruct (le x z); simpl; [intuition congruence|].
    rewrite IH. intuition congruence.
Qed.

Lemma sort_by_In {A} (le : A -> A -> bool) (y : A) (l : list A) :
  In y (sort_by le l) <-> In y l.
Proof.
  induction l as [|x r IH]; simpl; [reflexivity|].
  rewrite insert_by_In, IH. intuition congruence.
Qed.

Lemma orderBy_In f d (y : Todo.t) (rows : list Todo.t) :
  In y (orderBy f d rows) <-> In y rows.
Proof. destruct d; apply sort_by_In. Qed.

Lemma conditions_without_category userId f :
  conditions userId (Some (without_category f)) = conditions userId (Some f).
Proof. reflexivity. Qed.





(** ** Statements that keep the constraints *)

(** Unique keys stay unique when rows are removed. *)
Lemma NoDup_map_filter {Row Key : Type} (keep : Row -> bool) (key : Row -> Key)
    (rows : list Row) :
  NoDup (map key rows) -> NoDup (map key (filter keep rows)).
Proof.
  intros Hrows. induction rows as [|x r IH]; simpl in *; [constructor|].
  inversion Hrows as [|? ? Hnotin Hnd]; subst.
  destruct (keep x); simpl; [|now apply IH].
  constructor; [|now apply IH].
  intros Hin. apply Hnotin. apply in_map_iff in Hin.
  destruct Hin as [y [Hy Hin]]. apply filter_In in Hin.
  rewrite <- Hy. apply in_map. tauto.
Qed.

(** Removing association rows breaks no constraint. *)
Lemma integrity_filter_todoCategories (db : Db) (p : TodoCategory.t -> bool) :
  integrity db = true ->
  integrity (with_todoCategories db (filter p (todoCategories db))) = true.
Proof.
  rewrite !integrity_spec. intros [H1 H2 H3 H4 H5 H6 H7 H8].
  constructor; simpl; try assumption.
  - now apply NoDup_map_filter.
  - intros r Hr. apply filter_In in Hr. now apply H8.
Qed.

Lemma integrity_without_category_rows (db : Db) (categoryId userId : uuid) :
  integrity db = true ->
  integrity (without_category_rows categoryId userId db) = true.
Proof.
  rewrite !integrity_spec. intros [H1 H2 H3 H4 H5 H6 H7 H8].
  constructor; simpl; try assumption.
  - now apply NoDup_map_filter.
  - intros c Hc. apply filter_In in Hc. now apply H6.
  - now apply NoDup_map_filter.
  - intros r Hr. apply filter_In in Hr. destruct Hr as [Hr Hkeep].
    specialize (H8 r Hr). unfold todo_category_row_ok in *. simpl.
    apply andb_true_iff in H8. destruct H8 as [Ht Hc].
    rewrite Ht. simpl. apply mem_In. apply mem_In in Hc.
    apply in_map_iff in Hc. destruct Hc as [c [Hid Hc]].
    rewrite <- Hid. apply in_map. apply filter_In. split; [assumption|].
    apply negb_true_iff in Hkeep. apply mem_false in Hkeep.
    destruct (owned_category categoryId userId c) eqn:Hown; [|reflexivity].
    exfalso. apply Hkeep. rewrite <- Hid. apply in_map. apply filter_In. tauto.
Qed.

Lemma owned_category_iff (db : Db) (c c' : Category.t) :
  integrity db = true -> In c (categories db) -> In c' (categories db) ->
  owned_category (Category.id c) (Category.user_id c) c'
  = (Category.id c' =? Category.id c).
Proof.
  intros Hi Hc Hc'. apply integrity_spec in Hi. unfold owned_category.
  destruct (String.eqb_spec (Category.id c') (Category.id c)) as [Heq|]; [|reflexivity].
  apply (NoDup_map_inj Category.id _ _ _ (category_pk db Hi) Hc' Hc) in Heq.
  subst c'. simpl. apply String.eqb_refl.
Qed.

(** ** Deleting a category *)

(** C7. Deleting a category owned by the user, in a database that
    satisfies its constraints: [deleteCategory] returns [true]; the
    category row is gone and the other categories stay; every
    association row that references the category is gone and the others
    stay; the users and the todos tables are exactly what they were, so
    every todo that was tagged with the category is still there with
    all its fields. *)
Theorem deleteCategory_cascade (db : Db) (c : Category.t) :
  integrity db = true ->
  In c (categories db) ->
  exists db',
    deleteCategory (Category.id c) (Category.user_id c) db = (Ok true, db')
    /\ users db' = users db
    /\ todos db' = todos db
    /\ categories db'
       = filter (fun c' => negb (Category.id c' =? Category.id c)) (categories db)
    /\ ~ In (Category.id c) (map Category.id (categories db'))
    /\ todoCategories db'
       = filter (fun r => negb (TodoCategory.category_id r =? Category.id c))
                (todoCategories db)
    /\ (forall r, In r (todoCategories db') ->
          TodoCategory.category_id r <> Category.id c)
    /\ (forall r, In r (todoCategories db) ->
          TodoCategory.category_id r = Category.id c ->
          exists t, In t (todos db') /\ Todo.id t = TodoCategory.todo_id r)
    /\ integrity db' = true.
Proof.
  intros Hi Hc.
  set (cid := Category.id c). set (uid := Category.user_id c).
  assert (Hcats :
    filter (fun c' => negb (owned_category cid uid c')) (categories db)
    = filter (fun c' => negb (Category.id c' =? cid)) (categories db)).
  { apply filter_ext_in. intros c' Hc'. f_equal.
    now apply (owned_category_iff db c c'). }
  assert (Hhit : forall x,
    mem x (map Category.id (filter (owned_category cid uid) (categories db)))
    = (x =? cid)).
  { intros x. destruct (String.eqb_spec x cid) as [->|Hne].
    - apply mem_In. apply in_map. apply filter_In. split; [assumption|].
      unfold owned_category, cid, uid. now rewrite !String.eqb_refl.
    - apply mem_false. intros Hin. apply in_map_iff in Hin.
      destruct Hin as [c' [Hid Hin]]. apply filter_In in Hin.
      destruct Hin as [_ Hown]. unfold owned_category in Hown.
      apply andb_true_iff in Hown. destruct Hown as [Hown _].
      apply String.eqb_eq in Hown. congruence. }
  assert (Hrows :
    filter (fun tc =>
              negb (mem (TodoCategory.category_id tc)
                        (map Category.id
                             (filter (owned_category cid uid) (categories db)))))
           (todoCategories db)
    = filter (fun r => negb (TodoCategory.category_id r =? cid)) (todoCategories db)).
  { apply filter_ext. intros r. now rewrite Hhit. }
  exists (without_category_rows cid uid db).
  split; [|split; [|split; [|split; [|split; [|split; [|split; [|split]]]]]]].
  - unfold deleteCategory. run. fold (without_category_rows cid uid db).
    rewrite (integrity_without_category_rows db cid uid Hi).
    destruct (filter (owned_category cid uid) (categories db)) as [|x r] eqn:Hf.
    + exfalso. assert (Hin : In c (filter (owned_category cid uid) (categories db))).
      { apply filter_In. split; [assumption|].
        unfold owned_category, cid, uid. now rewrite !String.eqb_refl. }
      rewrite Hf in Hin. contradiction.
    + reflexivity.
  - reflexivity.
  - reflexivity.
  - exact Hcats.
  - simpl. rewrite Hcats. intros Hin. apply in_map_iff in Hin.
    destruct Hin as [c' [Hid Hin]]. apply filter_In in Hin.
    destruct Hin as [_ Hne]. fold cid in Hid. rewrite Hid, String.eqb_refl in Hne.
    discriminate.
  - exact Hrows.
  - simpl. rewrite Hrows. intros r Hr Heq. apply filter_In in Hr.
    destruct Hr as [_ Hne]. fold cid in Heq. rewrite Heq, String.eqb_refl in Hne.
    discriminate.
  - intros r Hr _. simpl. apply integrity_spec in Hi.
    pose proof (todo_category_rows db Hi r Hr) as Hok.
    unfold todo_category_row_ok in Hok. apply andb_true_iff in Hok.
    destruct Hok as [Ht _]. apply mem_In in Ht. apply in_map_iff in Ht.
    destruct Ht as [t [Hid Ht]]. now exists t.
  - now apply integrity_without_category_rows.
Qed.

Lemma deleteCategory_cascade_witness :
  exists db',
    deleteCategory "cat-home" Sample.alice Sample.db = (Ok true, db')
    /\ todos db' = todos Sample.db
    /\ map Category.id (categories db') = ["cat-errands"; "cat-work"]
    /\ map TodoCategory.pk (todoCategories db') = [("todo-report", "cat-work")].
Proof.
  destruct (deleteCategory_cascade Sample.db Sample.home eq_refl)
    as [db' [Hrun [_ [Htodos [Hcats [_ [Hrows _]]]]]]].
  - simpl. tauto.
  - exists db'. split; [exact Hrun|]. split; [exact Htodos|].
    rewrite Hcats, Hrows. split; reflexivity.
Defined.

(** ** Replacing the categories of a todo *)

Lemma filter_singleton {A} (p : A -> bool) (l : list A) (c : A) :
  NoDup l -> In c l -> p c = true ->
  (forall x, In x l -> p x = true -> x = c) ->
  filter p l = [c].
Proof.
  induction l as [|a r IH]; simpl; intros Hnd Hc Hpc Huniq; [contradiction|].
  inversion Hnd as [|? ? Hnotin Hnd']; subst.
  destruct (p a) eqn:Hpa.
  - assert (a = c) by (apply Huniq; auto). subst a. f_equal.
    apply filter_none. intros x Hx.
    destruct (p x) eqn:Hpx; [|reflexivity].
    exfalso. apply Hnotin. rewrite <- (Huniq x (or_intror Hx) Hpx). exact Hx.
  - destruct Hc as [->|Hc]; [congruence|].
    apply IH; auto.
Qed.

Lemma filter_owned_todo (db : Db) (t : Todo.t) :
  integrity db = true -> In t (todos db) ->
  filter (owned_todo (Todo.id t) (Todo.user_id t)) (todos db) = [t].
Proof.
  intros Hi Ht. apply integrity_spec in Hi.
  apply filter_singleton.
  - apply (NoDup_map_inv Todo.id), (todo_pk db Hi).
  - assumption.
  - unfold owned_todo. now rewrite !String.eqb_refl.
  - intros x Hx Hown. unfold owned_todo in Hown.
    apply andb_true_iff in Hown. destruct Hown as [Hid _].
    apply String.eqb_eq in Hid.
    now apply (NoDup_map_inj Todo.id _ _ _ (todo_pk db Hi) Hx Ht).
Qed.

Lemma getTodoById_hit (db : Db) (t : Todo.t) :
  integrity db = true -> In t (todos db) ->
  getTodoById (Todo.id t) (Todo.user_id t) db = (Ok (Some t), db).
Proof.
  intros Hi Ht. unfold getTodoById. run.
  now rewrite (filter_owned_todo db t Hi Ht).
Qed.

Lemma integrity_cleared (todoId : uuid) (db : Db) :
  integrity db = true -> integrity (cleared todoId db) = true.
Proof. apply integrity_filter_todoCategories. Qed.

Lemma rows_of_cleared (todoId : uuid) (db : Db) :
  rows_of todoId (cleared todoId db) = [].
Proof.
  unfold rows_of, cleared. simpl. apply filter_none.
  intros r Hr. apply filter_In in Hr. destruct Hr as [_ Hr].
  now apply negb_true_iff in Hr.
Qed.

Lemma filter_filter_neg {A} (p : A -> bool) (l : list A) :
  filter (fun x => negb (p x)) (filter (fun x => negb (p x)) l)
  = filter (fun x => negb (p x)) l.
Proof.
  apply filter_all. intros x Hx. apply filter_In in Hx. tauto.
Qed.

Lemma category_ids_of_In (userId id : uuid) (db : Db) :
  In id (category_ids_of userId db)
  <-> exists c, In c (categories db) /\ Category.id c = id
                /\ Category.user_id c = userId.
Proof.
  unfold category_ids_of. rewrite in_map_iff. split.
  - intros [c [Hid Hc]]. apply sort_by_In in Hc. apply filter_In in Hc.
    destruct Hc as [Hc Hu]. apply String.eqb_eq in Hu. now exists c.
  - intros [c [Hc [Hid Hu]]]. exists c. split; [assumption|].
    apply sort_by_In. apply filter_In. split; [assumption|].
    now apply String.eqb_eq.
Qed.

(** The primary keys [insert_todoCategories] leaves: those that were
    there and those of the values. *)
Lemma insert_todoCategories_pk (env : Env) (values : list (uuid * uuid))
    (rows : list TodoCategory.t) (k : uuid * uuid) :
  In k (map TodoCategory.pk (insert_todoCategories env values rows))
  <-> In k (map TodoCategory.pk rows) \/ In k values.
Proof.
  revert rows. induction values as [|v vs IH]; intros rows; simpl.
  - tauto.
  - unfold insert_todoCategories in *. simpl.
    destruct (existsb (pk_eqb v) (map TodoCategory.pk rows)) eqn:He.
    + rewrite IH. apply (existsb_eqb_In pk_eqb pk_eqb_eq) in He.
      intuition congruence.
    + rewrite IH, map_app, in_app_iff. simpl.
      destruct v as [a b]. unfold TodoCategory.pk at 2. simpl.
      intuition congruence.
Qed.

Lemma NoDup_snoc {A} (l : list A) (x : A) :
  NoDup l -> ~ In x l -> NoDup (l ++ [x]).
Proof.
  induction l as [|a r IH]; simpl; intros Hnd Hx.
  - constructor; [tauto | constructor].
  - inversion Hnd as [|? ? Hnotin Hnd']; subst. constructor.
    + rewrite in_app_iff. simpl. intros [H|[H|[]]]; [tauto|]. subst. tauto.
    + apply IH; tauto.
Qed.

Lemma insert_todoCategories_NoDup (env : Env) (values : list (uuid * uuid))
    (rows : list TodoCategory.t) :
  NoDup (map TodoCategory.pk rows) ->
  NoDup (map TodoCategory.pk (insert_todoCategories env values rows)).
Proof.
  revert rows. induction values as [|v vs IH]; intros rows Hnd; simpl.
  - assumption.
  - unfold insert_todoCategories in *. simpl.
    destruct (existsb (pk_eqb v) (map TodoCategory.pk rows)) eqn:He.
    + now apply IH.
    + apply IH. rewrite map_app. simpl.
      apply (existsb_eqb_false pk_eqb pk_eqb_eq) in He.
      destruct v as [a b]. unfold TodoCategory.pk at 2. simpl.
      now apply NoDup_snoc.
Qed.

Lemma insert_todoCategories_In (env : Env) (values : list (uuid * uuid))
    (rows : list TodoCategory.t) (r : TodoCategory.t) :
  In r (insert_todoCategories env values rows) ->
  In r rows \/ In (TodoCategory.pk r) values.
Proof.
  revert rows. induction values as [|v vs IH]; intros rows; simpl.
  - tauto.
  - unfold insert_todoCategories in *. simpl.
    destruct (existsb (pk_eqb v) (map TodoCategory.pk rows)).
    + intros H. apply IH in H. tauto.
    + intros H. apply IH in H. rewrite in_app_iff in H. simpl in H.
      destruct H as [[H|[H|[]]]|H]; auto.
      right. left. subst r. now destruct v.
Qed.

(** Inserting associations between an existing todo and existing
    categories breaks no constraint. *)
Lemma integrity_insert_todoCategories (env : Env) (db : Db) (todoId : uuid)
    (categoryIds : list uuid) :
  integrity db = true ->
  In todoId (map Todo.id (todos db)) ->
  (forall id, In id categoryIds -> In id (map Category.id (categories db))) ->
  integrity
    (with_todoCategories db
       (insert_todoCategories env (map (fun c => (todoId, c)) categoryIds)
                              (todoCategories db))) = true.
Proof.
  rewrite !integrity_spec. intros [H1 H2 H3 H4 H5 H6 H7 H8] Ht Hc.
  constructor; simpl; try assumption.
  - now apply insert_todoCategories_NoDup.
  - intros r Hr. apply insert_todoCategories_In in Hr. destruct Hr as [Hr|Hr].
    + now apply H8.
    + apply in_map_iff in Hr. destruct Hr as [c [Hpk Hin]].
      unfold TodoCategory.pk in Hpk. injection Hpk as Htid Hcid.
      unfold todo_category_row_ok. simpl. apply andb_true_iff.
      split; apply mem_In; [rewrite <- Htid | rewrite <- Hcid]; auto.
Qed.

Lemma statement_accepts {A} (f : Db -> option (Db * A)) (db db' : Db) (r : A) :
  f db = Some (db', r) -> integrity db' = true ->
  statement f db = (Ok r, db').
Proof. intros Hf Hi. unfold statement. now rewrite Hf, Hi. Qed.

Lemma category_ids_of_known (userId id : uuid) (db : Db) :
  In id (category_ids_of userId db) -> In id (map Category.id (categories db)).
Proof.
  intros H. apply category_ids_of_In in H. destruct H as [c [Hc [Hid _]]].
  rewrite <- Hid. now apply in_map.
Qed.

Lemma addCategoriesToTodo_ok (env : Env) (db : Db) (t : Todo.t)
    (categoryIds : list uuid) :
  integrity db = true -> In t (todos db) ->
  (forall id, In id categoryIds -> In id (category_ids_of (Todo.user_id t) db)) ->
  addCategoriesToTodo env (Todo.id t) categoryIds (Todo.user_id t) db
  = (Ok tt, added env (Todo.id t) categoryIds db)
  /\ integrity (added env (Todo.id t) categoryIds db) = true.
Proof.
  intros Hi Ht Hall.
  assert (Hadded : integrity (added env (Todo.id t) categoryIds db) = true).
  { apply integrity_insert_todoCategories; [assumption | now apply in_map |].
    intros id Hid. eapply category_ids_of_known. now apply Hall. }
  split; [|exact Hadded].
  unfold addCategoriesToTodo. step. rewrite (getTodoById_hit db t Hi Ht).
  unfold getUserCategories. step.
  fold (category_ids_of (Todo.user_id t) db).
  rewrite filter_none.
  - change (0 <? Datatypes.length (@nil string))%nat with false. cbv beta iota.
    erewrite statement_accepts; [reflexivity | reflexivity | exact Hadded].
  - intros id Hid. apply negb_false_iff, mem_In. now apply Hall.
Qed.

Lemma addCategoriesToTodo_invalid (env : Env) (db : Db) (t : Todo.t)
    (categoryIds : list uuid) (bad : uuid) :
  integrity db = true -> In t (todos db) ->
  In bad categoryIds -> ~ In bad (category_ids_of (Todo.user_id t) db) ->
  addCategoriesToTodo env (Todo.id t) categoryIds (Todo.user_id t) db
  = (Throw (JsError "Failed to add categories to todo"), db).
Proof.
  intros Hi Ht Hbad Hnot.
  unfold addCategoriesToTodo. step. rewrite (getTodoById_hit db t Hi Ht).
  unfold getUserCategories. step.
  fold (category_ids_of (Todo.user_id t) db).
  destruct (filter (fun id => negb (mem id (category_ids_of (Todo.user_id t) db)))
                   categoryIds) as [|x r] eqn:Hf.
  - exfalso.
    assert (Hin : In bad (filter (fun id =>
                    negb (mem id (category_ids_of (Todo.user_id t) db)))
                    categoryIds)).
    { apply filter_In. split; [assumption|]. now apply negb_true_iff, mem_false. }
    rewrite Hf in Hin. contradiction.
  - reflexivity.
Qed.

Lemma category_ids_of_cleared (userId todoId : uuid) (db : Db) :
  category_ids_of userId (cleared todoId db) = category_ids_of userId db.
Proof. reflexivity. Qed.

Lemma added_nil (env : Env) (todoId : uuid) (db : Db) :
  added env todoId [] db = db.
Proof. unfold added, with_todoCategories. simpl. apply db_eta. Qed.

Lemma replaceTodoCategories_ok (env : Env) (db : Db) (t : Todo.t)
    (categoryIds : list uuid) :
  integrity db = true -> In t (todos db) ->
  (forall id, In id categoryIds -> In id (category_ids_of (Todo.user_id t) db)) ->
  replaceTodoCategories env (Todo.id t) categoryIds (Todo.user_id t) db
  = (Ok tt, replaced env (Todo.id t) categoryIds db)
  /\ integrity (replaced env (Todo.id t) categoryIds db) = true.
Proof.
  intros Hi Ht Hall.
  pose proof (integrity_cleared (Todo.id t) db Hi) as Hic.
  unfold replaceTodoCategories. step. rewrite (getTodoById_hit db t Hi Ht).
  erewrite statement_accepts; [| reflexivity | exact Hic].
  fold (cleared (Todo.id t) db). unfold replaced.
  destruct categoryIds as [|c cs].
  - simpl. rewrite added_nil. split; [reflexivity | exact Hic].
  - change (0 <? length (c :: cs))%nat with true. cbv beta iota.
    destruct (addCategoriesToTodo_ok env (cleared (Todo.id t) db) t (c :: cs))
      as [Hrun Hia]; try assumption.
    rewrite Hrun. split; [reflexivity | exact Hia].
Qed.

Lemma replaceTodoCategories_invalid (env : Env) (db : Db) (t : Todo.t)
    (categoryIds : list uuid) (bad : uuid) :
  integrity db = true -> In t (todos db) ->
  In bad categoryIds -> ~ In bad (category_ids_of (Todo.user_id t) db) ->
  replaceTodoCategories env (Todo.id t) categoryIds (Todo.user_id t) db
  = (Throw (JsError "Failed to replace todo categories"), cleared (Todo.id t) db).
Proof.
  intros Hi Ht Hbad Hnot.
  pose proof (integrity_cleared (Todo.id t) db Hi) as Hic.
  unfold replaceTodoCategories. step. rewrite (getTodoById_hit db t Hi Ht).
  erewrite statement_accepts; [| reflexivity | exact Hic].
  fold (cleared (Todo.id t) db).
  destruct categoryIds as [|c cs]; [contradiction|].
  change (0 <? length (c :: cs))%nat with true. cbv beta iota.
  rewrite (addCategoriesToTodo_invalid env (cleared (Todo.id t) db) t (c :: cs) bad);
    auto.
Qed.

(** C10. For a todo owned by the user, [replaceTodoCategories] with an
    empty list of category ids returns normally, whatever categories
    exist and whoever owns them; afterwards the todo has no association
    row, and the rows of the other todos are the ones there were. *)
Theorem replaceTodoCategories_empty (env : Env) (db : Db) (t : Todo.t) :
  integrity db = true ->
  In t (todos db) ->
  exists db',
    replaceTodoCategories env (Todo.id t) [] (Todo.user_id t) db = (Ok tt, db')
    /\ rows_of (Todo.id t) db' = []
    /\ (forall r, In r (todoCategories db') <->
                  In r (todoCategories db) /\ TodoCategory.todo_id r <> Todo.id t)
    /\ users db' = users db /\ todos db' = todos db
    /\ categories db' = categories db.
Proof.
  intros Hi Ht. exists (cleared (Todo.id t) db).
  split; [|split; [|split; [|repeat split]]].
  - destruct (replaceTodoCategories_ok env db t [] Hi Ht) as [Hrun _].
    + intros id [].
    + rewrite Hrun. unfold replaced. now rewrite added_nil.
  - apply rows_of_cleared.
  - intros r. unfold cleared. simpl. rewrite filter_In, negb_true_iff.
    now rewrite String.eqb_neq.
Qed.

Lemma replaceTodoCategories_empty_witness :
  exists db',
    replaceTodoCategories Sample.env "todo-milk" [] Sample.alice Sample.db
    = (Ok tt, db')
    /\ rows_of "todo-milk" db' = []
    /\ todoCategories db' = [TodoCategory.mk "todo-report" "cat-work" 500%Z].
Proof.
  destruct (replaceTodoCategories_empty Sample.env Sample.db Sample.milk eq_refl)
    as [db' [Hrun [Hrows _]]].
  - simpl. tauto.
  - exists db'. split; [exact Hrun|]. split; [exact Hrows|].
    apply (f_equal snd) in Hrun. simpl in Hrun. now subst db'.
Defined.

Lemma filter_insert_todoCategories (env : Env) (todoId : uuid)
    (categoryIds : list uuid) (rows : list TodoCategory.t) :
  filter (fun tc => negb (TodoCategory.todo_id tc =? todoId))
         (insert_todoCategories env (map (fun c => (todoId, c)) categoryIds) rows)
  = filter (fun tc => negb (TodoCategory.todo_id tc =? todoId)) rows.
Proof.
  revert rows. induction categoryIds as [|c cs IH]; intros rows; [reflexivity|].
  unfold insert_todoCategories in *. simpl.
  destruct (existsb (pk_eqb (todoId, c)) (map TodoCategory.pk rows)).
  - apply IH.
  - rewrite IH, filter_app. simpl. rewrite String.eqb_refl. simpl.
    apply app_nil_r.
Qed.

Lemma cleared_replaced (env : Env) (todoId : uuid) (categoryIds : list uuid)
    (db : Db) :
  cleared todoId (replaced env todoId categoryIds db) = cleared todoId db.
Proof.
  unfold cleared, replaced, added, with_todoCategories. simpl.
  rewrite filter_insert_todoCategories, filter_filter_neg. reflexivity.
Qed.

Lemma insert_todoCategories_pk_env (env1 env2 : Env)
    (values : list (uuid * uuid)) (rows1 rows2 : list TodoCategory.t) :
  map TodoCategory.pk rows1 = map TodoCategory.pk rows2 ->
  map TodoCategory.pk (insert_todoCategories env1 values rows1)
  = map TodoCategory.pk (insert_todoCategories env2 values rows2).
Proof.
  revert rows1 rows2. induction values as [|v vs IH]; intros rows1 rows2 Heq.
  - exact Heq.
  - unfold insert_todoCategories in *. simpl. rewrite <- Heq.
    destruct (existsb (pk_eqb v) (map TodoCategory.pk rows1)).
    + now apply IH.
    + apply IH. rewrite !map_app, Heq. reflexivity.
Qed.

Lemma once_per_key (rows : list TodoCategory.t) (k : uuid * uuid) :
  NoDup (map TodoCategory.pk rows) ->
  In k (map TodoCategory.pk rows) ->
  length (filter (fun r => pk_eqb (TodoCategory.pk r) k) rows) = 1%nat.
Proof.
  induction rows as [|r rs IH]; simpl; intros Hnd Hin; [contradiction|].
  inversion Hnd as [|? ? Hnotin Hnd']; subst.
  destruct (pk_eqb (TodoCategory.pk r) k) eqn:He.
  - apply pk_eqb_eq in He. subst k. simpl. f_equal.
    rewrite filter_none; [reflexivity|].
    intros x Hx. destruct (pk_eqb (TodoCategory.pk x) (TodoCategory.pk r)) eqn:Hx';
      [|reflexivity].
    apply pk_eqb_eq in Hx'. exfalso. apply Hnotin. rewrite <- Hx'. now apply in_map.
  - destruct Hin as [Hin|Hin].
    + subst k. rewrite (proj2 (pk_eqb_eq _ _) eq_refl) in He. discriminate.
    + now apply IH.
Qed.

Lemma replaced_keys (env : Env) (db : Db) (todoId : uuid)
    (categoryIds : list uuid) (c : uuid) :
  In (todoId, c) (map TodoCategory.pk (todoCategories (replaced env todoId categoryIds db)))
  <-> In c categoryIds.
Proof.
  unfold replaced, added. simpl. rewrite insert_todoCategories_pk. split.
  - intros [H|H].
    + exfalso. apply in_map_iff in H. destruct H as [r [Hpk Hr]].
      apply filter_In in Hr. destruct Hr as [_ Hr].
      unfold TodoCategory.pk in Hpk. injection Hpk as Htid _.
      rewrite Htid, String.eqb_refl in Hr. discriminate.
    + apply in_map_iff in H. destruct H as [c' [Heq Hc']].
      injection Heq as ->. exact Hc'.
  - intros H. right. apply in_map_iff. now exists c.
Qed.

(** C4. Idempotence of replace-categories.  For a todo owned by the
    user and a list of category ids that are all categories of that
    user, two calls of [replaceTodoCategories] in a row with that list
    both return normally; afterwards no primary key occurs twice in the
    association table, the table has the pair (todo, category) exactly
    for the categories of the list, each in exactly one row, and the
    second call has left the keys of the table as the first call left
    them. *)
Theorem replaceTodoCategories_idempotent (env1 env2 : Env) (db : Db)
    (t : Todo.t) (categoryIds : list uuid) :
  integrity db = true ->
  In t (todos db) ->
  (forall id, In id categoryIds -> In id (category_ids_of (Todo.user_id t) db)) ->
  exists db1 db2,
    replaceTodoCategories env1 (Todo.id t) categoryIds (Todo.user_id t) db
    = (Ok tt, db1)
    /\ replaceTodoCategories env2 (Todo.id t) categoryIds (Todo.user_id t) db1
       = (Ok tt, db2)
    /\ NoDup (map TodoCategory.pk (todoCategories db2))
    /\ (forall c, In (Todo.id t, c) (map TodoCategory.pk (todoCategories db2))
                  <-> In c categoryIds)
    /\ (forall c, In c categoryIds ->
          length (filter (fun r => pk_eqb (TodoCategory.pk r) (Todo.id t, c))
                         (todoCategories db2)) = 1%nat)
    /\ map TodoCategory.pk (todoCategories db2)
       = map TodoCategory.pk (todoCategories db1).
Proof.
  intros Hi Ht Hall.
  destruct (replaceTodoCategories_ok env1 db t categoryIds Hi Ht Hall)
    as [Hrun1 Hi1].
  set (db1 := replaced env1 (Todo.id t) categoryIds db) in *.
  destruct (replaceTodoCategories_ok env2 db1 t categoryIds Hi1 Ht Hall)
    as [Hrun2 Hi2].
  assert (Hdb2 : replaced env2 (Todo.id t) categoryIds db1
                 = replaced env2 (Todo.id t) categoryIds db).
  { unfold replaced at 1. unfold db1. rewrite cleared_replaced. reflexivity. }
  rewrite Hdb2 in Hrun2, Hi2.
  exists db1, (replaced env2 (Todo.id t) categoryIds db).
  apply integrity_spec in Hi2. pose proof (todo_category_pk _ Hi2) as Hnd.
  split; [exact Hrun1|]. split; [exact Hrun2|]. split; [exact Hnd|].
  split; [intros c; apply replaced_keys|]. split.
  - intros c Hc. apply once_per_key; [exact Hnd|]. now apply replaced_keys.
  - unfold db1, replaced, added. simpl.
    now apply insert_todoCategories_pk_env.
Qed.

Lemma replaceTodoCategories_idempotent_witness :
  exists db1 db2,
    replaceTodoCategories Sample.env "todo-milk" ["cat-errands"; "cat-home"; "cat-errands"]
      Sample.alice Sample.db = (Ok tt, db1)
    /\ replaceTodoCategories Sample.env "todo-milk"
         ["cat-errands"; "cat-home"; "cat-errands"] Sample.alice db1 = (Ok tt, db2)
    /\ map TodoCategory.pk (todoCategories db2)
       = [("todo-report", "cat-work"); ("todo-milk", "cat-errands");
          ("todo-milk", "cat-home")].
Proof.
  destruct (replaceTodoCategories_idempotent Sample.env Sample.env Sample.db
              Sample.milk ["cat-errands"; "cat-home"; "cat-errands"] eq_refl)
    as [db1 [db2 [Hrun1 [Hrun2 [_ [_ [_ Hkeys]]]]]]].
  - simpl. tauto.
  - intros id Hid. simpl in Hid. simpl.
    destruct Hid as [<-|[<-|[<-|[]]]]; tauto.
  - exists db1, db2. split; [exact Hrun1|]. split; [exact Hrun2|].
    rewrite Hkeys. apply (f_equal snd) in Hrun1. simpl in Hrun1. now subst db1.
Defined.

(** Alice replaces the categories of her todo, tagged Home, by Bob's
    category: the call fails, and the tag Home is gone. *)
Lemma verifies_before_removing_fails : ~ verifies_before_removing.
Proof.
  intros H.
  destruct (H Sample.env Sample.db Sample.milk ["cat-work"] "cat-work")
    as [e [db' [Hrun Hrows]]].
  - reflexivity.
  - simpl. tauto.
  - simpl. tauto.
  - simpl. intros [Hc|[Hc|[]]]; discriminate.
  - apply (f_equal snd) in Hrun. simpl in Hrun. subst db'.
    discriminate Hrows.
Qed.

(** C2, as the code has it.  [replaceTodoCategories] checks the supplied
    category ids only after it has removed the association rows of the
    todo: for a todo owned by the user and a list with an id that is not
    a category of that user, the call fails, and when it does the todo
    has no association row left; the rows of the other todos, and the
    users, todos and categories, are what they were, and no row has been
    inserted. *)
Theorem replaceTodoCategories_verifies_after_removing (env : Env) (db : Db)
    (t : Todo.t) (categoryIds : list uuid) (bad : uuid) :
  integrity db = true ->
  In t (todos db) ->
  In bad categoryIds ->
  ~ In bad (category_ids_of (Todo.user_id t) db) ->
  exists e db',
    replaceTodoCategories env (Todo.id t) categoryIds (Todo.user_id t) db
    = (Throw e, db')
    /\ rows_of (Todo.id t) db' = []
    /\ (forall r, In r (todoCategories db') <->
                  In r (todoCategories db) /\ TodoCategory.todo_id r <> Todo.id t)
    /\ users db' = users db /\ todos db' = todos db
    /\ categories db' = categories db.
Proof.
  intros Hi Ht Hbad Hnot.
  exists (JsError "Failed to replace todo categories"), (cleared (Todo.id t) db).
  split; [|split; [|split; [|repeat split]]].
  - now apply (replaceTodoCategories_invalid env db t categoryIds bad).
  - apply rows_of_cleared.
  - intros r. unfold cleared. simpl. rewrite filter_In, negb_true_iff.
    now rewrite String.eqb_neq.
Qed.

Lemma replaceTodoCategories_verifies_after_removing_witness :
  exists e db',
    replaceTodoCategories Sample.env "todo-milk" ["cat-home"; "cat-work"]
      Sample.alice Sample.db = (Throw e, db')
    /\ rows_of "todo-milk" db' = []
    /\ rows_of "todo-milk" Sample.db
       = [TodoCategory.mk "todo-milk" "cat-home" 400%Z].
Proof.
  destruct (replaceTodoCategories_verifies_after_removing Sample.env Sample.db
              Sample.milk ["cat-home"; "cat-work"] "cat-work" eq_refl)
    as [e [db' [Hrun [Hrows _]]]].
  - simpl. tauto.
  - simpl. tauto.
  - simpl. intros [Hc|[Hc|[]]]; discriminate.
  - exists e, db'. split; [exact Hrun|]. split; [exact Hrows | reflexivity].
Defined.

(** ** Request handlers *)

Lemma lookup_unrecognized (k : string) (input : list (string * json)) :
  recognized input = [] ->
  In k ["title"; "description"; "priority"; "dueDate"; "isCompleted"; "categoryIds"] ->
  lookup k input = None.
Proof.
  unfold recognized. intros Hnone Hk.
  destruct (lookup k input) eqn:Hl; [|reflexivity].
  assert (Hin : In k (filter
    (fun k => match lookup k input with Some _ => true | None => false end)
    ["title"; "description"; "priority"; "dueDate"; "isCompleted"; "categoryIds"])).
  { apply filter_In. split; [assumption | now rewrite Hl]. }
  rewrite Hnone in Hin. contradiction.
Qed.

(** A parsed object with none of the keys of the schema fails
    [updateTodoSchema] with the issue of its refinement, and no other. *)
Lemma updateTodoSchema_no_recognized_field (zod_datetime zod_uuid : string -> bool)
    (input : list (string * json)) :
  recognized input = [] ->
  updateTodoSchema zod_datetime zod_uuid (JObject input) = inr [at_least_one_field].
Proof.
  intros Hnone. unfold updateTodoSchema.
  rewrite !(lookup_unrecognized _ input Hnone) by (simpl; tauto).
  rewrite Hnone. reflexivity.
Qed.

(** A function of the query layer returns, or throws an [Error] with
    its own fixed message. *)
Lemma rethrow_as_cases {A} (msg : string) (m : M A) (db : Db) :
  (exists a db', rethrow_as msg m db = (Ok a, db'))
  \/ (exists db', rethrow_as msg m db = (Throw (JsError msg), db')).
Proof.
  unfold rethrow_as, try_catch, throw.
  destruct (m db) as [[a|e] db']; [left | right]; eauto.
Qed.

Lemma createTodo_cases env data db :
  (exists a db', createTodo env data db = (Ok a, db'))
  \/ (exists db', createTodo env data db
                  = (Throw (JsError "Failed to create todo"), db')).
Proof. apply rethrow_as_cases. Qed.

Lemma updateTodo_cases env todoId userId data db :
  (exists a db', updateTodo env todoId userId data db = (Ok a, db'))
  \/ (exists db', updateTodo env todoId userId data db
                  = (Throw (JsError "Failed to update todo"), db')).
Proof. apply rethrow_as_cases. Qed.

Lemma replaceTodoCategories_cases env todoId categoryIds userId db :
  (exists a db', replaceTodoCategories env todoId categoryIds userId db = (Ok a, db'))
  \/ (exists db', replaceTodoCategories env todoId categoryIds userId db
                  = (Throw (JsError "Failed to replace todo categories"), db')).
Proof. apply rethrow_as_cases. Qed.

Lemma getTodoWithCategories_cases todoId userId db :
  (exists a db', getTodoWithCategories todoId userId db = (Ok a, db'))
  \/ (exists db', getTodoWithCategories todoId userId db
                  = (Throw (JsError "Failed to fetch todo with categories"), db')).
Proof. apply rethrow_as_cases. Qed.

(** [PATCH] with the body [{}] on an id that no todo carries is answered
    404 "Todo not found": [getTodoById] has run before the body is
    read. *)
Lemma validation_precedes_queries_fails : ~ validation_precedes_queries.
Proof.
  intros H.
  specialize (H sample_datetime sample_uuid sample_Date_parse
                Sample.env Sample.alice "todo-none" [] Sample.db eq_refl).
  discriminate H.
Qed.

(** Alice completes her todo "Buy milk" and moves its due date to
    1 January 2020, later that year: the answer is 400. *)
Lemma completing_allows_past_due_date_fails : ~ completing_allows_past_due_date.
Proof.
  intros H.
  destruct (H sample_datetime sample_uuid sample_Date_parse Sample.env Sample.db
              Sample.milk
              (JObject [("isCompleted", JBool true);
                        ("dueDate", JString "2020-01-01T00:00:00Z")])
              (UpdateTodoInput.mk None None None
                 (Some (Some "2020-01-01T00:00:00Z")) (Some true) None)
              "2020-01-01T00:00:00Z" 1577836800000%Z)
    as [todo [db' Hrun]]; try reflexivity.
  - simpl. tauto.
  - discriminate Hrun.
Qed.

Section HandlerProperties.

Variable zod_datetime : string -> bool.
Variable zod_uuid : string -> bool.
Variable Date_parse : string -> option timestamp.

(** C8, as the code has it.  For a todo that [getTodoById] finds for the
    user, a [PATCH] whose body is a JSON object with none of the keys of
    the schema is answered 400 "Validation failed" with the one detail
    "At least one field must be provided for update" (on the empty
    path), and every table is left as it was: no function of the query
    layer that writes has been called.  The lookup of the todo comes
    before validation; for an id it does not find the answer is 404. *)
Theorem PATCH_no_recognized_field (env : Env) (db : Db) (t : Todo.t)
    (input : list (string * json)) :
  integrity db = true ->
  In t (todos db) ->
  recognized input = [] ->
  updateTodoSchema zod_datetime zod_uuid (JObject input) = inr [at_least_one_field]
  /\ PATCH zod_datetime zod_uuid Date_parse env (Some (Todo.user_id t)) (Todo.id t)
           (Parsed (JObject input)) db
     = (Ok (errorResponse "Validation failed" 400
              (Some [mkValidationDetail
                       "" (Custom "At least one field must be provided for update")])),
        db).
Proof.
  intros Hi Ht Hnone.
  pose proof (updateTodoSchema_no_recognized_field zod_datetime zod_uuid input Hnone)
    as Hschema.
  split; [exact Hschema|].
  unfold PATCH, getUserId. step. rewrite (getTodoById_hit db t Hi Ht).
  unfold request_json. step. rewrite Hschema. reflexivity.
Qed.

(** What [PATCH] answers once the update has passed the schema and the
    rule on due dates: 200, or 500 when a function of the query layer
    fails. *)
Lemma PATCH_after_checks (env : Env) (userId id : uuid) (v : UpdateTodoInput.t)
    (db : Db) :
  exists resp db',
    try_catch
      (updatedTodo <- updateTodo env id userId
         (TodoUpdate.mk None
            (UpdateTodoInput.title v)
            (option_map Some (UpdateTodoInput.description v))
            (UpdateTodoInput.isCompleted v)
            (UpdateTodoInput.priority v)
            (option_map (option_map (due_input Date_parse))
                        (UpdateTodoInput.dueDate v))
            None) ;;
       match updatedTodo with
       | None => ret (errorResponse "Failed to update todo" 500 None)
       | Some updatedTodo =>
           match UpdateTodoInput.categoryIds v with
           | Some categoryIds => replaceTodoCategories env id categoryIds userId
           | None => ret tt
           end ;;
           todoWithCategories <- getTodoWithCategories id userId ;;
           ret (successResponse
                  (TodoBody (or_updated todoWithCategories updatedTodo)) 200)
       end)
      (fun error => ret (handleError error)) db
    = (Ok resp, db')
    /\ (status resp = 200 \/ status resp = 500)%Z.
Proof.
  step.
  destruct (updateTodo_cases env id userId
              (TodoUpdate.mk None
                 (UpdateTodoInput.title v)
                 (option_map Some (UpdateTodoInput.description v))
                 (UpdateTodoInput.isCompleted v)
                 (UpdateTodoInput.priority v)
                 (option_map (option_map (due_input Date_parse))
                             (UpdateTodoInput.dueDate v))
                 None) db) as [[updated [db1 H1]] | [db1 H1]];
    rewrite H1; cbv beta iota; [|eexists; eexists; split; [reflexivity | now right]].
  destruct updated as [updatedTodo|];
    [|eexists; eexists; split; [reflexivity | now right]].
  assert (Hrest : forall db2,
    exists resp db',
      (let (r, db'0) :=
         let (r, db'0) := getTodoWithCategories id userId db2 in
         match r with
         | Ok a =>
             (Ok (successResponse (TodoBody (or_updated a updatedTodo)) 200), db'0)
         | Throw e => (Throw e, db'0)
         end in
       match r with
       | Ok a => (Ok a, db'0)
       | Throw e => (Ok (handleError e), db'0)
       end) = (Ok resp, db')
      /\ (status resp = 200 \/ status resp = 500)%Z).
  { intros db2.
    destruct (getTodoWithCategories_cases id userId db2)
      as [[twc [db3 H3]] | [db3 H3]]; rewrite H3;
      eexists; eexists; (split; [reflexivity|]); [now left | now right]. }
  destruct (UpdateTodoInput.categoryIds v) as [categoryIds|].
  - destruct (replaceTodoCategories_cases env id categoryIds userId db1)
      as [[u [db2 H2]] | [db2 H2]]; rewrite H2.
    + apply Hrest.
    + eexists; eexists; split; [reflexivity | now right].
  - apply Hrest.
Qed.

(** C3, as the code has it.  For an existing todo owned by the user and
    a [PATCH] whose body passes the schema and sets [dueDate] to an
    instant strictly before now: when the existing todo is incomplete
    the answer is 400 "Due date cannot be in the past" and nothing is
    written, whatever [isCompleted] the body carries (the rule looks at
    the completion state the todo has, not at the one the update asks
    for); when the existing todo is completed the rule does not fire,
    and the answer is not a 400. *)
Theorem PATCH_past_due_date (env : Env) (db : Db) (t : Todo.t) (body : json)
    (v : UpdateTodoInput.t) (d : string) (ts : timestamp) :
  integrity db = true ->
  In t (todos db) ->
  updateTodoSchema zod_datetime zod_uuid body = inl v ->
  UpdateTodoInput.dueDate v = Some (Some d) ->
  Date_parse d = Some ts ->
  (ts < now env)%Z ->
  (Todo.is_completed t = false ->
   PATCH zod_datetime zod_uuid Date_parse env (Some (Todo.user_id t)) (Todo.id t)
         (Parsed body) db
   = (Ok (errorResponse "Due date cannot be in the past" 400 None), db))
  /\ (Todo.is_completed t = true ->
      exists resp db',
        PATCH zod_datetime zod_uuid Date_parse env (Some (Todo.user_id t))
              (Todo.id t) (Parsed body) db
        = (Ok resp, db')
        /\ status resp <> 400%Z).
Proof.
  intros Hi Ht Hschema Hdue Hparse Hpast.
  assert (Hbefore : before Date_parse d (now env) = true).
  { unfold before. rewrite Hparse. now apply Z.ltb_lt. }
  split; intros Hdone.
  - unfold PATCH, getUserId. step. rewrite (getTodoById_hit db t Hi Ht).
    unfold request_json. step. rewrite Hschema. unfold parse. step.
    rewrite Hdue, Hdone, Hbefore. reflexivity.
  - destruct (PATCH_after_checks env (Todo.user_id t) (Todo.id t) v db)
      as [resp [db' [Hrun Hstatus]]].
    exists resp, db'. split; [|destruct Hstatus as [-> | ->]; discriminate].
    rewrite <- Hrun.
    unfold PATCH, getUserId. step. rewrite (getTodoById_hit db t Hi Ht).
    unfold request_json. step. rewrite Hschema. unfold parse. step.
    rewrite Hdue, Hdone. reflexivity.
Qed.

End HandlerProperties.

Lemma PATCH_no_recognized_field_witness :
  PATCH sample_datetime sample_uuid sample_Date_parse Sample.env
        (Some Sample.alice) "todo-milk"
        (Parsed (JObject [("done", JBool true)])) Sample.db
  = (Ok (errorResponse "Validation failed" 400
           (Some [mkValidationDetail
                    "" (Custom "At least one field must be provided for update")])),
     Sample.db).
Proof.
  apply (PATCH_no_recognized_field sample_datetime sample_uuid sample_Date_parse
           Sample.env Sample.db Sample.milk [("done", JBool true)]).
  - reflexivity.
  - simpl. tauto.
  - reflexivity.
Defined.

Lemma PATCH_past_due_date_witness :
  PATCH sample_datetime sample_uuid sample_Date_parse Sample.env
        (Some Sample.alice) "todo-milk"
        (Parsed (JObject [("isCompleted", JBool true);
                          ("dueDate", JString "2020-01-01T00:00:00Z")]))
        Sample.db
  = (Ok (errorResponse "Due date cannot be in the past" 400 None), Sample.db)
  /\ exists resp db',
       PATCH sample_datetime sample_uuid sample_Date_parse Sample.env
             (Some Sample.alice) "todo-taxes"
             (Parsed (JObject [("dueDate", JString "2020-01-01T00:00:00Z")]))
             Sample.db
       = (Ok resp, db')
       /\ status resp <> 400%Z.
Proof.
  split.
  - apply (PATCH_past_due_date sample_datetime sample_uuid sample_Date_parse
             Sample.env Sample.db Sample.milk
             (JObject [("isCompleted", JBool true);
                       ("dueDate", JString "2020-01-01T00:00:00Z")])
             (UpdateTodoInput.mk None None None
                (Some (Some "2020-01-01T00:00:00Z")) (Some true) None)
             "2020-01-01T00:00:00Z" 1577836800000%Z);
      try reflexivity.
    simpl. tauto.
  - apply (PATCH_past_due_date sample_datetime sample_uuid sample_Date_parse
             Sample.env Sample.db Sample.taxes
             (JObject [("dueDate", JString "2020-01-01T00:00:00Z")])
             (UpdateTodoInput.mk None None None
                (Some (Some "2020-01-01T00:00:00Z")) None None)
             "2020-01-01T00:00:00Z" 1577836800000%Z);
      try reflexivity.
    simpl. tauto.
Defined.

(** ** Failures that match no pattern *)

(** The answers to two different messages differ. *)
Lemma unclassified_failures_are_generic_fails : ~ unclassified_failures_are_generic.
Proof.
  intros [generic H].
  pose proof (H "Unexpected end of JSON input" eq_refl) as H1.
  pose proof (H "connect ECONNREFUSED 127.0.0.1:5432" eq_refl) as H2.
  vm_compute in H1, H2. inversion H1 as [Hg]. rewrite <- Hg in H2.
  discriminate H2.
Qed.

Lemma rethrow_as_throws {A} (msg : string) (m : M A) (db db' : Db) (e : exn) :
  rethrow_as msg m db = (Throw e, db') -> e = JsError msg.
Proof.
  unfold rethrow_as, try_catch, throw.
  destruct (m db) as [[a|e0] db0]; intros H; inversion H; reflexivity.
Qed.

Lemma query_layer_throws {A} (m : M A) (db db' : Db) (e : exn) :
  query_layer m -> m db = (Throw e, db') ->
  exists msg, e = JsError msg /\ In msg query_layer_messages.
Proof.
  intros Hq Hrun.
  destruct Hq; apply rethrow_as_throws in Hrun; subst e;
    eexists; (split; [reflexivity|]); simpl; tauto.
Qed.

(** C6, as the code has it.  For an [Error] whose message matches none
    of the patterns, [handleError] answers 500 with the message of the
    [Error] itself, unchanged, as the [error] of the body (for a thrown
    value that is no [Error] it answers "An unexpected error
    occurred").  What keeps the internals of the database out of the
    answer is the query layer: whenever one of its functions throws, it
    throws an [Error] with its own fixed "Failed to ..." text, which
    matches no pattern and is what the 500 answer then carries. *)
Theorem handleError_unclassified :
  (forall msg, unclassified msg = true ->
     handleError (JsError msg) = errorResponse msg 500 None)
  /\ handleError JsOther = errorResponse "An unexpected error occurred" 500 None
  /\ (forall A (m : M A) db db' e,
        query_layer m -> m db = (Throw e, db') ->
        exists msg, e = JsError msg /\ In msg query_layer_messages
                    /\ handleError e = errorResponse msg 500 None).
Proof.
  split; [|split].
  - intros msg Hmsg. unfold unclassified in Hmsg.
    apply andb_true_iff in Hmsg. destruct Hmsg as [Hmsg Hf].
    apply andb_true_iff in Hmsg. destruct Hmsg as [Hn Hu].
    apply negb_true_iff in Hn, Hu, Hf.
    unfold handleError. now rewrite Hn, Hu, Hf.
  - reflexivity.
  - intros A m db db' e Hq Hrun.
    destruct (query_layer_throws m db db' e Hq Hrun) as [msg [-> Hin]].
    exists msg. split; [reflexivity|]. split; [exact Hin|].
    simpl in Hin.
    repeat (destruct Hin as [<-|Hin]; [reflexivity|]). contradiction.
Qed.

Lemma handleError_unclassified_witness :
  handleError (JsError "Unexpected end of JSON input")
  = errorResponse "Unexpected end of JSON input" 500 None
  /\ exists msg,
       In msg query_layer_messages
       /\ handleError (JsError "Failed to replace todo categories")
          = errorResponse msg 500 None.
Proof.
  destruct handleError_unclassified as [Hmsg [_ Hquery]].
  split.
  - apply Hmsg. reflexivity.
  - destruct (Hquery unit
                (replaceTodoCategories Sample.env "todo-milk" ["cat-work"] Sample.alice)
                Sample.db (cleared "todo-milk" Sample.db)
                (JsError "Failed to replace todo categories"))
      as [msg [_ [Hin Hresp]]].
    + constructor.
    + reflexivity.
    + exists msg. split; assumption.
Defined.

(** ** Creating a todo *)

Lemma in_snoc {A} (x y : A) (l : list A) : In x (l ++ [y]) <-> In x l \/ x = y.
Proof. rewrite in_app_iff. simpl. intuition congruence. Qed.

(** Inserting a todo with a fresh id, for a user of the [users] table
    and with a title that fits its column, breaks no constraint. *)
Lemma integrity_insert_todo (db : Db) (row : Todo.t) :
  integrity db = true ->
  ~ In (Todo.id row) (map Todo.id (todos db)) ->
  In (Todo.user_id row) (map User.id (users db)) ->
  (String.length (Todo.title row) <= 200)%nat ->
  integrity (with_todos db (todos db ++ [row])) = true.
Proof.
  rewrite !integrity_spec. intros [H1 H2 H3 H4 H5 H6 H7 H8] Hfresh Huser Hlen.
  constructor; simpl; try assumption.
  - rewrite map_app. simpl. now apply NoDup_snoc.
  - intros t Ht. apply in_snoc in Ht. destruct Ht as [Ht | ->].
    + now apply H4.
    + unfold todo_row_ok. simpl. apply andb_true_iff. split.
      * now apply mem_In.
      * now apply Nat.leb_le.
  - intros r Hr. specialize (H8 r Hr). unfold todo_category_row_ok in *. simpl.
    apply andb_true_iff in H8. destruct H8 as [Ht Hc]. rewrite Hc, andb_true_r.
    apply mem_In. apply mem_In in Ht. rewrite map_app, in_app_iff. now left.
Qed.

Lemma title_schema_valid (p : list PathSeg) (v : option json) (t : string) :
  title_schema p v = (Some t, []) ->
  (1 <= String.length t <= 200)%nat.
Proof.
  unfold title_schema, z_string.
  destruct v as [[| | |s| |]|]; try discriminate.
  simpl. unfold z_min, z_max. intros H. injection H as -> Hissues.
  destruct (String.length t <? 1)%nat eqn:Hmin; [discriminate|].
  destruct (200 <? String.length t)%nat eqn:Hmax; [discriminate|].
  apply Nat.ltb_ge in Hmin, Hmax. split; assumption.
Qed.

Section CreateProperties.

Variable zod_datetime : string -> bool.
Variable zod_uuid : string -> bool.
Variable Date_parse : string -> option timestamp.

(** A body that passes [createTodoSchema] has a title of 1 to 200
    characters. *)
Lemma createTodoSchema_title (body : json) (v : CreateTodoInput.t) :
  createTodoSchema zod_datetime zod_uuid body = inl v ->
  (1 <= String.length (CreateTodoInput.title v) <= 200)%nat.
Proof.
  unfold createTodoSchema. destruct body as [| | | | |input]; try discriminate.
  destruct (title_schema [PKey "title"] (lookup "title" input)) as [title i1] eqn:Ht.
  destruct (z_optional (z_string []) [PKey "description"] (lookup "description" input))
    as [description i2].
  destruct (z_optional priorityEnum [PKey "priority"] (lookup "priority" input))
    as [priority i3].
  destruct (z_optional (datetime_schema zod_datetime) [PKey "dueDate"]
                       (lookup "dueDate" input)) as [dueDate i4].
  destruct (z_optional (categoryIds_schema zod_uuid) [PKey "categoryIds"]
                       (lookup "categoryIds" input)) as [categoryIds i5].
  destruct title as [t|]; [|discriminate].
  destruct description as [d|]; [|discriminate].
  destruct priority as [p|]; [|discriminate].
  destruct dueDate as [dd|]; [|discriminate].
  destruct categoryIds as [c|]; [|discriminate].
  destruct (i1 ++ i2 ++ i3 ++ i4 ++ i5) eqn:Hissues; [|discriminate].
  intros H. injection H as <-. simpl.
  apply app_eq_nil in Hissues. destruct Hissues as [-> _].
  now apply (title_schema_valid _ _ _ Ht).
Qed.

Lemma past_due_check (v : CreateTodoInput.t) (now : timestamp) :
  match CreateTodoInput.dueDate v with
  | Some dueDate => truthy dueDate && before Date_parse dueDate now
  | None => false
  end = true <-> past_due Date_parse v now.
Proof.
  unfold past_due, truthy, before. split.
  - destruct (CreateTodoInput.dueDate v) as [d|]; [|discriminate].
    intros H. apply andb_true_iff in H. destruct H as [Hd Hb].
    apply negb_true_iff, String.eqb_neq in Hd.
    destruct (Date_parse d) as [ts|] eqn:Hparse; [|discriminate].
    apply Z.ltb_lt in Hb. exists d, ts. repeat split; assumption.
  - intros [d [ts [-> [Hd [-> Hlt]]]]].
    apply andb_true_iff. split.
    + now apply negb_true_iff, String.eqb_neq.
    + now apply Z.ltb_lt.
Qed.

Lemma POST_valid (env : Env) (userId : uuid) (body : json)
    (v : CreateTodoInput.t) (db : Db) :
  createTodoSchema zod_datetime zod_uuid body = inl v ->
  POST zod_datetime zod_uuid Date_parse env (Some userId) (Parsed body) db
  = if match CreateTodoInput.dueDate v with
       | Some dueDate => truthy dueDate && before Date_parse dueDate (now env)
       | None => false
       end
    then (Ok (errorResponse "Due date cannot be in the past" 400 None), db)
    else POST_create Date_parse env userId v db.
Proof.
  intros Hschema. unfold POST, POST_create, new_todo, getUserId, request_json.
  step. rewrite Hschema. unfold parse. step.
  destruct (match CreateTodoInput.dueDate v with
            | Some dueDate => truthy dueDate && before Date_parse dueDate (now env)
            | None => false
            end); reflexivity.
Qed.

(** Past the two checks, [POST] answers 201, or 500 when a function of
    the query layer fails. *)
Lemma POST_create_status (env : Env) (userId : uuid) (v : CreateTodoInput.t)
    (db : Db) :
  exists resp db',
    POST_create Date_parse env userId v db = (Ok resp, db')
    /\ (status resp = 201 \/ status resp = 500)%Z.
Proof.
  unfold POST_create. step.
  destruct (createTodo_cases env (new_todo Date_parse userId v) db)
    as [[newTodo [db1 H1]] | [db1 H1]];
    rewrite H1; cbv beta iota; [|eexists; eexists; split; [reflexivity | now right]].
  assert (Hrest : forall db2,
    exists resp db',
      (let (r, db'0) :=
         let (r, db'0) := getTodoWithCategories (Todo.id newTodo) userId db2 in
         match r with
         | Ok a =>
             (Ok (successResponse (TodoBody (or_updated a newTodo)) 201), db'0)
         | Throw e => (Throw e, db'0)
         end in
       match r with
       | Ok a => (Ok a, db'0)
       | Throw e => (Ok (handleError e), db'0)
       end) = (Ok resp, db')
      /\ (status resp = 201 \/ status resp = 500)%Z).
  { intros db2.
    destruct (getTodoWithCategories_cases (Todo.id newTodo) userId db2)
      as [[twc [db3 H3]] | [db3 H3]]; rewrite H3;
      eexists; eexists; (split; [reflexivity|]); [now left | now right]. }
  destruct (CreateTodoInput.categoryIds v) as [categoryIds|]; [|apply Hrest].
  destruct (0 <? length categoryIds)%nat; [|apply Hrest].
  destruct (replaceTodoCategories_cases env (Todo.id newTodo) categoryIds userId db1)
    as [[u [db2 H2]] | [db2 H2]]; rewrite H2.
  - apply Hrest.
  - eexists; eexists; split; [reflexivity | now right].
Qed.

Lemma getTodoWithCategories_hit (db : Db) (t : Todo.t) (userId : uuid) :
  integrity db = true -> In t (todos db) -> Todo.user_id t = userId ->
  exists cats,
    getTodoWithCategories (Todo.id t) userId db
    = (Ok (Some (mkTodoWithCategories t cats)), db).
Proof.
  intros Hi Ht <-. unfold getTodoWithCategories. step.
  rewrite (getTodoById_hit db t Hi Ht). eexists. reflexivity.
Qed.

Lemma createTodo_ok (env : Env) (data : NewTodo.t) (due : option timestamp)
    (db : Db) :
  stored (NewTodo.due_date data) = Some due ->
  integrity (with_todos db (todos db ++ [new_todo_row env data due])) = true ->
  createTodo env data db
  = (Ok (new_todo_row env data due),
     with_todos db (todos db ++ [new_todo_row env data due])).
Proof.
  intros Hdue Hi. unfold createTodo. step.
  erewrite statement_accepts; [reflexivity | now rewrite Hdue | exact Hi].
Qed.

(** With no due date, for a user of the [users] table, a fresh uuid and
    categories of the user, [POST] inserts the todo and answers 201. *)
Lemma POST_create_ok (env : Env) (userId : uuid) (v : CreateTodoInput.t)
    (db : Db) :
  integrity db = true ->
  In userId (map User.id (users db)) ->
  ~ In (randomUuid env) (map Todo.id (todos db)) ->
  (String.length (CreateTodoInput.title v) <= 200)%nat ->
  CreateTodoInput.dueDate v = None ->
  (forall ids, CreateTodoInput.categoryIds v = Some ids ->
     forall id, In id ids -> In id (category_ids_of userId db)) ->
  exists cats db',
    POST_create Date_parse env userId v db
    = (Ok (successResponse
             (TodoBody (inl (mkTodoWithCategories
                               (new_todo_row env (new_todo Date_parse userId v) None) cats)))
             201), db')
    /\ todos db' = todos db ++ [new_todo_row env (new_todo Date_parse userId v) None].
Proof.
  intros Hi Huser Hfresh Hlen Hdue Hcats.
  set (row := new_todo_row env (new_todo Date_parse userId v) None).
  set (db1 := with_todos db (todos db ++ [row])).
  assert (Hi1 : integrity db1 = true).
  { apply integrity_insert_todo; assumption. }
  assert (Hrow1 : In row (todos db1)).
  { unfold db1. simpl. apply in_snoc. now right. }
  assert (Hcreate : createTodo env (new_todo Date_parse userId v) db = (Ok row, db1)).
  { apply createTodo_ok; [|exact Hi1].
    unfold new_todo. simpl. now rewrite Hdue. }
  unfold POST_create. step. rewrite Hcreate. cbv beta iota.
  assert (Hrest : forall db2,
    integrity db2 = true -> todos db2 = todos db1 ->
    exists cats db',
      (let (r, db'0) :=
         let (r, db'0) := getTodoWithCategories (Todo.id row) userId db2 in
         match r with
         | Ok a => (Ok (successResponse (TodoBody (or_updated a row)) 201), db'0)
         | Throw e => (Throw e, db'0)
         end in
       match r with
       | Ok a => (Ok a, db'0)
       | Throw e => (Ok (handleError e), db'0)
       end)
      = (Ok (successResponse (TodoBody (inl (mkTodoWithCategories row cats))) 201),
         db')
      /\ todos db' = todos db ++ [row]).
  { intros db2 Hi2 Htodos.
    destruct (getTodoWithCategories_hit db2 row userId Hi2) as [cats Hget].
    - rewrite Htodos. exact Hrow1.
    - reflexivity.
    - rewrite Hget. exists cats, db2. split; [reflexivity | exact Htodos]. }
  destruct (CreateTodoInput.categoryIds v) as [ids|] eqn:Hids;
    [|now apply Hrest].
  destruct (0 <? length ids)%nat; [|now apply Hrest].
  destruct (replaceTodoCategories_ok env db1 row ids Hi1 Hrow1) as [Hrun Hi2].
  - intros id Hid. change (Todo.user_id row) with userId.
    change (category_ids_of userId db1) with (category_ids_of userId db).
    now apply (Hcats ids).
  - change (Todo.user_id row) with userId in Hrun. rewrite Hrun.
    now apply Hrest.
Qed.

(** C5. A creation request whose body passes [createTodoSchema], sent by
    an authenticated user, is always answered, and the answer is a 400
    if and only if the body supplies a due date that is an instant
    strictly before now; that 400 is "Due date cannot be in the past"
    and nothing is written.  With no due date, whatever the current
    time, the todo is inserted and the answer is 201 with the new todo,
    provided the user has a row in [users], the generated uuid is fresh
    and the supplied category ids are categories of the user. *)
Theorem POST_due_date (env : Env) (userId : uuid) (body : json)
    (v : CreateTodoInput.t) (db : Db) :
  createTodoSchema zod_datetime zod_uuid body = inl v ->
  exists resp db',
    POST zod_datetime zod_uuid Date_parse env (Some userId) (Parsed body) db
    = (Ok resp, db')
    /\ (status resp = 400%Z <-> past_due Date_parse v (now env))
    /\ (past_due Date_parse v (now env) ->
        resp = errorResponse "Due date cannot be in the past" 400 None /\ db' = db)
    /\ (CreateTodoInput.dueDate v = None ->
        integrity db = true ->
        In userId (map User.id (users db)) ->
        ~ In (randomUuid env) (map Todo.id (todos db)) ->
        (forall ids, CreateTodoInput.categoryIds v = Some ids ->
           forall id, In id ids -> In id (category_ids_of userId db)) ->
        exists t cats,
          resp = successResponse (TodoBody (inl (mkTodoWithCategories t cats))) 201
          /\ todos db' = todos db ++ [t]
          /\ Todo.id t = randomUuid env
          /\ Todo.user_id t = userId
          /\ Todo.title t = CreateTodoInput.title v
          /\ Todo.is_completed t = false
          /\ Todo.due_date t = None).
Proof.
  intros Hschema.
  pose proof (POST_valid env userId body v db Hschema) as Hrun.
  pose proof (past_due_check v (now env)) as Hcheck.
  destruct (match CreateTodoInput.dueDate v with
            | Some dueDate => truthy dueDate && before Date_parse dueDate (now env)
            | None => false
            end) eqn:Hpast.
  - exists (errorResponse "Due date cannot be in the past" 400 None), db.
    split; [exact Hrun|]. split; [|split].
    + split; [intros _; now apply Hcheck | reflexivity].
    + intros _. split; reflexivity.
    + intros Hnone. rewrite Hnone in Hpast. discriminate.
  - assert (Hnot : ~ past_due Date_parse v (now env)).
    { intros Hp. apply Hcheck in Hp. discriminate. }
    destruct (POST_create_status env userId v db) as [resp [db' [Hcreate Hstatus]]].
    exists resp, db'. rewrite Hrun. split; [exact Hcreate|]. split; [|split].
    + split; [|intros Hp; contradiction].
      intros H400. destruct Hstatus as [H|H]; rewrite H in H400; discriminate.
    + intros Hp. contradiction.
    + intros Hnone Hi Huser Hfresh Hcats.
      destruct (POST_create_ok env userId v db Hi Huser Hfresh) as
        [cats [db'' [Hok Htodos]]]; try assumption.
      * apply (createTodoSchema_title body v Hschema).
      * rewrite Hcreate in Hok. injection Hok as -> ->.
        exists (new_todo_row env (new_todo Date_parse userId v) None), cats.
        split; [reflexivity|]. split; [exact Htodos|].
        repeat split.
Qed.

End CreateProperties.

Lemma POST_due_date_witness :
  exists resp db',
    POST sample_datetime sample_uuid sample_Date_parse Sample.env
         (Some Sample.alice)
         (Parsed (JObject [("title", JString "Water the plants");
                           ("categoryIds", JArray [JString "cat-home"])]))
         Sample.db
    = (Ok resp, db')
    /\ status resp = 201%Z
    /\ map Todo.id (todos db') = ["todo-milk"; "todo-taxes"; "todo-report"; "todo-new"].
Proof.
  destruct (POST_due_date sample_datetime sample_uuid sample_Date_parse Sample.env
              Sample.alice
              (JObject [("title", JString "Water the plants");
                        ("categoryIds", JArray [JString "cat-home"])])
              (CreateTodoInput.mk "Water the plants" None None None
                                  (Some ["cat-home"]))
              Sample.db eq_refl)
    as [resp [db' [Hrun [_ [_ Hok]]]]].
  destruct Hok as [t [cats [Hresp [Htodos [Hid _]]]]].
  - reflexivity.
  - reflexivity.
  - simpl. tauto.
  - simpl. intros [H|[H|[H|[]]]]; discriminate.
  - intros ids Hids id Hid. injection Hids as <-. simpl in Hid.
    destruct Hid as [<-|[]]. simpl. tauto.
  - exists resp, db'. split; [exact Hrun|]. split.
    + rewrite Hresp. reflexivity.
    + rewrite Htodos, map_app. simpl. rewrite Hid. reflexivity.
Defined.

(** ** Scenarios *)

(** A todo created without a priority gets priority 2. *)
Example POST_default_priority :
  exists t cats db',
    POST sample_datetime sample_uuid sample_Date_parse Sample.env
         (Some Sample.alice) (Parsed (JObject [("title", JString "Buy milk")]))
         Sample.db
    = (Ok (successResponse (TodoBody (inl (mkTodoWithCategories t cats))) 201), db')
    /\ Todo.priority t = 2%Z.
Proof. eexists. eexists. eexists. split; reflexivity. Qed.

(** Alice's todos by ascending due date: the one without a due date
    comes last. *)
Example getUserTodos_due_date_asc :
  getUserTodos Sample.alice None
    (Some (TodoSort.mk SortField.due_date SortDirection.asc)) Sample.db
  = (Ok [Sample.milk; Sample.taxes], Sample.db).
Proof. reflexivity. Qed.

(** By default the newest comes first. *)
Example getUserTodos_default_sort :
  getUserTodos Sample.alice None None Sample.db
  = (Ok [Sample.taxes; Sample.milk], Sample.db).
Proof. reflexivity. Qed.

(** Filtering Alice's todos by Bob's category returns nothing, and no
    error. *)
Example getUserTodos_foreign_category :
  getUserTodos Sample.alice
    (Some (TodoFilters.mk None None (Some "cat-work") None)) None Sample.db
  = (Ok [], Sample.db).
Proof. reflexivity. Qed.

(** The search text is a [LIKE] pattern between two [%]. *)
Example getUserTodos_search :
  getUserTodos Sample.alice
    (Some (TodoFilters.mk None None None (Some "b_f"))) None Sample.db
  = (Ok [Sample.taxes], Sample.db).
Proof. reflexivity. Qed.

(** The classification of [handleError]. *)
Example handleError_patterns :
  status (handleError (JsError "Todo not found or access denied")) = 404%Z
  /\ status (handleError (JsError "No user found in session")) = 401%Z
  /\ status (handleError (JsError "forbidden")) = 403%Z
  /\ status (handleError (JsError "Failed to create todo")) = 500%Z.
Proof. repeat split. Qed.

(** A request without a session is answered 401. *)
Example DELETE_unauthorized :
  DELETE None "todo-milk" Sample.db
  = (Ok (errorResponse "Unauthorized access" 401 None), Sample.db).
Proof. reflexivity. Qed.

(** Deleting a todo removes its association rows with it. *)
Example DELETE_cascade :
  exists db',
    DELETE (Some Sample.alice) "todo-milk" Sample.db
    = (Ok (successResponse SuccessBody 200), db')
    /\ map Todo.id (todos db') = ["todo-taxes"; "todo-report"]
    /\ map TodoCategory.pk (todoCategories db') = [("todo-report", "cat-work")].
Proof. eexists. split; [reflexivity|]. split; reflexivity. Qed.

(** * Further properties of the code *)

(** ** Sorting *)

Lemma insert_by_Permutation {A} (le : A -> A -> bool) (x : A) (l : list A) :
  Permutation (insert_by le x l) (x :: l).
Proof.
  induction l as [|y r IH]; simpl; [apply Permutation_refl|].
  destruct (le x y); [apply Permutation_refl|].
  eapply perm_trans; [apply perm_skip, IH | apply perm_swap].
Qed.

Lemma sort_by_Permutation {A} (le : A -> A -> bool) (l : list A) :
  Permutation (sort_by le l) l.
Proof.
  induction l as [|x r IH]; simpl; [constructor|].
  eapply perm_trans; [apply insert_by_Permutation | now apply perm_skip].
Qed.

Section SortedBy.
Context {A : Type} (le : A -> A -> bool).
Hypothesis le_total : forall a b, le a b = true \/ le b a = true.

Lemma insert_by_HdRel (x y : A) (l : list A) :
  le y x = true -> HdRel (fun a b => le a b = true) y l ->
  HdRel (fun a b => le a b = true) y (insert_by le x l).
Proof.
  intros Hyx Hhd. destruct l as [|z r]; simpl; [now constructor|].
  destruct (le x z); constructor; [assumption|].
  now inversion Hhd.
Qed.

Lemma insert_by_Sorted (x : A) (l : list A) :
  Sorted (fun a b => le a b = true) l ->
  Sorted (fun a b => le a b = true) (insert_by le x l).
Proof.
  induction l as [|y r IH]; simpl; intros Hs.
  - repeat constructor.
  - destruct (le x y) eqn:Hxy.
    + constructor; [assumption | now constructor].
    + inversion Hs as [|? ? Hr Hhd]; subst. constructor; [now apply IH|].
      apply insert_by_HdRel; [|assumption].
      destruct (le_total x y) as [H|H]; [congruence | assumption].
Qed.

Lemma sort_by_Sorted (l : list A) :
  Sorted (fun a b => le a b = true) (sort_by le l).
Proof.
  induction l as [|x r IH]; simpl; [constructor | now apply insert_by_Sorted].
Qed.
End SortedBy.

Lemma le_asc_total (f : SortField.t) (a b : Todo.t) :
  le_asc f a b = true \/ le_asc f b a = true.
Proof.
  destruct f; simpl.
  - destruct (Todo.due_date a) as [x|], (Todo.due_date b) as [y|]; simpl; auto.
    destruct (Z.leb_spec x y); [now left | right; apply Z.leb_le; lia].
  - destruct (Z.leb_spec (Todo.priority a) (Todo.priority b));
      [now left | right; apply Z.leb_le; lia].
  - destruct (Z.leb_spec (Todo.created_at a) (Todo.created_at b));
      [now left | right; apply Z.leb_le; lia].
  - apply String.leb_total.
Qed.

Lemma orderBy_Sorted (f : SortField.t) (d : SortDirection.t) (rows : list Todo.t) :
  Sorted (in_order f d) (orderBy f d rows).
Proof.
  destruct d; simpl; unfold in_order.
  - apply sort_by_Sorted. apply le_asc_total.
  - apply (sort_by_Sorted (fun a b => le_asc f b a)).
    intros a b. destruct (le_asc_total f a b); auto.
Qed.

Lemma orderBy_Permutation (f : SortField.t) (d : SortDirection.t)
    (rows : list Todo.t) :
  Permutation (orderBy f d rows) rows.
Proof. destruct d; apply sort_by_Permutation. Qed.

(** X1. [getUserCategories] never fails and writes nothing; it returns
    the categories of the user, each row of the table once, in
    ascending order of name. *)
Theorem getUserCategories_sorted (userId : uuid) (db : Db) :
  exists result,
    getUserCategories userId db = (Ok result, db)
    /\ Permutation result
         (filter (fun c => Category.user_id c =? userId) (categories db))
    /\ Sorted (fun a b => String.leb (Category.name a) (Category.name b) = true)
              result.
Proof.
  eexists. split; [reflexivity|]. split.
  - apply sort_by_Permutation.
  - apply (sort_by_Sorted
             (fun a b => String.leb (Category.name a) (Category.name b))).
    intros a b. apply String.leb_total.
Qed.

Lemma conditions_passes (userId : uuid) (filters : option TodoFilters.t)
    (t : Todo.t) :
  forallb (fun c => c t) (conditions userId filters) = true
  <-> passes userId filters t.
Proof.
  unfold conditions, passes. rewrite !forallb_app, !andb_true_iff.
  assert (Huser : forallb (fun c : Todo.t -> bool => c t)
                    [fun t0 => Todo.user_id t0 =? userId] = true
                  <-> Todo.user_id t = userId).
  { simpl. now rewrite andb_true_r, String.eqb_eq. }
  assert (Hcompleted :
    forallb (fun c : Todo.t -> bool => c t)
      match option_bind filters TodoFilters.isCompleted with
      | Some b => [fun t0 => Bool.eqb (Todo.is_completed t0) b]
      | None => []
      end = true
    <-> forall b, option_bind filters TodoFilters.isCompleted = Some b ->
          Todo.is_completed t = b).
  { destruct (option_bind filters TodoFilters.isCompleted) as [b|]; simpl.
    - rewrite andb_true_r, Bool.eqb_true_iff. split.
      + intros H b' Hb. now injection Hb as <-.
      + intros H. now apply H.
    - split; [discriminate | reflexivity]. }
  assert (Hpriority :
    forallb (fun c : Todo.t -> bool => c t)
      match option_bind filters TodoFilters.priority with
      | Some p => [fun t0 => (Todo.priority t0 =? p)%Z]
      | None => []
      end = true
    <-> forall p, option_bind filters TodoFilters.priority = Some p ->
          Todo.priority t = p).
  { destruct (option_bind filters TodoFilters.priority) as [p|]; simpl.
    - rewrite andb_true_r, Z.eqb_eq. split.
      + intros H p' Hp. now injection Hp as <-.
      + intros H. now apply H.
    - split; [discriminate | reflexivity]. }
  assert (Hsearch :
    forallb (fun c : Todo.t -> bool => c t)
      match option_bind filters TodoFilters.search with
      | Some s =>
          if truthy s then
            [fun t0 =>
               like ("%" ++ s ++ "%") (Todo.title t0)
               || match Todo.description t0 with
                  | Some d => like ("%" ++ s ++ "%") d
                  | None => false
                  end]
          else []
      | None => []
      end = true
    <-> forall s, option_bind filters TodoFilters.search = Some s -> s <> "" ->
          like ("%" ++ s ++ "%") (Todo.title t) = true
          \/ exists d, Todo.description t = Some d
                       /\ like ("%" ++ s ++ "%") d = true).
  { destruct (option_bind filters TodoFilters.search) as [s|];
      [|split; [discriminate | reflexivity]].
    unfold truthy. destruct (String.eqb_spec s "") as [Hs|Hs]; simpl.
    - split; [|reflexivity]. intros _ s' Heq Hne. injection Heq as <-.
      contradiction.
    - rewrite andb_true_r, orb_true_iff. split.
      + intros H s' Heq _. injection Heq as <-.
        destruct H as [H|H]; [now left | right].
        destruct (Todo.description t) as [d|]; [now exists d | discriminate].
      + intros H. destruct (H s eq_refl Hs) as [Ht|[d [Hd Hl]]];
          [now left | right; now rewrite Hd]. }
  rewrite Huser, Hcompleted, Hpriority, Hsearch. tauto.
Qed.

(** X2. [getUserTodos] without a category filter never fails and writes
    nothing; it returns exactly the rows of [todos] that belong to the
    user and pass the filters that are set, each once, ordered by the
    requested column and direction (by [created_at], newest first, when
    no sort is given). *)
Theorem getUserTodos_sorted (userId : uuid) (filters : option TodoFilters.t)
    (sort : option TodoSort.t) (db : Db) :
  option_bind filters TodoFilters.categoryId = None ->
  exists result,
    getUserTodos userId filters sort db = (Ok result, db)
    /\ (forall t, In t result <-> In t (todos db) /\ passes userId filters t)
    /\ Permutation result
         (filter (fun t => forallb (fun c => c t) (conditions userId filters))
                 (todos db))
    /\ Sorted
         (in_order
            match sort with Some s => TodoSort.field s | None => SortField.created_at end
            match sort with Some s => TodoSort.direction s | None => SortDirection.desc end)
         result.
Proof.
  intros Hcat. exists (selected userId filters sort db).
  split; [|split; [|split]].
  - unfold getUserTodos. run. rewrite Hcat. reflexivity.
  - intros t. unfold selected. rewrite orderBy_In, filter_In.
    now rewrite conditions_passes.
  - apply orderBy_Permutation.
  - apply orderBy_Sorted.
Qed.

Lemma getUserTodos_sorted_witness :
  exists result,
    getUserTodos Sample.alice
      (Some (TodoFilters.mk (Some false) None None None))
      (Some (TodoSort.mk SortField.title SortDirection.asc)) Sample.db
    = (Ok result, Sample.db)
    /\ (forall t, In t result -> Todo.is_completed t = false).
Proof.
  destruct (getUserTodos_sorted Sample.alice
              (Some (TodoFilters.mk (Some false) None None None))
              (Some (TodoSort.mk SortField.title SortDirection.asc)) Sample.db
              eq_refl) as [result [Hrun [Hin _]]].
  exists result. split; [exact Hrun|].
  intros t Ht. apply Hin in Ht. destruct Ht as [_ [_ [Hc _]]].
  now apply Hc.
Defined.

(** ** Creating, reading, updating and deleting todos *)

(** X3. Insert and look up.  In a database that satisfies its
    constraints, [createTodo] for a user of the [users] table, with an
    id not yet in [todos], a title that fits its column and a due date
    the column accepts, returns the row it appended to [todos] (with
    completion [false] and priority 2 when the data gives none);
    [getTodoById] then returns that row to its user and [null] to every
    other user, and the constraints still hold. *)
Theorem createTodo_then_getTodoById (env : Env) (data : NewTodo.t)
    (due : option timestamp) (db : Db) :
  integrity db = true ->
  stored (NewTodo.due_date data) = Some due ->
  ~ In (or_default (NewTodo.id data) (randomUuid env)) (map Todo.id (todos db)) ->
  In (NewTodo.user_id data) (map User.id (users db)) ->
  (String.length (NewTodo.title data) <= 200)%nat ->
  exists row db',
    createTodo env data db = (Ok row, db')
    /\ todos db' = todos db ++ [row]
    /\ users db' = users db /\ categories db' = categories db
    /\ todoCategories db' = todoCategories db
    /\ Todo.user_id row = NewTodo.user_id data
    /\ Todo.title row = NewTodo.title data
    /\ Todo.due_date row = due
    /\ (NewTodo.is_completed data = None -> Todo.is_completed row = false)
    /\ (NewTodo.priority data = None -> Todo.priority row = 2%Z)
    /\ getTodoById (Todo.id row) (NewTodo.user_id data) db' = (Ok (Some row), db')
    /\ (forall other, other <> NewTodo.user_id data ->
          getTodoById (Todo.id row) other db' = (Ok None, db'))
    /\ integrity db' = true.
Proof.
  intros Hi Hdue Hfresh Huser Hlen.
  set (row := new_todo_row env data due).
  set (db' := with_todos db (todos db ++ [row])).
  assert (Hi' : integrity db' = true).
  { apply integrity_insert_todo; assumption. }
  assert (Hrow : In row (todos db')).
  { unfold db'. simpl. apply in_snoc. now right. }
  exists row, db'.
  split; [now apply createTodo_ok|].
  do 7 (split; [reflexivity|]).
  split; [intros H; simpl; now rewrite H|].
  split; [intros H; simpl; now rewrite H|].
  split; [apply (getTodoById_hit db' row Hi' Hrow)|].
  split; [|exact Hi'].
  intros other Hother. apply getTodoById_miss.
  apply (foreign_todo_not_owned db' other row Hi' Hrow).
  intros Heq. apply Hother. now rewrite <- Heq.
Qed.

Lemma createTodo_then_getTodoById_witness :
  exists row db',
    createTodo Sample.env
      (NewTodo.mk None Sample.bob "Call Alice" None None None None None None)
      Sample.db = (Ok row, db')
    /\ Todo.priority row = 2%Z
    /\ getTodoById (Todo.id row) Sample.bob db' = (Ok (Some row), db')
    /\ getTodoById (Todo.id row) Sample.alice db' = (Ok None, db').
Proof.
  destruct (createTodo_then_getTodoById Sample.env
              (NewTodo.mk None Sample.bob "Call Alice" None None None None None None)
              None Sample.db eq_refl eq_refl)
    as [row [db' [Hrun [_ [_ [_ [_ [_ [_ [_ [_ [Hp [Hget [Hother _]]]]]]]]]]]]]].
  - simpl. intros [H|[H|[H|[]]]]; discriminate.
  - simpl. tauto.
  - simpl. repeat constructor.
  - exists row, db'. split; [exact Hrun|]. split; [now apply Hp|].
    split; [exact Hget|]. apply Hother. discriminate.
Defined.

Lemma integrity_todo_appended (db : Db) (row : Todo.t) :
  integrity (with_todos db (todos db ++ [row])) = true ->
  ~ In (Todo.id row) (map Todo.id (todos db))
  /\ In (Todo.user_id row) (map User.id (users db))
  /\ (String.length (Todo.title row) <= 200)%nat.
Proof.
  rewrite integrity_spec. intros [_ _ Hpk Hrows _ _ _ _]. simpl in *.
  split; [|].
  - rewrite map_app in Hpk. simpl in Hpk. intros Hin.
    apply NoDup_remove_2 in Hpk. apply Hpk. rewrite app_nil_r. exact Hin.
  - specialize (Hrows row). unfold todo_row_ok in Hrows. simpl in Hrows.
    assert (Hin : In row (todos db ++ [row])) by (apply in_snoc; now right).
    apply Hrows in Hin. apply andb_true_iff in Hin. destruct Hin as [Hu Hl].
    split; [now apply mem_In | now apply Nat.leb_le].
Qed.

(** X4. What [createTodo] refuses.  When the id is already the id of a
    todo, or the user has no row in [users], or the title is longer
    than 200 characters, or the due date is no instant, [createTodo]
    throws an [Error] with the message "Failed to create todo" and the
    database is left as it was. *)
Theorem createTodo_refused (env : Env) (data : NewTodo.t) (db : Db) :
  In (or_default (NewTodo.id data) (randomUuid env)) (map Todo.id (todos db))
  \/ ~ In (NewTodo.user_id data) (map User.id (users db))
  \/ (200 < String.length (NewTodo.title data))%nat
  \/ NewTodo.due_date data = Some NotAnInstant ->
  createTodo env data db = (Throw (JsError "Failed to create todo"), db).
Proof.
  intros Hbad. unfold createTodo. step. unfold statement.
  destruct (stored (NewTodo.due_date data)) as [due|] eqn:Hdue; [|reflexivity].
  destruct (integrity (with_todos db (todos db ++ [new_todo_row env data due])))
    eqn:Hi; [|reflexivity].
  exfalso. apply integrity_todo_appended in Hi. simpl in Hi.
  destruct Hi as [Hfresh [Huser Hlen]].
  destruct Hbad as [H|[H|[H|H]]].
  - now apply Hfresh.
  - now apply H.
  - lia.
  - rewrite H in Hdue. discriminate.
Qed.

Lemma createTodo_refused_witness :
  createTodo Sample.env
    (NewTodo.mk (Some "todo-milk") Sample.bob "Mine too" None None None None None None)
    Sample.db
  = (Throw (JsError "Failed to create todo"), Sample.db)
  /\ createTodo Sample.env
       (NewTodo.mk None "user-carol" "No such user" None None None None None None)
       Sample.db
     = (Throw (JsError "Failed to create todo"), Sample.db).
Proof.
  split; apply createTodo_refused.
  - left. simpl. tauto.
  - right. left. simpl. intros [H|[H|[]]]; discriminate.
Defined.
Lemma set_todo_id (u : TodoUpdate.t) due (t : Todo.t) :
  TodoUpdate.id u = None -> Todo.id (set_todo u due t) = Todo.id t.
Proof. intros H. simpl. now rewrite H. Qed.

Lemma map_set_todo_ids (hit : Todo.t -> bool) (u : TodoUpdate.t) due
    (rows : list Todo.t) :
  TodoUpdate.id u = None ->
  map Todo.id (map (fun t => if hit t then set_todo u due t else t) rows)
  = map Todo.id rows.
Proof.
  intros Hid. rewrite map_map. apply map_ext. intros t.
  destruct (hit t); [now apply set_todo_id | reflexivity].
Qed.

(** An update that keeps the ids and carries a title that fits breaks no
    constraint, whichever rows it is applied to. *)
Lemma integrity_update_todos (db : Db) (hit : Todo.t -> bool)
    (u : TodoUpdate.t) due :
  integrity db = true ->
  TodoUpdate.id u = None ->
  title_fits u ->
  integrity
    (with_todos db
       (map (fun t => if hit t then set_todo u due t else t) (todos db))) = true.
Proof.
  rewrite !integrity_spec. intros [H1 H2 H3 H4 H5 H6 H7 H8] Hid Hfits.
  constructor; simpl; try assumption.
  - now rewrite map_set_todo_ids.
  - intros t Ht. apply in_map_iff in Ht. destruct Ht as [t0 [<- Ht0]].
    specialize (H4 t0 Ht0). destruct (hit t0); [|exact H4].
    unfold todo_row_ok in *. simpl. apply andb_true_iff in H4.
    destruct H4 as [Hu Hl]. rewrite Hu. simpl.
    destruct (TodoUpdate.title u) as [s|] eqn:Hs; simpl; [|exact Hl].
    apply Nat.leb_le. now apply Hfits.
  - intros r Hr. specialize (H8 r Hr). unfold todo_category_row_ok in *. simpl.
    now rewrite map_set_todo_ids.
Qed.

Lemma owned_todo_exactly (db : Db) (t x : Todo.t) :
  integrity db = true -> In t (todos db) -> In x (todos db) ->
  owned_todo (Todo.id t) (Todo.user_id t) x = true <-> x = t.
Proof.
  intros Hi Ht Hx. split.
  - intros Hown. unfold owned_todo in Hown. apply andb_true_iff in Hown.
    destruct Hown as [Hid _]. apply String.eqb_eq in Hid.
    apply integrity_spec in Hi.
    now apply (NoDup_map_inj Todo.id _ _ _ (todo_pk db Hi) Hx Ht).
  - intros ->. unfold owned_todo. now rewrite !String.eqb_refl.
Qed.

(** The run of [updateTodo] on a todo of the user. *)
Lemma updateTodo_hit (env : Env) (db : Db) (t : Todo.t) (data : TodoUpdate.t)
    due :
  integrity db = true -> In t (todos db) ->
  TodoUpdate.id data = None -> title_fits data ->
  stored_update (TodoUpdate.due_date data) = Some due ->
  updateTodo env (Todo.id t) (Todo.user_id t) data db
  = (Ok (Some (set_todo (updateData_of env data) due t)),
     with_todos db
       (map (fun x => if owned_todo (Todo.id t) (Todo.user_id t) x
                      then set_todo (updateData_of env data) due x else x)
            (todos db)))
  /\ integrity
       (with_todos db
          (map (fun x => if owned_todo (Todo.id t) (Todo.user_id t) x
                         then set_todo (updateData_of env data) due x else x)
               (todos db))) = true.
Proof.
  intros Hi Ht Hid Hfits Hdue.
  assert (Hi' : integrity
       (with_todos db
          (map (fun x => if owned_todo (Todo.id t) (Todo.user_id t) x
                         then set_todo (updateData_of env data) due x else x)
               (todos db))) = true).
  { apply integrity_update_todos; assumption. }
  split; [|exact Hi'].
  unfold updateTodo. step. fold (updateData_of env data).
  erewrite statement_accepts; [| simpl TodoUpdate.due_date; rewrite Hdue; reflexivity
                               | exact Hi'].
  now rewrite (filter_owned_todo db t Hi Ht).
Qed.




Lemma toggleTodoCompletion_hit (env : Env) (db : Db) (t : Todo.t)
    (id userId : uuid) :
  integrity db = true -> In t (todos db) ->
  id = Todo.id t -> userId = Todo.user_id t ->
  let data :=
    TodoUpdate.mk None None None (Some (negb (Todo.is_completed t))) None None None in
  let t' := set_todo (updateData_of env data) None t in
  exists db',
    toggleTodoCompletion env id userId db = (Ok (Some t'), db')
    /\ In t' (todos db')
    /\ integrity db' = true.
Proof.
  intros Hi Ht -> -> data t'.
  destruct (updateTodo_hit env db t data None Hi Ht eq_refl) as [Hrun Hi'].
  - intros s Hs. discriminate.
  - reflexivity.
  - eexists. split; [|split; [|exact Hi']].
    + unfold toggleTodoCompletion. step.
      rewrite (getTodoById_hit db t Hi Ht). fold data. now rewrite Hrun.
    + simpl. apply in_map_iff. exists t. split; [|assumption].
      now rewrite (proj2 (owned_todo_exactly db t t Hi Ht Ht) eq_refl).
Qed.

(** X7. Toggling completion.  For a todo of the user,
    [toggleTodoCompletion] returns the todo with its completion flag
    negated; a second toggle returns the todo as it first was, all its
    fields but [updated_at], which is the time of the second toggle.
    For an id the user has no todo with, it returns [null] and writes
    nothing. *)
Theorem toggleTodoCompletion_twice (env1 env2 : Env) (db : Db) (t : Todo.t) :
  integrity db = true ->
  In t (todos db) ->
  (exists t1 db1 t2 db2,
     toggleTodoCompletion env1 (Todo.id t) (Todo.user_id t) db = (Ok (Some t1), db1)
     /\ Todo.is_completed t1 = negb (Todo.is_completed t)
     /\ toggleTodoCompletion env2 (Todo.id t) (Todo.user_id t) db1
        = (Ok (Some t2), db2)
     /\ t2 = Todo.mk (Todo.id t) (Todo.user_id t) (Todo.title t)
                     (Todo.description t) (Todo.is_completed t) (Todo.priority t)
                     (Todo.due_date t) (Todo.created_at t) (now env2))
  /\ (forall other, other <> Todo.user_id t ->
        toggleTodoCompletion env1 (Todo.id t) other db = (Ok None, db)).
Proof.
  intros Hi Ht. split.
  - destruct (toggleTodoCompletion_hit env1 db t (Todo.id t) (Todo.user_id t)
                Hi Ht eq_refl eq_refl) as [db1 [Hrun1 [Hin1 Hi1]]].
    match type of Hrun1 with _ = (Ok (Some ?x), _) => set (t1 := x) in * end.
    destruct (toggleTodoCompletion_hit env2 db1 t1 (Todo.id t) (Todo.user_id t)
                Hi1 Hin1 eq_refl eq_refl) as [db2 [Hrun2 _]].
    eexists. exists db1. eexists. exists db2.
    split; [exact Hrun1|]. split; [reflexivity|]. split; [exact Hrun2|].
    unfold t1. simpl. now rewrite negb_involutive.
  - intros other Hother. unfold toggleTodoCompletion. step.
    rewrite getTodoById_miss; [reflexivity|].
    apply foreign_todo_not_owned; auto.
Qed.

Lemma toggleTodoCompletion_twice_witness :
  exists t1 db1 t2 db2,
    toggleTodoCompletion Sample.env "todo-milk" Sample.alice Sample.db
    = (Ok (Some t1), db1)
    /\ Todo.is_completed t1 = true
    /\ toggleTodoCompletion Sample.env "todo-milk" Sample.alice db1
       = (Ok (Some t2), db2)
    /\ Todo.is_completed t2 = false.
Proof.
  destruct (toggleTodoCompletion_twice Sample.env Sample.env Sample.db Sample.milk
              eq_refl) as [[t1 [db1 [t2 [db2 [H1 [Hc [H2 Ht2]]]]]]] _].
  - simpl. tauto.
  - exists t1, db1, t2, db2. split; [exact H1|]. split; [exact Hc|].
    split; [exact H2|]. now rewrite Ht2.
Defined.

(** The tables [deleteTodo] leaves. *)
Lemma integrity_without_todo_rows (db : Db) (todoId userId : uuid) :
  integrity db = true ->
  integrity
    (mkDb (users db)
          (filter (fun t => negb (owned_todo todoId userId t)) (todos db))
          (categories db)
          (filter (fun tc =>
                     negb (mem (TodoCategory.todo_id tc)
                               (map Todo.id
                                    (filter (owned_todo todoId userId) (todos db)))))
                  (todoCategories db))) = true.
Proof.
  rewrite !integrity_spec. intros [H1 H2 H3 H4 H5 H6 H7 H8].
  constructor; simpl; try assumption.
  - now apply NoDup_map_filter.
  - intros t Ht. apply filter_In in Ht. now apply H4.
  - now apply NoDup_map_filter.
  - intros r Hr. apply filter_In in Hr. destruct Hr as [Hr Hkeep].
    specialize (H8 r Hr). unfold todo_category_row_ok in *. simpl.
    apply andb_true_iff in H8. destruct H8 as [Ht Hc].
    rewrite Hc, andb_true_r. apply mem_In. apply mem_In in Ht.
    apply in_map_iff in Ht. destruct Ht as [t [Hid Ht]].
    rewrite <- Hid. apply in_map. apply filter_In. split; [assumption|].
    apply negb_true_iff in Hkeep. apply mem_false in Hkeep.
    destruct (owned_todo todoId userId t) eqn:Hown; [|reflexivity].
    exfalso. apply Hkeep. rewrite <- Hid. apply in_map. apply filter_In. tauto.
Qed.

(** X8. Deleting a todo of the user: [deleteTodo] returns [true]; the
    row is gone from [todos] and every association row of the todo is
    gone with it, while the other todos, the other association rows, the
    users and the categories are what they were; after that
    [getTodoById] returns [null] for the id and a second [deleteTodo]
    returns [false]. *)
Theorem deleteTodo_cascade (db : Db) (t : Todo.t) :
  integrity db = true ->
  In t (todos db) ->
  exists db',
    deleteTodo (Todo.id t) (Todo.user_id t) db = (Ok true, db')
    /\ todos db' = filter (fun x => negb (Todo.id x =? Todo.id t)) (todos db)
    /\ todoCategories db'
       = filter (fun r => negb (TodoCategory.todo_id r =? Todo.id t))
                (todoCategories db)
    /\ users db' = users db /\ categories db' = categories db
    /\ getTodoById (Todo.id t) (Todo.user_id t) db' = (Ok None, db')
    /\ deleteTodo (Todo.id t) (Todo.user_id t) db' = (Ok false, db')
    /\ integrity db' = true.
Proof.
  intros Hi Ht.
  set (tid := Todo.id t). set (uid := Todo.user_id t).
  pose proof (integrity_without_todo_rows db tid uid Hi) as Hi'.
  set (db' := mkDb _ _ _ _) in Hi'.
  assert (Htodos : todos db'
                   = filter (fun x => negb (Todo.id x =? tid)) (todos db)).
  { unfold db'. simpl. apply filter_ext_in. intros x Hx. f_equal.
    destruct (owned_todo tid uid x) eqn:Hown.
    - apply (owned_todo_exactly db t x Hi Ht Hx) in Hown. subst x.
      symmetry. apply String.eqb_refl.
    - destruct (String.eqb_spec (Todo.id x) tid) as [Heq|]; [|reflexivity].
      apply integrity_spec in Hi.
      apply (NoDup_map_inj Todo.id _ _ _ (todo_pk db Hi) Hx Ht) in Heq. subst x.
      unfold owned_todo, tid, uid in Hown. now rewrite !String.eqb_refl in Hown. }
  assert (Hrows : todoCategories db'
                  = filter (fun r => negb (TodoCategory.todo_id r =? tid))
                           (todoCategories db)).
  { unfold db', tid, uid. simpl. apply filter_ext. intros r. f_equal.
    rewrite (filter_owned_todo db t Hi Ht). simpl.
    now rewrite orb_false_r. }
  assert (Hgone : forall x, In x (todos db') -> owned_todo tid uid x = false).
  { intros x Hx. rewrite Htodos in Hx. apply filter_In in Hx.
    destruct Hx as [_ Hne]. apply negb_true_iff in Hne.
    unfold owned_todo. now rewrite Hne. }
  exists db'. split; [|split; [exact Htodos|split; [exact Hrows|]]].
  - unfold deleteTodo. step.
    erewrite statement_accepts; [| reflexivity | exact Hi'].
    unfold tid, uid. f_equal. now rewrite (filter_owned_todo db t Hi Ht).
  - split; [reflexivity|]. split; [reflexivity|].
    split; [now apply getTodoById_miss|].
    split; [now apply deleteTodo_miss | exact Hi'].
Qed.

Lemma deleteTodo_cascade_witness :
  exists db',
    deleteTodo "todo-milk" Sample.alice Sample.db = (Ok true, db')
    /\ map Todo.id (todos db') = ["todo-taxes"; "todo-report"]
    /\ map TodoCategory.pk (todoCategories db') = [("todo-report", "cat-work")].
Proof.
  destruct (deleteTodo_cascade Sample.db Sample.milk eq_refl)
    as [db' [Hrun [Htodos [Hrows _]]]].
  - simpl. tauto.
  - exists db'. split; [exact Hrun|]. rewrite Htodos, Hrows. split; reflexivity.
Defined.
(** ** Associations between todos and categories *)





(** X10. The four functions on the associations of a todo refuse a todo
    id under which the user has no todo (none at all, or one of another
    user): [addCategoriesToTodo], [removeCategoriesFromTodo],
    [replaceTodoCategories] and [getTodoCategories] throw and leave the
    database as it was.  What they throw is an [Error] with their own
    "Failed to ..." message: the text "Todo not found or access denied"
    is replaced on the way, so [handleError] answers 500, not 404. *)
Theorem association_functions_refuse_foreign_todo (env : Env) (db : Db)
    (todoId userId : uuid) (categoryIds : list uuid) :
  (forall t, In t (todos db) -> owned_todo todoId userId t = false) ->
  addCategoriesToTodo env todoId categoryIds userId db
  = (Throw (JsError "Failed to add categories to todo"), db)
  /\ removeCategoriesFromTodo todoId categoryIds userId db
     = (Throw (JsError "Failed to remove categories from todo"), db)
  /\ replaceTodoCategories env todoId categoryIds userId db
     = (Throw (JsError "Failed to replace todo categories"), db)
  /\ getTodoCategories todoId userId db
     = (Throw (JsError "Failed to fetch todo categories"), db)
  /\ status (handleError (JsError "Failed to replace todo categories")) = 500%Z.
Proof.
  intros Hmiss. pose proof (getTodoById_miss db todoId userId Hmiss) as Hget.
  repeat split.
  - unfold addCategoriesToTodo. step. now rewrite Hget.
  - unfold removeCategoriesFromTodo. step. now rewrite Hget.
  - unfold replaceTodoCategories. step. now rewrite Hget.
  - unfold getTodoCategories. step. now rewrite Hget.
Qed.

Lemma association_functions_refuse_foreign_todo_witness :
  replaceTodoCategories Sample.env "todo-report" [] Sample.alice Sample.db
  = (Throw (JsError "Failed to replace todo categories"), Sample.db).
Proof.
  apply (association_functions_refuse_foreign_todo Sample.env Sample.db
           "todo-report" Sample.alice []).
  intros t [<-|[<-|[<-|[]]]]; reflexivity.
Defined.

(** X11. [addCategoriesToTodo] checks before it writes: for a todo of
    the user and a list with an id that is not a category of the user,
    it throws and every table is as it was. *)
Theorem addCategoriesToTodo_foreign_category (env : Env) (db : Db) (t : Todo.t)
    (categoryIds : list uuid) (bad : uuid) :
  integrity db = true ->
  In t (todos db) ->
  In bad categoryIds ->
  ~ In bad (category_ids_of (Todo.user_id t) db) ->
  addCategoriesToTodo env (Todo.id t) categoryIds (Todo.user_id t) db
  = (Throw (JsError "Failed to add categories to todo"), db).
Proof. apply addCategoriesToTodo_invalid. Qed.

Lemma addCategoriesToTodo_foreign_category_witness :
  addCategoriesToTodo Sample.env "todo-milk" ["cat-errands"; "cat-work"]
    Sample.alice Sample.db
  = (Throw (JsError "Failed to add categories to todo"), Sample.db).
Proof.
  apply (addCategoriesToTodo_foreign_category Sample.env Sample.db Sample.milk
           ["cat-errands"; "cat-work"] "cat-work" eq_refl).
  - simpl. tauto.
  - simpl. tauto.
  - simpl. intros [H|[H|[]]]; discriminate.
Defined.



Lemma joined_category (db : Db) (tc : TodoCategory.t) :
  integrity db = true -> In tc (todoCategories db) ->
  exists c,
    In c (categories db) /\ Category.id c = TodoCategory.category_id tc
    /\ filter (fun c' => TodoCategory.category_id tc =? Category.id c')
              (categories db) = [c].
Proof.
  intros Hi Htc. apply integrity_spec in Hi.
  pose proof (todo_category_rows db Hi tc Htc) as Hok.
  unfold todo_category_row_ok in Hok. apply andb_true_iff in Hok.
  destruct Hok as [_ Hc]. apply mem_In, in_map_iff in Hc.
  destruct Hc as [c [Hid Hc]]. exists c. split; [assumption|]. split; [assumption|].
  apply filter_singleton.
  - apply (NoDup_map_inv Category.id), (category_pk db Hi).
  - assumption.
  - rewrite Hid. apply String.eqb_refl.
  - intros x Hx Heq. apply String.eqb_eq in Heq.
    apply (NoDup_map_inj Category.id _ _ _ (category_pk db Hi) Hx Hc). congruence.
Qed.

Lemma categories_of_todo_ids (db : Db) (todoId : uuid) :
  integrity db = true ->
  map Category.id (categories_of_todo todoId db)
  = map TodoCategory.category_id (rows_of todoId db).
Proof.
  intros Hi. unfold categories_of_todo, rows_of.
  assert (Hin : forall r,
            In r (filter (fun tc => TodoCategory.todo_id tc =? todoId)
                         (todoCategories db)) -> In r (todoCategories db)).
  { intros r Hr. apply filter_In in Hr. tauto. }
  induction (filter (fun tc => TodoCategory.todo_id tc =? todoId)
                    (todoCategories db)) as [|tc rows IH]; [reflexivity|].
  simpl. rewrite map_app.
  destruct (joined_category db tc Hi (Hin tc (or_introl eq_refl)))
    as [c [_ [Hid ->]]].
  simpl. rewrite Hid. f_equal. apply IH. intros r Hr. apply Hin. now right.
Qed.

Lemma rows_of_category_ids_NoDup (db : Db) (todoId : uuid) :
  integrity db = true ->
  NoDup (map TodoCategory.category_id (rows_of todoId db)).
Proof.
  intros Hi. apply integrity_spec in Hi.
  apply (NoDup_map_inv (fun c => (todoId, c))).
  replace (map (fun c => (todoId, c))
               (map TodoCategory.category_id (rows_of todoId db)))
    with (map TodoCategory.pk (rows_of todoId db)).
  - unfold rows_of. apply NoDup_map_filter. apply (todo_category_pk db Hi).
  - rewrite map_map. apply map_ext_in. intros r Hr. unfold rows_of in Hr.
    apply filter_In in Hr. destruct Hr as [_ Hr]. apply String.eqb_eq in Hr.
    unfold TodoCategory.pk. now rewrite Hr.
Qed.

Lemma categories_of_todo_In (db : Db) (todoId : uuid) (c : Category.t) :
  integrity db = true ->
  In c (categories_of_todo todoId db)
  <-> In c (categories db)
      /\ In (todoId, Category.id c) (map TodoCategory.pk (todoCategories db)).
Proof.
  intros Hi. unfold categories_of_todo. rewrite in_flat_map. split.
  - intros [tc [Htc Hc]]. apply filter_In in Htc, Hc.
    destruct Htc as [Htc Htid], Hc as [Hc Hcid].
    apply String.eqb_eq in Htid, Hcid. split; [assumption|].
    apply in_map_iff. exists tc. split; [|assumption].
    unfold TodoCategory.pk. now rewrite Htid, Hcid.
  - intros [Hc Hk]. apply in_map_iff in Hk. destruct Hk as [tc [Hpk Htc]].
    unfold TodoCategory.pk in Hpk. injection Hpk as Htid Hcid.
    exists tc. split; apply filter_In; split; try assumption.
    + now apply String.eqb_eq.
    + now apply String.eqb_eq.
Qed.

(** X13. Round trip through the associations.  After
    [replaceTodoCategories] with category ids that all belong to the
    user, [getTodoWithCategories] returns the todo with exactly the
    categories of the list, each once and each owned by the user,
    whatever the order and the repetitions of the list, and
    [getTodoCategories] returns the same categories. *)
Theorem replaceTodoCategories_then_get (env : Env) (db : Db) (t : Todo.t)
    (categoryIds : list uuid) :
  integrity db = true ->
  In t (todos db) ->
  (forall id, In id categoryIds -> In id (category_ids_of (Todo.user_id t) db)) ->
  exists db' cats,
    replaceTodoCategories env (Todo.id t) categoryIds (Todo.user_id t) db
    = (Ok tt, db')
    /\ getTodoWithCategories (Todo.id t) (Todo.user_id t) db'
       = (Ok (Some (mkTodoWithCategories t cats)), db')
    /\ getTodoCategories (Todo.id t) (Todo.user_id t) db' = (Ok cats, db')
    /\ (forall c, In c cats <->
          In c (categories db) /\ In (Category.id c) categoryIds)
    /\ NoDup cats
    /\ (forall c, In c cats -> Category.user_id c = Todo.user_id t).
Proof.
  intros Hi Ht Hall.
  destruct (replaceTodoCategories_ok env db t categoryIds Hi Ht Hall) as [Hrun Hi'].
  set (db' := replaced env (Todo.id t) categoryIds db) in *.
  assert (Ht' : In t (todos db')) by exact Ht.
  assert (Hin : forall c, In c (categories_of_todo (Todo.id t) db') <->
                  In c (categories db) /\ In (Category.id c) categoryIds).
  { intros c. rewrite (categories_of_todo_In db' (Todo.id t) c Hi').
    unfold db'. now rewrite replaced_keys. }
  exists db', (categories_of_todo (Todo.id t) db').
  split; [exact Hrun|]. split; [|split; [|split; [exact Hin|split]]].
  - unfold getTodoWithCategories. step. now rewrite (getTodoById_hit db' t Hi' Ht').
  - unfold getTodoCategories. step. now rewrite (getTodoById_hit db' t Hi' Ht').
  - apply (NoDup_map_inv Category.id).
    rewrite (categories_of_todo_ids db' (Todo.id t) Hi').
    now apply rows_of_category_ids_NoDup.
  - intros c Hc. apply Hin in Hc. destruct Hc as [Hc Hid].
    apply Hall, category_ids_of_In in Hid.
    destruct Hid as [c' [Hc' [Hid Hu]]].
    apply integrity_spec in Hi.
    assert (c' = c)
      by now apply (NoDup_map_inj Category.id _ _ _ (category_pk db Hi) Hc' Hc).
    now subst c'.
Qed.

Lemma replaceTodoCategories_then_get_witness :
  exists db' cats,
    replaceTodoCategories Sample.env "todo-milk" ["cat-errands"; "cat-errands"]
      Sample.alice Sample.db = (Ok tt, db')
    /\ getTodoWithCategories "todo-milk" Sample.alice db'
       = (Ok (Some (mkTodoWithCategories Sample.milk cats)), db')
    /\ NoDup cats.
Proof.
  destruct (replaceTodoCategories_then_get Sample.env Sample.db Sample.milk
              ["cat-errands"; "cat-errands"] eq_refl)
    as [db' [cats [Hrun [Hget [_ [_ [Hnd _]]]]]]].
  - simpl. tauto.
  - intros id [<-|[<-|[]]]; simpl; tauto.
  - exists db', cats. split; [exact Hrun|]. split; [exact Hget | exact Hnd].
Defined.

(** ** Statistics and bulk updates *)

Lemma filter_length_le {A} (f : A -> bool) (l : list A) :
  (length (filter f l) <= length l)%nat.
Proof.
  induction l as [|x r IH]; simpl; [lia|]. destruct (f x); simpl; lia.
Qed.

Lemma filter_length_split {A} (f : A -> bool) (l : list A) :
  (length (filter f l) + length (filter (fun x => negb (f x)) l) = length l)%nat.
Proof.
  induction l as [|x r IH]; simpl; [lia|]. destruct (f x); simpl; lia.
Qed.

Lemma filter_length_weaker {A} (f g : A -> bool) (l : list A) :
  (forall x, f x = true -> g x = true) ->
  (length (filter f l) <= length (filter g l))%nat.
Proof.
  intros Hfg. induction l as [|x r IH]; simpl; [lia|].
  destruct (f x) eqn:Hf.
  - rewrite (Hfg x Hf). simpl. lia.
  - destruct (g x); simpl; lia.
Qed.

(** X14. [getTodoStats] never fails and writes nothing; the counts it
    returns are those of the todos of the user: [total] is their
    number, [total = completed + pending], every overdue todo is a
    pending one ([overdue <= pending]), and a todo is counted overdue
    exactly when it is incomplete and its due date is strictly before
    now. *)
Theorem getTodoStats_counts (env : Env) (userId : uuid) (db : Db) :
  exists stats,
    getTodoStats env userId db = (Ok stats, db)
    /\ total stats
       = length (filter (fun t => Todo.user_id t =? userId) (todos db))
    /\ (total stats = completed stats + pending stats)%nat
    /\ (overdue stats <= pending stats)%nat
    /\ overdue stats
       = length
           (filter (fun t =>
                      (Todo.user_id t =? userId) && negb (Todo.is_completed t)
                      && match Todo.due_date t with
                         | Some due => (due <? now env)%Z
                         | None => false
                         end)
                   (todos db)).
Proof.
  eexists. split; [reflexivity|]. simpl.
  set (mine := filter (fun t => Todo.user_id t =? userId) (todos db)).
  pose proof (filter_length_le Todo.is_completed mine) as Hle.
  pose proof (filter_length_split Todo.is_completed mine) as Hsplit.
  split; [reflexivity|]. split; [lia|]. split.
  - assert (Hweak :
      (length (filter (fun t => negb (Todo.is_completed t)
                                && match Todo.due_date t with
                                   | Some due => (due <? now env)%Z
                                   | None => false
                                   end) mine)
       <= length (filter (fun t => negb (Todo.is_completed t)) mine))%nat).
    { apply filter_length_weaker. intros x Hx. apply andb_true_iff in Hx. tauto. }
    lia.
  - unfold mine. clear. induction (todos db) as [|x r IH]; [reflexivity|].
    simpl. destruct (Todo.user_id x =? userId); simpl; [|exact IH].
    destruct (negb (Todo.is_completed x)
              && match Todo.due_date x with
                 | Some due => (due <? now env)%Z
                 | None => false
                 end); simpl; now rewrite IH.
Qed.


(** ** The schemas *)

Lemma title_schema_accepts (p : list PathSeg) (x : option json) (t : string) :
  title_schema p x = (Some t, []) <-> accepted_title x t.
Proof.
  unfold accepted_title. split.
  - intros H. split; [|now apply (title_schema_valid p x)].
    unfold title_schema, z_string in H.
    destruct x as [[| | |s| |]|]; try discriminate. now injection H as ->.
  - intros [-> [Hmin Hmax]]. unfold title_schema, z_string, z_min, z_max. simpl.
    apply Nat.ltb_ge in Hmin, Hmax. now rewrite Hmin, Hmax.
Qed.

Lemma optional_text_accepts (p : list PathSeg) (x : option json)
    (o : option string) :
  z_optional (z_string []) p x = (Some o, []) <-> accepted_text x o.
Proof.
  unfold accepted_text, z_optional, z_string. split.
  - destruct x as [[| | |s| |]|]; simpl; intros H; try discriminate;
      injection H as <-; reflexivity.
  - intros ->. destruct o; reflexivity.
Qed.

Lemma parseInt_enum (s : string) :
  In s ["1"; "2"; "3"; "4"] -> (1 <= parseInt s <= 4)%Z.
Proof.
  intros [<-|[<-|[<-|[<-|[]]]]]; vm_compute; split; discriminate.
Qed.

Lemma optional_priority_accepts (p : list PathSeg) (x : option json)
    (o : option Z) :
  z_optional priorityEnum p x = (Some o, []) <-> accepted_priority x o.
Proof.
  unfold accepted_priority, z_optional, priorityEnum, z_transform, z_enum. split.
  - destruct x as [[| | |s| |]|]; cbv beta iota; intros H; try discriminate.
    + destruct (mem s ["1"; "2"; "3"; "4"]) eqn:Hs; [|discriminate].
      injection H as <-. apply mem_In in Hs. exists s.
      split; [reflexivity|]. split; [assumption|]. split; [reflexivity|].
      now apply parseInt_enum.
    + now injection H as <-.
  - destruct o as [n|].
    + intros [s [-> [Hs [-> _]]]]. cbv beta iota.
      now rewrite (proj2 (mem_In s ["1"; "2"; "3"; "4"]) Hs).
    + intros ->. reflexivity.
Qed.

Lemma optional_datetime_accepts (zod_datetime : string -> bool)
    (p : list PathSeg) (x : option json) (o : option string) :
  z_optional (datetime_schema zod_datetime) p x = (Some o, [])
  <-> accepted_datetime zod_datetime x o.
Proof.
  unfold accepted_datetime, z_optional, datetime_schema, z_string, z_format. split.
  - destruct x as [[| | |s| |]|]; simpl; intros H; try discriminate.
    + destruct (zod_datetime s) eqn:Hs; [|discriminate].
      injection H as <-. now split.
    + now injection H as <-.
  - destruct o as [d|].
    + intros [-> Hd]. simpl. now rewrite Hd.
    + intros ->. reflexivity.
Qed.

Lemma z_items_accepts (zod_uuid : string -> bool) (p : list PathSeg) (i : nat)
    (items : list json) (ids : list string) :
  z_items (z_string [z_format zod_uuid InvalidUuid]) p i items = (Some ids, [])
  <-> items = map JString ids /\ Forall (fun id => zod_uuid id = true) ids.
Proof.
  revert i ids. induction items as [|x r IH]; intros i ids; simpl.
  - split.
    + intros H. injection H as <-. split; [reflexivity | constructor].
    + intros [H _]. destruct ids; [reflexivity | discriminate].
  - destruct (z_items (z_string [z_format zod_uuid InvalidUuid]) p (S i) r)
      as [l issues'] eqn:Hr.
    unfold z_format. split.
    + destruct x as [| | |s| |]; simpl; try (destruct l; discriminate).
      destruct (zod_uuid s) eqn:Hs; simpl;
        [|destruct l; discriminate].
      destruct l as [l|]; [|discriminate]. intros H. injection H as <- ->.
      destruct (proj1 (IH (S i) l) Hr) as [-> Hall].
      split; [reflexivity | now constructor].
    + intros [Hitems Hall]. destruct ids as [|id ids]; [discriminate|].
      injection Hitems as -> ->. inversion Hall as [|? ? Hid Hids]; subst.
      simpl. rewrite Hid. simpl.
      assert (Hr' : z_items (z_string [z_format zod_uuid InvalidUuid]) p (S i)
                      (map JString ids) = (Some ids, []))
        by (apply IH; now split).
      rewrite Hr' in Hr.
      now injection Hr as <- <-.
Qed.

Lemma optional_ids_accepts (zod_uuid : string -> bool) (p : list PathSeg)
    (x : option json) (o : option (list string)) :
  z_optional (categoryIds_schema zod_uuid) p x = (Some o, [])
  <-> accepted_ids zod_uuid x o.
Proof.
  unfold accepted_ids, z_optional, categoryIds_schema, z_array. split.
  - destruct x as [[| | | |items|]|]; simpl; intros H; try discriminate.
    + destruct (z_items (z_string [z_format zod_uuid InvalidUuid]) p 0 items)
        as [[l|] issues] eqn:Hitems; simpl in H; try discriminate.
      injection H as <- ->. apply z_items_accepts in Hitems.
      destruct Hitems as [-> Hall]. now split.
    + now injection H as <-.
  - destruct o as [ids|].
    + intros [-> Hall].
      now rewrite (proj2 (z_items_accepts zod_uuid p 0 (map JString ids) ids)
                         (conj eq_refl Hall)).
    + intros ->. reflexivity.
Qed.

(** X16. What [createTodoSchema] accepts, exactly.  A body passes, with
    the output [v], if and only if it is a JSON object whose [title] is
    a text of 1 to 200 characters; whose [description], if present, is
    a text; whose [priority], if present, is one of the texts "1" to
    "4" (the output has the integer, from 1 to 4); whose [dueDate], if
    present, is a text that passes the datetime check; and whose
    [categoryIds], if present, is an array of texts that all pass the
    uuid check; the output has these values and nothing else. *)
Theorem createTodoSchema_accepts (zod_datetime zod_uuid : string -> bool)
    (body : json) (v : CreateTodoInput.t) :
  createTodoSchema zod_datetime zod_uuid body = inl v
  <-> exists input,
        body = JObject input
        /\ accepted_title (lookup "title" input) (CreateTodoInput.title v)
        /\ accepted_text (lookup "description" input)
                         (CreateTodoInput.description v)
        /\ accepted_priority (lookup "priority" input)
                             (CreateTodoInput.priority v)
        /\ accepted_datetime zod_datetime (lookup "dueDate" input)
                             (CreateTodoInput.dueDate v)
        /\ accepted_ids zod_uuid (lookup "categoryIds" input)
                        (CreateTodoInput.categoryIds v).
Proof.
  split.
  - unfold createTodoSchema. destruct body as [| | | | |input]; try discriminate.
    destruct (title_schema [PKey "title"] (lookup "title" input))
      as [title i1] eqn:H1.
    destruct (z_optional (z_string []) [PKey "description"]
                         (lookup "description" input)) as [description i2] eqn:H2.
    destruct (z_optional priorityEnum [PKey "priority"] (lookup "priority" input))
      as [priority i3] eqn:H3.
    destruct (z_optional (datetime_schema zod_datetime) [PKey "dueDate"]
                         (lookup "dueDate" input)) as [dueDate i4] eqn:H4.
    destruct (z_optional (categoryIds_schema zod_uuid) [PKey "categoryIds"]
                         (lookup "categoryIds" input)) as [categoryIds i5] eqn:H5.
    destruct title as [t|]; [|discriminate].
    destruct description as [d|]; [|discriminate].
    destruct priority as [p|]; [|discriminate].
    destruct dueDate as [dd|]; [|discriminate].
    destruct categoryIds as [c|]; [|discriminate].
    destruct (i1 ++ i2 ++ i3 ++ i4 ++ i5) eqn:Hissues; [|discriminate].
    intros H. injection H as <-. simpl.
    apply app_eq_nil in Hissues. destruct Hissues as [-> Hissues].
    apply app_eq_nil in Hissues. destruct Hissues as [-> Hissues].
    apply app_eq_nil in Hissues. destruct Hissues as [-> Hissues].
    apply app_eq_nil in Hissues. destruct Hissues as [-> ->].
    exists input. split; [reflexivity|].
    split; [now apply (title_schema_accepts [PKey "title"])|].
    split; [now apply (optional_text_accepts [PKey "description"])|].
    split; [now apply (optional_priority_accepts [PKey "priority"])|].
    split; [now apply (optional_datetime_accepts zod_datetime [PKey "dueDate"])|].
    now apply (optional_ids_accepts zod_uuid [PKey "categoryIds"]).
  - intros [input [-> [Ht [Hd [Hp [Hdd Hc]]]]]]. unfold createTodoSchema.
    rewrite (proj2 (title_schema_accepts [PKey "title"] _ _) Ht).
    rewrite (proj2 (optional_text_accepts [PKey "description"] _ _) Hd).
    rewrite (proj2 (optional_priority_accepts [PKey "priority"] _ _) Hp).
    rewrite (proj2 (optional_datetime_accepts zod_datetime [PKey "dueDate"] _ _) Hdd).
    rewrite (proj2 (optional_ids_accepts zod_uuid [PKey "categoryIds"] _ _) Hc).
    destruct v; reflexivity.
Qed.

Lemma createTodoSchema_accepts_witness :
  createTodoSchema sample_datetime sample_uuid
    (JObject [("title", JString "Buy milk"); ("priority", JString "3");
              ("extra", JBool true)])
  = inl (CreateTodoInput.mk "Buy milk" None (Some 3%Z) None None).
Proof.
  apply (proj2 (createTodoSchema_accepts sample_datetime sample_uuid _ _)).
  eexists. split; [reflexivity|].
  split; [split; [reflexivity | simpl; split; repeat constructor]|].
  split; [reflexivity|]. split.
  - exists "3". simpl. split; [reflexivity|]. split; [tauto|].
    split; [reflexivity | split; discriminate].
  - split; reflexivity.
Defined.


Lemma optional_title_accepts (p : list PathSeg) (x : option json)
    (o : option string) :
  z_optional title_schema p x = (Some o, []) <-> accepted_optional_title x o.
Proof.
  unfold accepted_optional_title, z_optional. destruct x as [j|].
  - destruct (title_schema p (Some j)) as [[t|] issues] eqn:Ht; simpl.
    + split.
      * intros H. injection H as <- ->. now apply (title_schema_accepts p).
      * destruct o as [t'|]; [|discriminate]. intros H.
        apply (title_schema_accepts p) in H. rewrite H in Ht.
        now injection Ht as <- <-.
    + split; [discriminate|]. destruct o as [t'|]; [|discriminate]. intros H.
      apply (title_schema_accepts p) in H. rewrite H in Ht. discriminate.
  - split.
    + intros H. now injection H as <-.
    + destruct o as [t|]; [intros [H _]; discriminate | reflexivity].
Qed.

Lemma nullable_datetime_accepts (zod_datetime : string -> bool)
    (p : list PathSeg) (x : option json) (dd : option (option string)) :
  z_nullable (z_optional (datetime_schema zod_datetime)) p x = (Some dd, [])
  <-> accepted_due_update zod_datetime x
        match dd with
        | None => Some None
        | Some None => None
        | Some (Some s) => Some (Some s)
        end.
Proof.
  unfold z_nullable. destruct x as [j|].
  - destruct j as [| | |s| |];
      try (destruct (z_optional (datetime_schema zod_datetime) p (Some (JString s)))
             as [a issues] eqn:Ho).
    1: { split.
         - intros H. now injection H as <-.
         - destruct dd as [[d|]|]; simpl; [intros [H _]| |]; try discriminate.
           reflexivity. }
    3: { split.
         - destruct a as [a|]; simpl; [|discriminate]. intros H.
           injection H as <- ->.
           apply (optional_datetime_accepts zod_datetime p) in Ho.
           destruct a as [d|]; [exact Ho | discriminate].
         - destruct dd as [[d|]|]; simpl; try discriminate. intros H.
           assert (Ho' : z_optional (datetime_schema zod_datetime) p
                           (Some (JString s)) = (Some (Some d), []))
             by now apply (optional_datetime_accepts zod_datetime p).
           rewrite Ho' in Ho. now injection Ho as <- <-. }
    all: split; [discriminate|];
      destruct dd as [[d|]|]; simpl; [intros [H _]| |]; discriminate.
  - split.
    + intros H. simpl in H. now injection H as <-.
    + destruct dd as [[d|]|]; simpl; [intros [H _]| |]; try discriminate.
      reflexivity.
Qed.

Lemma optional_flag_accepts (p : list PathSeg) (x : option json)
    (o : option bool) :
  z_optional z_boolean p x = (Some o, []) <-> accepted_flag x o.
Proof.
  unfold accepted_flag, z_optional, z_boolean. split.
  - destruct x as [[|b| | | |]|]; simpl; intros H; try discriminate;
      injection H as <-; reflexivity.
  - intros ->. destruct o; reflexivity.
Qed.

Lemma recognized_key (input : list (string * json)) :
  (0 <? length (recognized input))%nat = true
  <-> exists k,
        In k ["title"; "description"; "priority"; "dueDate"; "isCompleted";
              "categoryIds"]
        /\ lookup k input <> None.
Proof.
  unfold recognized. rewrite Nat.ltb_lt. split.
  - intros H.
    destruct (filter _ _) as [|k r] eqn:Hf; [inversion H|].
    assert (Hk : In k (k :: r)) by now left.
    rewrite <- Hf in Hk. apply filter_In in Hk. destruct Hk as [Hk Hl].
    exists k. split; [exact Hk|]. destruct (lookup k input); [discriminate|].
    discriminate.
  - intros [k [Hk Hl]].
    assert (Hin : In k (filter (fun k => match lookup k input with
                                          | Some _ => true
                                          | None => false
                                          end)
                               ["title"; "description"; "priority"; "dueDate";
                                "isCompleted"; "categoryIds"])).
    { apply filter_In. split; [exact Hk|].
      destruct (lookup k input); [reflexivity | contradiction]. }
    destruct (filter _ _); [contradiction | simpl; apply Nat.lt_0_succ].
Qed.

(** X17. What [updateTodoSchema] accepts, exactly.  A body passes, with
    the output [v], if and only if it is a JSON object in which each of
    the six keys is absent or has a value of its field's form (a title
    of 1 to 200 characters, a text, one of "1" to "4", [null] or a
    datetime text, a boolean, an array of uuid texts), and at least one
    of the six is present; the output has a key for each one present,
    and nothing else. *)
Theorem updateTodoSchema_accepts (zod_datetime zod_uuid : string -> bool)
    (body : json) (v : UpdateTodoInput.t) :
  updateTodoSchema zod_datetime zod_uuid body = inl v
  <-> exists input,
        body = JObject input
        /\ accepted_optional_title (lookup "title" input)
                                   (UpdateTodoInput.title v)
        /\ accepted_text (lookup "description" input)
                         (UpdateTodoInput.description v)
        /\ accepted_priority (lookup "priority" input)
                             (UpdateTodoInput.priority v)
        /\ accepted_due_update zod_datetime (lookup "dueDate" input)
                               (UpdateTodoInput.dueDate v)
        /\ accepted_flag (lookup "isCompleted" input)
                         (UpdateTodoInput.isCompleted v)
        /\ accepted_ids zod_uuid (lookup "categoryIds" input)
                        (UpdateTodoInput.categoryIds v)
        /\ exists k,
             In k ["title"; "description"; "priority"; "dueDate";
                   "isCompleted"; "categoryIds"]
             /\ lookup k input <> None.
Proof.
  split.
  - unfold updateTodoSchema. destruct body as [| | | | |input]; try discriminate.
    destruct (z_optional title_schema [PKey "title"] (lookup "title" input))
      as [title i1] eqn:H1.
    destruct (z_optional (z_string []) [PKey "description"]
                         (lookup "description" input)) as [description i2] eqn:H2.
    destruct (z_optional priorityEnum [PKey "priority"] (lookup "priority" input))
      as [priority i3] eqn:H3.
    destruct (z_nullable (z_optional (datetime_schema zod_datetime))
                         [PKey "dueDate"] (lookup "dueDate" input))
      as [dueDate i4] eqn:H4.
    destruct (z_optional z_boolean [PKey "isCompleted"]
                         (lookup "isCompleted" input)) as [isCompleted i5] eqn:H5.
    destruct (z_optional (categoryIds_schema zod_uuid) [PKey "categoryIds"]
                         (lookup "categoryIds" input)) as [categoryIds i6] eqn:H6.
    destruct title as [t|]; [|discriminate].
    destruct description as [d|]; [|discriminate].
    destruct priority as [p|]; [|discriminate].
    destruct dueDate as [dd|]; [|discriminate].
    destruct isCompleted as [ic|]; [|discriminate].
    destruct categoryIds as [c|]; [|discriminate]. cbv zeta.
    destruct (0 <? Datatypes.length (recognized input))%nat eqn:Hkeys.
    2: { intros H. exfalso.
         destruct (i1 ++ i2 ++ i3 ++ i4 ++ i5 ++ i6
                   ++ [mkIssue [] (Custom "At least one field must be provided for update")])
           eqn:Hissues; [|discriminate].
         do 6 (apply app_eq_nil in Hissues; destruct Hissues as [_ Hissues]).
         discriminate. }
    destruct (i1 ++ i2 ++ i3 ++ i4 ++ i5 ++ i6 ++ []) eqn:Hissues; [|discriminate].
    intros H. injection H as <-. simpl.
    apply app_eq_nil in Hissues. destruct Hissues as [-> Hissues].
    apply app_eq_nil in Hissues. destruct Hissues as [-> Hissues].
    apply app_eq_nil in Hissues. destruct Hissues as [-> Hissues].
    apply app_eq_nil in Hissues. destruct Hissues as [-> Hissues].
    apply app_eq_nil in Hissues. destruct Hissues as [-> Hissues].
    apply app_eq_nil in Hissues. destruct Hissues as [-> _].
    exists input. split; [reflexivity|].
    split; [now apply (optional_title_accepts [PKey "title"])|].
    split; [now apply (optional_text_accepts [PKey "description"])|].
    split; [now apply (optional_priority_accepts [PKey "priority"])|].
    split; [now apply (nullable_datetime_accepts zod_datetime [PKey "dueDate"])|].
    split; [now apply (optional_flag_accepts [PKey "isCompleted"])|].
    split; [now apply (optional_ids_accepts zod_uuid [PKey "categoryIds"])|].
    now apply recognized_key.
  - intros [input [-> [Ht [Hd [Hp [Hdd [Hic [Hc Hk]]]]]]]]. unfold updateTodoSchema.
    rewrite (proj2 (optional_title_accepts [PKey "title"] _ _) Ht).
    rewrite (proj2 (optional_text_accepts [PKey "description"] _ _) Hd).
    rewrite (proj2 (optional_priority_accepts [PKey "priority"] _ _) Hp).
    rewrite (proj2 (nullable_datetime_accepts zod_datetime [PKey "dueDate"] _
                      match UpdateTodoInput.dueDate v with
                      | None => Some None
                      | Some None => None
                      | Some (Some s) => Some (Some s)
                      end)).
    2: { now destruct (UpdateTodoInput.dueDate v) as [[s|]|]. }
    rewrite (proj2 (optional_flag_accepts [PKey "isCompleted"] _ _) Hic).
    rewrite (proj2 (optional_ids_accepts zod_uuid [PKey "categoryIds"] _ _) Hc).
    cbv zeta. rewrite (proj2 (recognized_key input) Hk). simpl.
    destruct v as [t d p [[s|]|] ic c]; reflexivity.
Qed.

Lemma updateTodoSchema_accepts_witness :
  updateTodoSchema sample_datetime sample_uuid
    (JObject [("dueDate", JNull); ("isCompleted", JBool true)])
  = inl (UpdateTodoInput.mk None None None (Some None) (Some true) None).
Proof.
  apply (proj2 (updateTodoSchema_accepts sample_datetime sample_uuid _ _)).
  eexists. split; [reflexivity|].
  do 6 (split; [reflexivity|]).
  exists "dueDate". split; [simpl; tauto | discriminate].
Defined.


Lemma priority_refused (p : list PathSeg) (j : json) :
  (forall s, In s ["1"; "2"; "3"; "4"] -> j <> JString s) ->
  exists m,
    z_optional priorityEnum p (Some j) = (None, [mkIssue p m])
    /\ (m = InvalidType \/ m = InvalidEnumValue).
Proof.
  intros Hj. unfold z_optional, priorityEnum, z_transform, z_enum.
  destruct j as [| | |s| |]; try (exists InvalidType; split; [reflexivity | now left]).
  destruct (mem s ["1"; "2"; "3"; "4"]) eqn:Hs.
  - apply mem_In in Hs. now destruct (Hj s Hs).
  - exists InvalidEnumValue. split; [reflexivity | now right].
Qed.

(** X18. [POST /api/todos] takes the priority only as one of the texts
    "1" to "4".  A body whose [priority] is anything else (the number 3,
    say) is answered 400 "Validation failed", with a detail on the field
    [priority], and nothing is written, whatever the other fields. *)
Theorem POST_priority_text_only (zod_datetime zod_uuid : string -> bool)
    (Date_parse : string -> option timestamp) (env : Env) (userId : uuid)
    (input : list (string * json)) (j : json) (db : Db) :
  lookup "priority" input = Some j ->
  (forall s, In s ["1"; "2"; "3"; "4"] -> j <> JString s) ->
  exists details m,
    POST zod_datetime zod_uuid Date_parse env (Some userId)
         (Parsed (JObject input)) db
    = (Ok (errorResponse "Validation failed" 400 (Some details)), db)
    /\ In (mkValidationDetail "priority" m) details
    /\ (m = InvalidType \/ m = InvalidEnumValue).
Proof.
  intros Hl Hj.
  destruct (priority_refused [PKey "priority"] j Hj) as [m [Hp Hm]].
  assert (Hschema : exists issues,
             createTodoSchema zod_datetime zod_uuid (JObject input) = inr issues
             /\ In (mkIssue [PKey "priority"] m) issues).
  { unfold createTodoSchema. rewrite Hl, Hp.
    destruct (title_schema [PKey "title"] (lookup "title" input)) as [t i1].
    destruct (z_optional (z_string []) [PKey "description"]
                         (lookup "description" input)) as [d i2].
    destruct (z_optional (datetime_schema zod_datetime) [PKey "dueDate"]
                         (lookup "dueDate" input)) as [dd i4].
    destruct (z_optional (categoryIds_schema zod_uuid) [PKey "categoryIds"]
                         (lookup "categoryIds" input)) as [c i5].
    exists (i1 ++ i2 ++ [mkIssue [PKey "priority"] m] ++ i4 ++ i5). split.
    - destruct t; [destruct d|]; reflexivity.
    - apply in_or_app. right. apply in_or_app. right. now left. }
  destruct Hschema as [issues [Hschema Hin]].
  exists (map (fun err => mkValidationDetail (join_path (path err)) (message err))
              issues), m.
  split; [|split; [|exact Hm]].
  - unfold POST, getUserId, request_json. run. rewrite Hschema. reflexivity.
  - apply in_map_iff. exists (mkIssue [PKey "priority"] m). now split.
Qed.

Lemma POST_priority_text_only_witness :
  exists details m,
    POST sample_datetime sample_uuid sample_Date_parse Sample.env
         (Some Sample.alice)
         (Parsed (JObject [("title", JString "Buy milk"); ("priority", JNumber 3)]))
         Sample.db
    = (Ok (errorResponse "Validation failed" 400 (Some details)), Sample.db)
    /\ In (mkValidationDetail "priority" m) details
    /\ (m = InvalidType \/ m = InvalidEnumValue).
Proof.
  apply (POST_priority_text_only sample_datetime sample_uuid sample_Date_parse
           Sample.env Sample.alice _ (JNumber 3) Sample.db).
  - reflexivity.
  - intros s _. discriminate.
Defined.


Lemma hexColorRegex_length (s : string) :
  hexColorRegex s = true -> (String.length s = 4 \/ String.length s = 7)%nat.
Proof.
  unfold hexColorRegex. destruct s as [|c digits]; [discriminate|].
  destruct (Ascii.eqb c "#") eqn:Hc.
  - apply Ascii.eqb_eq in Hc. subst c. intros H.
    apply andb_true_iff in H. destruct H as [_ H].
    apply orb_true_iff in H. simpl.
    destruct H as [H|H]; apply Nat.eqb_eq in H; rewrite H; [now right | now left].
  - intros H. exfalso.
    destruct c as [[] [] [] [] [] [] [] []]; try discriminate H.
    discriminate Hc.
Qed.

Lemma name_schema_accepts (p : list PathSeg) (x : option json) (n : string) :
  z_string [z_min 1 "Category name is required";
            z_max 50 "Category name must be 50 characters or less"] p x
  = (Some n, [])
  <-> accepted_name x n.
Proof.
  unfold accepted_name, z_string, z_min, z_max. split.
  - destruct x as [[| | |s| |]|]; try discriminate. simpl.
    destruct (String.length s <? 1)%nat eqn:Hmin; [discriminate|].
    destruct (50 <? String.length s)%nat eqn:Hmax; [discriminate|].
    intros H. injection H as <-. apply Nat.ltb_ge in Hmin, Hmax. now split.
  - intros [-> [Hmin Hmax]]. simpl.
    apply Nat.ltb_ge in Hmin, Hmax. now rewrite Hmin, Hmax.
Qed.

Lemma color_schema_accepts (p : list PathSeg) (x : option json) (c : string) :
  z_default (JString "#3B82F6")
    (z_string [z_format hexColorRegex
                 (Custom "Color must be a valid hex color code")]) p x
  = (Some c, [])
  <-> accepted_color x c.
Proof.
  unfold accepted_color, z_default, z_string, z_format. split.
  - destruct x as [[| | |s| |]|]; try discriminate.
    + simpl. destruct (hexColorRegex s) eqn:Hs; [|discriminate].
      intros H. injection H as <-.
      split; [now right | split; [exact Hs | now apply hexColorRegex_length]].
    + intros H. injection H as <-.
      split; [now left | split; [reflexivity | now right]].
  - intros [[[-> ->] | ->] [Hc _]]; [reflexivity|]. simpl. now rewrite Hc.
Qed.

Lemma createCategorySchema_sound (body : json) (v : CreateCategoryInput.t) :
  createCategorySchema body = inl v ->
  (String.length (CreateCategoryInput.name v) <= 50)%nat
  /\ (String.length (CreateCategoryInput.color v) <= 7)%nat.
Proof.
  unfold createCategorySchema. destruct body as [| | | | |input]; try discriminate.
  destruct (z_string [z_min 1 "Category name is required";
                      z_max 50 "Category name must be 50 characters or less"]
                     [PKey "name"] (lookup "name" input)) as [name i1] eqn:H1.
  destruct (z_default (JString "#3B82F6")
              (z_string [z_format hexColorRegex
                           (Custom "Color must be a valid hex color code")])
              [PKey "color"] (lookup "color" input)) as [color i2] eqn:H2.
  destruct name as [n|]; [|discriminate].
  destruct color as [c|]; [|discriminate].
  destruct (i1 ++ i2) eqn:Hissues; [|discriminate].
  intros H. injection H as <-. simpl.
  apply app_eq_nil in Hissues. destruct Hissues as [-> ->].
  apply (name_schema_accepts [PKey "name"]) in H1.
  apply (color_schema_accepts [PKey "color"]) in H2.
  destruct H1 as [_ [_ Hn]]. destruct H2 as [_ [_ Hc]]. split; [exact Hn | lia].
Qed.

(** X19. What [createCategorySchema] accepts, exactly.  A body passes,
    with the output [v], if and only if it is a JSON object whose [name]
    is a text of 1 to 50 characters and whose [color] is absent, the
    output then having "#3B82F6", or a text made of [#] and three or six
    hexadecimal digits.  The colour of the output has 4 or 7 characters,
    so it fits its [varchar(7)] column. *)
Theorem createCategorySchema_accepts (body : json) (v : CreateCategoryInput.t) :
  createCategorySchema body = inl v
  <-> exists input,
        body = JObject input
        /\ accepted_name (lookup "name" input) (CreateCategoryInput.name v)
        /\ accepted_color (lookup "color" input) (CreateCategoryInput.color v).
Proof.
  split.
  - unfold createCategorySchema. destruct body as [| | | | |input]; try discriminate.
    destruct (z_string [z_min 1 "Category name is required";
                        z_max 50 "Category name must be 50 characters or less"]
                       [PKey "name"] (lookup "name" input)) as [name i1] eqn:H1.
    destruct (z_default (JString "#3B82F6")
                (z_string [z_format hexColorRegex
                             (Custom "Color must be a valid hex color code")])
                [PKey "color"] (lookup "color" input)) as [color i2] eqn:H2.
    destruct name as [n|]; [|discriminate].
    destruct color as [c|]; [|discriminate].
    destruct (i1 ++ i2) eqn:Hissues; [|discriminate].
    intros H. injection H as <-. simpl.
    apply app_eq_nil in Hissues. destruct Hissues as [-> ->].
    exists input. split; [reflexivity|].
    split; [now apply (name_schema_accepts [PKey "name"])|].
    now apply (color_schema_accepts [PKey "color"]).
  - intros [input [-> [Hn Hc]]]. unfold createCategorySchema.
    rewrite (proj2 (name_schema_accepts [PKey "name"] _ _) Hn).
    rewrite (proj2 (color_schema_accepts [PKey "color"] _ _) Hc).
    destruct v; reflexivity.
Qed.

Lemma createCategorySchema_accepts_witness :
  exists input,
    JObject [("name", JString "Garden"); ("color", JString "#0a0")]
    = JObject input
    /\ accepted_name (lookup "name" input) "Garden"
    /\ accepted_color (lookup "color" input) "#0a0".
Proof.
  apply (proj1 (createCategorySchema_accepts
                  (JObject [("name", JString "Garden"); ("color", JString "#0a0")])
                  (CreateCategoryInput.mk "Garden" "#0a0"))).
  reflexivity.
Defined.

(** Inserting a category with a fresh id, for a user of the [users]
    table and with a name and a colour that fit their columns, breaks no
    constraint. *)
Lemma integrity_insert_category (db : Db) (row : Category.t) :
  integrity db = true ->
  ~ In (Category.id row) (map Category.id (categories db)) ->
  In (Category.user_id row) (map User.id (users db)) ->
  (String.length (Category.name row) <= 50)%nat ->
  (String.length (Category.color row) <= 7)%nat ->
  integrity (with_categories db (categories db ++ [row])) = true.
Proof.
  rewrite !integrity_spec. intros [H1 H2 H3 H4 H5 H6 H7 H8] Hfresh Huser Hn Hc.
  constructor; simpl; try assumption.
  - rewrite map_app. simpl. now apply NoDup_snoc.
  - intros c Hin. apply in_snoc in Hin. destruct Hin as [Hin | ->].
    + now apply H6.
    + unfold category_row_ok. simpl. rewrite !andb_true_iff. split; [split|].
      * now apply mem_In.
      * now apply Nat.leb_le.
      * now apply Nat.leb_le.
  - intros r Hr. specialize (H8 r Hr). unfold todo_category_row_ok in *. simpl.
    apply andb_true_iff in H8. destruct H8 as [Ht Hc']. rewrite Ht. simpl.
    apply mem_In. apply mem_In in Hc'. rewrite map_app, in_app_iff. now left.
Qed.

(** X20. [POST /api/categories] with a body the schema accepts, for a
    user of the [users] table and a fresh id: the answer is 201 with the
    new category, which is appended to [categories] with the validated
    name and colour, and the constraints still hold.  Nothing is asked
    of the names the user has already: a second category of the same
    name is created like any other. *)
Theorem POST_category_creates (env : Env) (userId : uuid) (body : json)
    (v : CreateCategoryInput.t) (db : Db) :
  integrity db = true ->
  In userId (map User.id (users db)) ->
  ~ In (randomUuid env) (map Category.id (categories db)) ->
  createCategorySchema body = inl v ->
  let row :=
    Category.mk (randomUuid env) userId (CreateCategoryInput.name v)
                (CreateCategoryInput.color v) (now env) in
  CategoriesRoute.POST env (Some userId) (Parsed body) db
  = (Ok (Success (CategoryPayload row) 201),
     with_categories db (categories db ++ [row]))
  /\ integrity (with_categories db (categories db ++ [row])) = true.
Proof.
  intros Hi Hu Hfresh Hv row.
  assert (Hi' : integrity (with_categories db (categories db ++ [row])) = true).
  { destruct (createCategorySchema_sound body v Hv) as [Hn Hc].
    apply integrity_insert_category; simpl; try assumption; lia. }
  split; [|exact Hi'].
  unfold CategoriesRoute.POST, getUserId, request_json, createCategory. step.
  rewrite Hv. unfold parse. step.
  erewrite statement_accepts; [reflexivity | reflexivity | exact Hi'].
Qed.

Lemma POST_category_creates_witness :
  exists db',
    CategoriesRoute.POST Sample.env (Some Sample.alice)
      (Parsed (JObject [("name", JString "Home")])) Sample.db
    = (Ok (Success
             (CategoryPayload
                (Category.mk "todo-new" Sample.alice "Home" "#3B82F6"
                             1600000000000%Z))
             201), db')
    /\ integrity db' = true.
Proof.
  eexists.
  apply (POST_category_creates Sample.env Sample.alice
           (JObject [("name", JString "Home")])
           (CreateCategoryInput.mk "Home" "#3B82F6") Sample.db).
  - reflexivity.
  - simpl. tauto.
  - simpl. intros [H|[H|[H|[]]]]; discriminate.
  - reflexivity.
Defined.


(** ** [GET /api/todos] *)




(** What [todoQuerySchema] does with the object [GET] builds. *)
Lemma todoQuerySchema_object (status sortBy sortOrder : string)
    (priority category : json) :
  todoQuerySchema
    (JObject [("status", JString status); ("priority", priority);
              ("category", category); ("sortBy", JString sortBy);
              ("sortOrder", JString sortOrder)])
  = let (s, i1) :=
      z_enum ["completed"; "incomplete"; "all"] [PKey "status"]
             (Some (JString status)) in
    let (p, i2) := z_optional priorityEnum [PKey "priority"] (Some priority) in
    let (c, i3) := z_optional (z_string []) [PKey "category"] (Some category) in
    let (sb, i4) :=
      z_enum ["dueDate"; "priority"; "createdAt"; "title"] [PKey "sortBy"]
             (Some (JString sortBy)) in
    let (so, i5) :=
      z_enum ["asc"; "desc"] [PKey "sortOrder"] (Some (JString sortOrder)) in
    match s, p, c, sb, so, i1 ++ i2 ++ i3 ++ i4 ++ i5 with
    | Some s, Some p, Some c, Some sb, Some so, [] =>
        inl (TodoQueryParams.mk s p c sb so)
    | _, _, _, _, _, issues => inr issues
    end.
Proof. reflexivity. Qed.

(** X21. [GET /api/todos] hands [null] to the schema for a query
    parameter that is absent, and the schema takes [priority] and
    [category] as a text or [undefined], not [null]: a request without
    [priority], or without [category], is answered 400 "Validation
    failed" with a detail on that field, whoever the user and whatever
    the other parameters. *)
Theorem GET_todos_without_priority_or_category (userId : uuid)
    (searchParams : SearchParams.t) (db : Db) :
  SearchParams.priority searchParams = None
  \/ SearchParams.category searchParams = None ->
  exists details,
    TodosRoute.GET (Some userId) searchParams db
    = (Ok (Failure (errorResponse "Validation failed" 400 (Some details))), db)
    /\ (SearchParams.priority searchParams = None ->
        In (mkValidationDetail "priority" InvalidType) details)
    /\ (SearchParams.category searchParams = None ->
        In (mkValidationDetail "category" InvalidType) details).
Proof.
  intros Hnull.
  assert (Hschema : exists issues,
             todoQuerySchema
               (JObject
                  [("status", JString (or_text (SearchParams.status searchParams) "all"));
                   ("priority", text_or_null (SearchParams.priority searchParams));
                   ("category", text_or_null (SearchParams.category searchParams));
                   ("sortBy",
                    JString (or_text (SearchParams.sortBy searchParams) "createdAt"));
                   ("sortOrder",
                    JString (or_text (SearchParams.sortOrder searchParams) "desc"))])
             = inr issues
             /\ (SearchParams.priority searchParams = None ->
                 In (mkIssue [PKey "priority"] InvalidType) issues)
             /\ (SearchParams.category searchParams = None ->
                 In (mkIssue [PKey "category"] InvalidType) issues)).
  { rewrite todoQuerySchema_object.
    destruct (z_enum ["completed"; "incomplete"; "all"] [PKey "status"] _)
      as [s i1].
    destruct (z_enum ["dueDate"; "priority"; "createdAt"; "title"]
                     [PKey "sortBy"] _) as [sb i4].
    destruct (z_enum ["asc"; "desc"] [PKey "sortOrder"] _) as [so i5].
    destruct (z_optional priorityEnum [PKey "priority"]
                (Some (text_or_null (SearchParams.priority searchParams))))
      as [p i2] eqn:Hp.
    destruct (z_optional (z_string []) [PKey "category"]
                (Some (text_or_null (SearchParams.category searchParams))))
      as [c i3] eqn:Hc.
    assert (Hp' : SearchParams.priority searchParams = None ->
                  p = None /\ i2 = [mkIssue [PKey "priority"] InvalidType]).
    { intros H. rewrite H in Hp. now injection Hp as <- <-. }
    assert (Hc' : SearchParams.category searchParams = None ->
                  c = None /\ i3 = [mkIssue [PKey "category"] InvalidType]).
    { intros H. rewrite H in Hc. now injection Hc as <- <-. }
    exists (i1 ++ i2 ++ i3 ++ i4 ++ i5). split; [|split].
    - destruct Hnull as [H|H].
      + destruct (Hp' H) as [-> _]. now destruct s.
      + destruct (Hc' H) as [-> _]. destruct s; [destruct p|]; reflexivity.
    - intros H. destruct (Hp' H) as [_ ->].
      apply in_or_app. right. now left.
    - intros H. destruct (Hc' H) as [_ ->].
      apply in_or_app. right. apply in_or_app. right. now left. }
  destruct Hschema as [issues [Hschema [Hp Hc]]].
  exists (map (fun err => mkValidationDetail (join_path (path err)) (message err))
              issues).
  split; [|split].
  - unfold TodosRoute.GET, getUserId. run. rewrite Hschema. reflexivity.
  - intros H. apply in_map_iff. exists (mkIssue [PKey "priority"] InvalidType).
    split; [reflexivity | now apply Hp].
  - intros H. apply in_map_iff. exists (mkIssue [PKey "category"] InvalidType).
    split; [reflexivity | now apply Hc].
Qed.

Lemma GET_todos_without_priority_or_category_witness :
  exists details,
    TodosRoute.GET (Some Sample.alice)
      (SearchParams.mk (Some "completed") None None None None) Sample.db
    = (Ok (Failure (errorResponse "Validation failed" 400 (Some details))),
       Sample.db)
    /\ In (mkValidationDetail "priority" InvalidType) details.
Proof.
  destruct (GET_todos_without_priority_or_category Sample.alice
              (SearchParams.mk (Some "completed") None None None None) Sample.db
              (or_introl eq_refl)) as [details [Hrun [Hp _]]].
  exists details. split; [exact Hrun | exact (Hp eq_refl)].
Defined.






(** ** What the handlers answer without reaching the tables *)

Lemma prefix_app (needle hay : string) :
  String.prefix needle hay = true
  <-> exists post, hay = (needle ++ post)%string.
Proof.
  revert hay. induction needle as [|a n IH]; intros hay.
  - split; [intros _; now exists hay | intros _; now destruct hay].
  - destruct hay as [|b h]; simpl.
    + split; [discriminate | intros [post H]; discriminate].
    + destruct (ascii_dec a b) as [<-|Hne].
      * rewrite IH. split; intros [post H]; exists post;
          [now rewrite H | now injection H].
      * split; [discriminate|]. intros [post H]. injection H as H _.
        now destruct Hne.
Qed.

Lemma includes_contains (hay needle : string) :
  includes hay needle = true <-> contains hay needle.
Proof.
  unfold contains. split.
  - induction hay as [|a h IH]; cbn [includes]; rewrite orb_true_iff.
    + intros [H|H]; [|discriminate]. apply prefix_app in H.
      destruct H as [post H]. now exists "", post.
    + intros [H|H].
      * apply prefix_app in H. destruct H as [post H]. now exists "", post.
      * destruct (IH H) as [pre [post Heq]].
        exists (String a pre), post. simpl. now rewrite Heq.
  - intros [pre [post ->]]. induction pre as [|a pre IH].
    + assert (H : String.prefix needle (needle ++ post) = true)
        by (apply prefix_app; now exists post).
      cbn [append]. destruct (needle ++ post)%string; cbn [includes];
        now rewrite H.
    + cbn [append includes]. rewrite IH. apply orb_true_r.
Qed.

(** X23. How [handleError] classifies the message of an [Error]: by the
    texts it has in it, case-sensitively and in this order.  A message
    with "not found" in it is answered 404 "Resource not found";
    otherwise one with "unauthorized" or "No user found" is answered 401
    "Unauthorized access"; otherwise one with "forbidden" is answered
    403 "Access forbidden".  The message itself is in none of these
    answers. *)
Theorem handleError_classifies (msg : string) :
  (contains msg "not found" ->
   handleError (JsError msg) = errorResponse "Resource not found" 404 None)
  /\ (~ contains msg "not found" ->
      contains msg "unauthorized" \/ contains msg "No user found" ->
      handleError (JsError msg) = errorResponse "Unauthorized access" 401 None)
  /\ (~ contains msg "not found" ->
      ~ contains msg "unauthorized" -> ~ contains msg "No user found" ->
      contains msg "forbidden" ->
      handleError (JsError msg) = errorResponse "Access forbidden" 403 None).
Proof.
  unfold handleError.
  destruct (includes msg "not found") eqn:Hn;
    [apply includes_contains in Hn
    |assert (Hn' : ~ contains msg "not found")
       by (rewrite <- includes_contains; congruence)].
  - split; [reflexivity|]. split; intros H; now destruct H.
  - split; [intros H; now destruct Hn'|].
    destruct (includes msg "unauthorized") eqn:Hu;
      [apply includes_contains in Hu
      |assert (Hu' : ~ contains msg "unauthorized")
         by (rewrite <- includes_contains; congruence)].
    + split; [reflexivity|]. intros _ H. now destruct H.
    + destruct (includes msg "No user found") eqn:Hs;
        [apply includes_contains in Hs
        |assert (Hs' : ~ contains msg "No user found")
           by (rewrite <- includes_contains; congruence)].
      * split; [reflexivity|]. intros _ _ H. now destruct H.
      * split; [intros _ [H|H]; [now destruct Hu' | now destruct Hs']|].
        intros _ _ _ Hf. apply includes_contains in Hf. rewrite Hf. reflexivity.
Qed.

Lemma handleError_classifies_witness :
  handleError (JsError "Todo not found or unauthorized")
  = errorResponse "Resource not found" 404 None.
Proof.
  apply (proj1 (handleError_classifies "Todo not found or unauthorized")).
  exists "Todo ", " or unauthorized". reflexivity.
Defined.

(** X24. A request without a session never reaches the tables: each of
    the seven handlers answers 401 "Unauthorized access" and writes
    nothing, whatever the id, the parameters and the body, well-formed
    or not. *)
Theorem handlers_unauthorized (zod_datetime zod_uuid : string -> bool)
    (Date_parse : string -> option timestamp) (env : Env) (id : uuid)
    (searchParams : SearchParams.t) (request : RequestBody) (db : Db) :
  let unauthorized := errorResponse "Unauthorized access" 401 None in
  TodosRoute.GET None searchParams db = (Ok (Failure unauthorized), db)
  /\ POST zod_datetime zod_uuid Date_parse env None request db
     = (Ok unauthorized, db)
  /\ PATCH zod_datetime zod_uuid Date_parse env None id request db
     = (Ok unauthorized, db)
  /\ DELETE None id db = (Ok unauthorized, db)
  /\ CategoriesRoute.GET None db = (Ok (Failure unauthorized), db)
  /\ CategoriesRoute.POST env None request db = (Ok (Failure unauthorized), db)
  /\ CategoryRoute.DELETE None id db = (Ok unauthorized, db).
Proof. repeat split. Qed.




(** ** The two [DELETE] handlers *)

Lemma deleteTodo_hit (db : Db) (t : Todo.t) :
  integrity db = true -> In t (todos db) ->
  deleteTodo (Todo.id t) (Todo.user_id t) db
  = (Ok true, todo_deleted (Todo.id t) db)
  /\ integrity (todo_deleted (Todo.id t) db) = true.
Proof.
  intros Hi Ht.
  pose proof (integrity_without_todo_rows db (Todo.id t) (Todo.user_id t) Hi)
    as Hi'.
  assert (Heq :
    mkDb (users db)
         (filter (fun x => negb (owned_todo (Todo.id t) (Todo.user_id t) x))
                 (todos db))
         (categories db)
         (filter (fun tc =>
                    negb (mem (TodoCategory.todo_id tc)
                              (map Todo.id
                                   (filter (owned_todo (Todo.id t) (Todo.user_id t))
                                           (todos db)))))
                 (todoCategories db))
    = todo_deleted (Todo.id t) db).
  { unfold todo_deleted. f_equal.
    - apply filter_ext_in. intros x Hx. f_equal.
      destruct (owned_todo (Todo.id t) (Todo.user_id t) x) eqn:Hown.
      + apply (owned_todo_exactly db t x Hi Ht Hx) in Hown. subst x.
        symmetry. apply String.eqb_refl.
      + destruct (String.eqb_spec (Todo.id x) (Todo.id t)) as [Hid|];
          [|reflexivity].
        apply integrity_spec in Hi.
        apply (NoDup_map_inj Todo.id _ _ _ (todo_pk db Hi) Hx Ht) in Hid.
        subst x. unfold owned_todo in Hown. now rewrite !String.eqb_refl in Hown.
    - apply filter_ext. intros r. f_equal.
      rewrite (filter_owned_todo db t Hi Ht). simpl. now rewrite orb_false_r. }
  rewrite Heq in Hi'. split; [|exact Hi'].
  unfold deleteTodo. step.
  erewrite statement_accepts; [| reflexivity | rewrite Heq; exact Hi'].
  rewrite Heq. now rewrite (filter_owned_todo db t Hi Ht).
Qed.

Lemma deleteCategory_hit (db : Db) (c : Category.t) :
  integrity db = true -> In c (categories db) ->
  deleteCategory (Category.id c) (Category.user_id c) db
  = (Ok true, category_deleted (Category.id c) db)
  /\ integrity (category_deleted (Category.id c) db) = true.
Proof.
  intros Hi Hc.
  pose proof (integrity_without_category_rows db (Category.id c)
                (Category.user_id c) Hi) as Hi'.
  assert (Hown : In c (filter (owned_category (Category.id c) (Category.user_id c))
                              (categories db))).
  { apply filter_In. split; [assumption|].
    unfold owned_category. now rewrite !String.eqb_refl. }
  assert (Heq : without_category_rows (Category.id c) (Category.user_id c) db
                = category_deleted (Category.id c) db).
  { unfold without_category_rows, category_deleted. f_equal.
    - apply filter_ext_in. intros x Hx. f_equal.
      now apply (owned_category_iff db c x).
    - apply filter_ext. intros r. f_equal.
      destruct (String.eqb_spec (TodoCategory.category_id r) (Category.id c))
        as [->|Hne].
      + apply mem_In. now apply in_map.
      + apply mem_false. intros Hin. apply in_map_iff in Hin.
        destruct Hin as [x [Hid Hin]]. apply filter_In in Hin.
        destruct Hin as [_ Hx]. unfold owned_category in Hx.
        apply andb_true_iff in Hx. destruct Hx as [Hx _].
        apply String.eqb_eq in Hx. congruence. }
  assert (Hlen : (0 <? length (filter (owned_category (Category.id c)
                                                      (Category.user_id c))
                                      (categories db)))%nat = true).
  { destruct (filter (owned_category (Category.id c) (Category.user_id c))
                     (categories db)); [contradiction | reflexivity]. }
  pose proof Hi' as Hraw. rewrite Heq in Hi'. split; [|exact Hi'].
  rewrite <- Heq. unfold deleteCategory. step.
  erewrite statement_accepts; [| reflexivity | exact Hraw].
  cbv beta iota. now rewrite Hlen.
Qed.

Lemma getCategoryById_hit (db : Db) (c : Category.t) :
  integrity db = true -> In c (categories db) ->
  getCategoryById (Category.id c) (Category.user_id c) db = (Ok (Some c), db).
Proof.
  intros Hi Hc. unfold getCategoryById. run.
  rewrite (filter_singleton
             (owned_category (Category.id c) (Category.user_id c))
             (categories db) c); [reflexivity | | assumption | |].
  - apply integrity_spec in Hi.
    apply (NoDup_map_inv Category.id), (category_pk db Hi).
  - unfold owned_category. now rewrite !String.eqb_refl.
  - intros x Hx Hown. rewrite (owned_category_iff db c x Hi Hc Hx) in Hown.
    apply String.eqb_eq in Hown. apply integrity_spec in Hi.
    now apply (NoDup_map_inj Category.id _ _ _ (category_pk db Hi) Hx Hc).
Qed.

(** X26. [DELETE /api/todos/[id]] on a todo of the user, in a database
    that satisfies its constraints: the answer is 200 with
    [{success: true}], and what is left is the tables without that todo
    and without its association rows, every other row as it was, the
    constraints still holding.  The same request again is answered 404
    "Todo not found" and changes nothing. *)
Theorem DELETE_todo_then_again (db : Db) (t : Todo.t) :
  integrity db = true ->
  In t (todos db) ->
  DELETE (Some (Todo.user_id t)) (Todo.id t) db
  = (Ok (successResponse SuccessBody 200), todo_deleted (Todo.id t) db)
  /\ DELETE (Some (Todo.user_id t)) (Todo.id t) (todo_deleted (Todo.id t) db)
     = (Ok (errorResponse "Todo not found" 404 None),
        todo_deleted (Todo.id t) db)
  /\ integrity (todo_deleted (Todo.id t) db) = true.
Proof.
  intros Hi Ht.
  destruct (deleteTodo_hit db t Hi Ht) as [Hrun Hi'].
  split; [|split; [|exact Hi']].
  - unfold DELETE, getUserId. step. rewrite (getTodoById_hit db t Hi Ht).
    cbv beta iota. now rewrite Hrun.
  - unfold DELETE, getUserId. step. rewrite getTodoById_miss; [reflexivity|].
    intros x Hx. simpl in Hx. apply filter_In in Hx. destruct Hx as [_ Hne].
    apply negb_true_iff in Hne. unfold owned_todo. now rewrite Hne.
Qed.

Lemma DELETE_todo_then_again_witness :
  DELETE (Some Sample.alice) "todo-milk" Sample.db
  = (Ok (successResponse SuccessBody 200), todo_deleted "todo-milk" Sample.db)
  /\ DELETE (Some Sample.alice) "todo-milk" (todo_deleted "todo-milk" Sample.db)
     = (Ok (errorResponse "Todo not found" 404 None),
        todo_deleted "todo-milk" Sample.db)
  /\ integrity (todo_deleted "todo-milk" Sample.db) = true.
Proof.
  apply (DELETE_todo_then_again Sample.db Sample.milk).
  - reflexivity.
  - simpl. tauto.
Defined.

(** X27. [DELETE /api/categories/[id]] on a category of the user, in a
    database that satisfies its constraints: the answer is 200 with
    [{success: true}], and what is left is the tables without that
    category and without its association rows; the todos, tagged with
    it or not, are all as they were.  The same request again is
    answered 404 "Category not found" and changes nothing. *)
Theorem DELETE_category_then_again (db : Db) (c : Category.t) :
  integrity db = true ->
  In c (categories db) ->
  CategoryRoute.DELETE (Some (Category.user_id c)) (Category.id c) db
  = (Ok (successResponse SuccessBody 200), category_deleted (Category.id c) db)
  /\ todos (category_deleted (Category.id c) db) = todos db
  /\ CategoryRoute.DELETE (Some (Category.user_id c)) (Category.id c)
       (category_deleted (Category.id c) db)
     = (Ok (errorResponse "Category not found" 404 None),
        category_deleted (Category.id c) db)
  /\ integrity (category_deleted (Category.id c) db) = true.
Proof.
  intros Hi Hc.
  destruct (deleteCategory_hit db c Hi Hc) as [Hrun Hi'].
  split; [|split; [reflexivity|split; [|exact Hi']]].
  - unfold CategoryRoute.DELETE, getUserId. step.
    rewrite (getCategoryById_hit db c Hi Hc). cbv beta iota. now rewrite Hrun.
  - unfold CategoryRoute.DELETE, getUserId. step.
    rewrite getCategoryById_miss; [reflexivity|].
    intros x Hx. simpl in Hx. apply filter_In in Hx. destruct Hx as [_ Hne].
    apply negb_true_iff in Hne. unfold owned_category. now rewrite Hne.
Qed.

Lemma DELETE_category_then_again_witness :
  CategoryRoute.DELETE (Some Sample.alice) "cat-home" Sample.db
  = (Ok (successResponse SuccessBody 200), category_deleted "cat-home" Sample.db)
  /\ todos (category_deleted "cat-home" Sample.db) = todos Sample.db
  /\ CategoryRoute.DELETE (Some Sample.alice) "cat-home"
       (category_deleted "cat-home" Sample.db)
     = (Ok (errorResponse "Category not found" 404 None),
        category_deleted "cat-home" Sample.db)
  /\ integrity (category_deleted "cat-home" Sample.db) = true.
Proof.
  apply (DELETE_category_then_again Sample.db Sample.home).
  - reflexivity.
  - simpl. tauto.
Defined.


(** ** [PATCH /api/todos/[id]] past its checks *)

Lemma updateTodoSchema_title_fits (zod_datetime zod_uuid : string -> bool)
    (body : json) (v : UpdateTodoInput.t) :
  updateTodoSchema zod_datetime zod_uuid body = inl v ->
  forall s, UpdateTodoInput.title v = Some s -> (String.length s <= 200)%nat.
Proof.
  unfold updateTodoSchema. destruct body as [| | | | |input]; try discriminate.
  destruct (z_optional title_schema [PKey "title"] (lookup "title" input))
    as [title i1] eqn:H1.
  destruct (z_optional (z_string []) [PKey "description"]
                       (lookup "description" input)) as [description i2].
  destruct (z_optional priorityEnum [PKey "priority"] (lookup "priority" input))
    as [priority i3].
  destruct (z_nullable (z_optional (datetime_schema zod_datetime))
                       [PKey "dueDate"] (lookup "dueDate" input))
    as [dueDate i4].
  destruct (z_optional z_boolean [PKey "isCompleted"]
                       (lookup "isCompleted" input)) as [isCompleted i5].
  destruct (z_optional (categoryIds_schema zod_uuid) [PKey "categoryIds"]
                       (lookup "categoryIds" input)) as [categoryIds i6].
  destruct title as [t|]; [|discriminate].
  destruct description as [d|]; [|discriminate].
  destruct priority as [p|]; [|discriminate].
  destruct dueDate as [dd|]; [|discriminate].
  destruct isCompleted as [ic|]; [|discriminate].
  destruct categoryIds as [c|]; [|discriminate]. cbv zeta.
  destruct (i1 ++ _) eqn:Hissues; [|discriminate].
  intros H. injection H as <-. simpl. intros s ->.
  apply app_eq_nil in Hissues. destruct Hissues as [-> _].
  apply (optional_title_accepts [PKey "title"]) in H1.
  destruct H1 as [_ [_ Hmax]]. exact Hmax.
Qed.

(** [PATCH] on a todo of the user, with a body that passed the schema
    and has no due date text: the todo is updated, and what is left to
    run is the part on the categories. *)
Lemma PATCH_updated (zod_datetime zod_uuid : string -> bool)
    (Date_parse : string -> option timestamp) (env : Env) (db : Db)
    (t : Todo.t) (body : json) (v : UpdateTodoInput.t) :
  integrity db = true ->
  In t (todos db) ->
  updateTodoSchema zod_datetime zod_uuid body = inl v ->
  (forall d, UpdateTodoInput.dueDate v <> Some (Some d)) ->
  PATCH zod_datetime zod_uuid Date_parse env (Some (Todo.user_id t)) (Todo.id t)
        (Parsed body) db
  = try_catch
      (match UpdateTodoInput.categoryIds v with
       | Some categoryIds =>
           replaceTodoCategories env (Todo.id t) categoryIds (Todo.user_id t)
       | None => ret tt
       end ;;
       todoWithCategories <- getTodoWithCategories (Todo.id t) (Todo.user_id t) ;;
       ret (successResponse
              (TodoBody (or_updated todoWithCategories (patched env v t))) 200))
      (fun error => ret (handleError error))
      (todo_replaced (patched env v t) db)
  /\ In (patched env v t) (todos (todo_replaced (patched env v t) db))
  /\ integrity (todo_replaced (patched env v t) db) = true.
Proof.
  intros Hi Ht Hschema Hdue.
  set (data := TodoUpdate.mk None
                 (UpdateTodoInput.title v)
                 (option_map Some (UpdateTodoInput.description v))
                 (UpdateTodoInput.isCompleted v)
                 (UpdateTodoInput.priority v)
                 (option_map (option_map (due_input Date_parse))
                             (UpdateTodoInput.dueDate v))
                 None).
  set (due := match UpdateTodoInput.dueDate v with
              | Some None => Some None
              | _ => None
              end : option (option timestamp)).
  assert (Hstored : stored_update (TodoUpdate.due_date data) = Some due).
  { unfold data, due. simpl.
    destruct (UpdateTodoInput.dueDate v) as [[d|]|]; [|reflexivity|reflexivity].
    now destruct (Hdue d). }
  assert (Hset : set_todo (updateData_of env data) due t = patched env v t).
  { unfold set_todo, patched, updateData_of, data, due. simpl.
    destruct (UpdateTodoInput.description v), (UpdateTodoInput.dueDate v) as [[d|]|];
      try reflexivity; now destruct (Hdue d). }
  assert (Hfits : title_fits data).
  { intros s Hs. simpl in Hs.
    now apply (updateTodoSchema_title_fits zod_datetime zod_uuid body v Hschema). }
  destruct (updateTodo_hit env db t data due Hi Ht eq_refl Hfits Hstored)
    as [Hrun Hi'].
  assert (Hdb : with_todos db
                  (map (fun x => if owned_todo (Todo.id t) (Todo.user_id t) x
                                 then set_todo (updateData_of env data) due x
                                 else x)
                       (todos db))
                = todo_replaced (patched env v t) db).
  { unfold todo_replaced. f_equal. apply map_ext_in. intros x Hx.
    change (Todo.id (patched env v t)) with (Todo.id t).
    destruct (owned_todo (Todo.id t) (Todo.user_id t) x) eqn:Hown.
    - apply (owned_todo_exactly db t x Hi Ht Hx) in Hown. subst x.
      now rewrite String.eqb_refl, Hset.
    - destruct (String.eqb_spec (Todo.id x) (Todo.id t)) as [Hid|]; [|reflexivity].
      apply integrity_spec in Hi.
      apply (NoDup_map_inj Todo.id _ _ _ (todo_pk db Hi) Hx Ht) in Hid. subst x.
      unfold owned_todo in Hown. now rewrite !String.eqb_refl in Hown. }
  rewrite Hdb, Hset in Hrun. rewrite Hdb in Hi'.
  split; [|split; [|exact Hi']].
  - unfold PATCH, getUserId. step. rewrite (getTodoById_hit db t Hi Ht).
    unfold request_json. step. rewrite Hschema. unfold parse. step.
    assert (Hcheck : match UpdateTodoInput.dueDate v with
                     | Some (Some dueDate) =>
                         negb (Todo.is_completed t)
                         && before Date_parse dueDate (now env)
                     | _ => false
                     end = false).
    { destruct (UpdateTodoInput.dueDate v) as [[d|]|]; [|reflexivity|reflexivity].
      now destruct (Hdue d). }
    rewrite Hcheck. fold data. rewrite Hrun. reflexivity.
  - unfold todo_replaced. simpl. apply in_map_iff. exists t. split; [|exact Ht].
    change (Todo.id (patched env v t)) with (Todo.id t).
    now rewrite String.eqb_refl.
Qed.

(** X28. [PATCH /api/todos/[id]] on a todo of the user, with a body that
    passes the schema, has no [categoryIds] and no due date text: the
    answer is 200 with the updated todo and the categories it had.  The
    fields the body has replace the old ones ([dueDate: null] clears the
    due date), [updated_at] is the current time, the id, the owner and
    the creation time stay; the row takes the place of the old one and
    every other row of every table is as it was. *)
Theorem PATCH_updates_fields (zod_datetime zod_uuid : string -> bool)
    (Date_parse : string -> option timestamp) (env : Env) (db : Db)
    (t : Todo.t) (body : json) (v : UpdateTodoInput.t) :
  integrity db = true ->
  In t (todos db) ->
  updateTodoSchema zod_datetime zod_uuid body = inl v ->
  (forall d, UpdateTodoInput.dueDate v <> Some (Some d)) ->
  UpdateTodoInput.categoryIds v = None ->
  PATCH zod_datetime zod_uuid Date_parse env (Some (Todo.user_id t)) (Todo.id t)
        (Parsed body) db
  = (Ok (successResponse
           (TodoBody (inl (mkTodoWithCategories
                             (patched env v t)
                             (categories_of_todo (Todo.id t) db))))
           200),
     todo_replaced (patched env v t) db)
  /\ integrity (todo_replaced (patched env v t) db) = true.
Proof.
  intros Hi Ht Hschema Hdue Hcat.
  destruct (PATCH_updated zod_datetime zod_uuid Date_parse env db t body v
              Hi Ht Hschema Hdue) as [Hrun [Hin Hi']].
  split; [|exact Hi'].
  rewrite Hrun, Hcat. unfold getTodoWithCategories. step.
  pose proof (getTodoById_hit (todo_replaced (patched env v t) db)
                (patched env v t) Hi' Hin) as Hget.
  change (Todo.id (patched env v t)) with (Todo.id t) in Hget.
  change (Todo.user_id (patched env v t)) with (Todo.user_id t) in Hget.
  rewrite Hget. reflexivity.
Qed.

Lemma PATCH_updates_fields_witness :
  PATCH sample_datetime sample_uuid sample_Date_parse Sample.env
        (Some Sample.alice) "todo-milk"
        (Parsed (JObject [("dueDate", JNull); ("isCompleted", JBool true)]))
        Sample.db
  = (Ok (successResponse
           (TodoBody (inl (mkTodoWithCategories
                             (Todo.mk "todo-milk" Sample.alice "Buy milk" None
                                      true 2%Z None 100%Z 1600000000000%Z)
                             [Sample.home])))
           200),
     todo_replaced
       (Todo.mk "todo-milk" Sample.alice "Buy milk" None true 2%Z None 100%Z
                1600000000000%Z)
       Sample.db).
Proof.
  apply (PATCH_updates_fields sample_datetime sample_uuid sample_Date_parse
           Sample.env Sample.db Sample.milk
           (JObject [("dueDate", JNull); ("isCompleted", JBool true)])
           (UpdateTodoInput.mk None None None (Some None) (Some true) None)).
  - reflexivity.
  - simpl. tauto.
  - reflexivity.
  - intros d. discriminate.
  - reflexivity.
Defined.

(** X29. [PATCH /api/todos/[id]] is not all or nothing.  On a todo of the
    user, with a body that passes the schema (no due date text) and
    whose [categoryIds] has an id that is no category of the user, the
    answer is 500 "Failed to replace todo categories"; by then the
    fields of the todo have been updated and all its association rows
    removed, and they stay so. *)
Theorem PATCH_foreign_category (zod_datetime zod_uuid : string -> bool)
    (Date_parse : string -> option timestamp) (env : Env) (db : Db)
    (t : Todo.t) (body : json) (v : UpdateTodoInput.t)
    (categoryIds : list uuid) (bad : uuid) :
  integrity db = true ->
  In t (todos db) ->
  updateTodoSchema zod_datetime zod_uuid body = inl v ->
  (forall d, UpdateTodoInput.dueDate v <> Some (Some d)) ->
  UpdateTodoInput.categoryIds v = Some categoryIds ->
  In bad categoryIds ->
  ~ In bad (category_ids_of (Todo.user_id t) db) ->
  exists db',
    PATCH zod_datetime zod_uuid Date_parse env (Some (Todo.user_id t)) (Todo.id t)
          (Parsed body) db
    = (Ok (errorResponse "Failed to replace todo categories" 500 None), db')
    /\ db' = cleared (Todo.id t) (todo_replaced (patched env v t) db)
    /\ In (patched env v t) (todos db')
    /\ rows_of (Todo.id t) db' = [].
Proof.
  intros Hi Ht Hschema Hdue Hcat Hbad Hnot.
  destruct (PATCH_updated zod_datetime zod_uuid Date_parse env db t body v
              Hi Ht Hschema Hdue) as [Hrun [Hin Hi']].
  exists (cleared (Todo.id t) (todo_replaced (patched env v t) db)).
  split; [|split; [reflexivity|split; [exact Hin | apply rows_of_cleared]]].
  rewrite Hrun, Hcat. step.
  pose proof (replaceTodoCategories_invalid env
                (todo_replaced (patched env v t) db) (patched env v t)
                categoryIds bad Hi' Hin Hbad Hnot) as Hthrow.
  change (Todo.id (patched env v t)) with (Todo.id t) in Hthrow.
  change (Todo.user_id (patched env v t)) with (Todo.user_id t) in Hthrow.
  rewrite Hthrow. reflexivity.
Qed.

Lemma PATCH_foreign_category_witness :
  exists db',
    PATCH sample_datetime sample_uuid sample_Date_parse Sample.env
          (Some Sample.alice) "todo-milk"
          (Parsed (JObject [("title", JString "Buy oat milk");
                            ("categoryIds", JArray [JString "cat-work"])]))
          Sample.db
    = (Ok (errorResponse "Failed to replace todo categories" 500 None), db')
    /\ map Todo.title (todos db') = ["Buy oat milk"; "File taxes"; "Write report"]
    /\ rows_of "todo-milk" db' = [].
Proof.
  destruct (PATCH_foreign_category sample_datetime sample_uuid sample_Date_parse
              Sample.env Sample.db Sample.milk
              (JObject [("title", JString "Buy oat milk");
                        ("categoryIds", JArray [JString "cat-work"])])
              (UpdateTodoInput.mk (Some "Buy oat milk") None None None None
                                  (Some ["cat-work"]))
              ["cat-work"] "cat-work")
    as [db' [Hrun [Hdb [_ Hrows]]]].
  - reflexivity.
  - simpl. tauto.
  - reflexivity.
  - intros d. discriminate.
  - reflexivity.
  - simpl. tauto.
  - simpl. intros [H|[H|[]]]; discriminate.
  - exists db'. split; [exact Hrun|]. split; [|exact Hrows].
    rewrite Hdb. reflexivity.
Defined.


(** ** Categories with their counts *)

Lemma all_pure {A B} (f : A -> M B) (g : A -> B) (db : Db) (l : list A) :
  (forall x, f x db = (Ok (g x), db)) ->
  all f l db = (Ok (map g l), db).
Proof.
  intros Hf. induction l as [|x r IH]; simpl; [reflexivity|].
  unfold bind, ret. now rewrite Hf, IH.
Qed.

(** With unique ids, at most one row has a given id. *)
Lemma filter_by_id (rows : list Todo.t) (k : uuid) :
  NoDup (map Todo.id rows) ->
  filter (fun t => k =? Todo.id t) rows = []
  /\ ~ In k (map Todo.id rows)
  \/ exists t, filter (fun t => k =? Todo.id t) rows = [t]
               /\ In t rows /\ Todo.id t = k.
Proof.
  induction rows as [|a r IH]; simpl; intros Hnd; [now left|].
  inversion Hnd as [|? ? Hnotin Hnd']; subst.
  destruct (String.eqb_spec k (Todo.id a)) as [->|Hne].
  - right. exists a. split; [|split; [now left | reflexivity]]. f_equal.
    apply filter_none. intros x Hx. apply String.eqb_neq. intros Heq.
    apply Hnotin. rewrite Heq. now apply in_map.
  - destruct (IH Hnd') as [[Hnil Hmiss] | [t [Hone [Hin Hid]]]].
    + left. split; [exact Hnil|]. intros [H|H]; [congruence | contradiction].
    + right. exists t. split; [exact Hone|]. split; [now right | exact Hid].
Qed.

Lemma join_count (db : Db) (userId categoryId : uuid) :
  integrity db = true ->
  length
    (filter (fun row : TodoCategory.t * Todo.t =>
               (TodoCategory.category_id (fst row) =? categoryId)
               && (Todo.user_id (snd row) =? userId))
            (flat_map
               (fun tc =>
                  map (fun t => (tc, t))
                      (filter (fun t => TodoCategory.todo_id tc =? Todo.id t)
                              (todos db)))
               (todoCategories db)))
  = length (tags_of userId categoryId db).
Proof.
  intros Hi. apply integrity_spec in Hi. pose proof (todo_pk db Hi) as Hpk.
  unfold tags_of. induction (todoCategories db) as [|tc r IH]; [reflexivity|].
  cbn [flat_map filter]. rewrite filter_app, length_app, IH. clear IH.
  assert (Hone :
    length
      (filter (fun row : TodoCategory.t * Todo.t =>
                 (TodoCategory.category_id (fst row) =? categoryId)
                 && (Todo.user_id (snd row) =? userId))
              (map (fun t => (tc, t))
                   (filter (fun t => TodoCategory.todo_id tc =? Todo.id t)
                           (todos db))))
    = if (TodoCategory.category_id tc =? categoryId)
         && mem (TodoCategory.todo_id tc)
                (map Todo.id
                     (filter (fun t => Todo.user_id t =? userId) (todos db)))
      then 1%nat else 0%nat).
  { destruct (filter_by_id (todos db) (TodoCategory.todo_id tc) Hpk)
      as [[Hnil Hmiss] | [t [Hsingle [Hin Hid]]]].
    - rewrite Hnil. simpl.
      rewrite (proj2 (mem_false _ _)); [now rewrite andb_false_r|].
      intros H. apply Hmiss. apply in_map_iff in H.
      destruct H as [x [Hx Hf]]. apply filter_In in Hf.
      rewrite <- Hx. apply in_map. tauto.
    - rewrite Hsingle. simpl.
      destruct (TodoCategory.category_id tc =? categoryId); [|reflexivity].
      simpl. destruct (String.eqb_spec (Todo.user_id t) userId) as [Hu|Hu].
      + rewrite (proj2 (mem_In _ _)); [reflexivity|].
        rewrite <- Hid. apply in_map. apply filter_In. split; [exact Hin|].
        now apply String.eqb_eq.
      + rewrite (proj2 (mem_false _ _)); [reflexivity|].
        intros H. apply in_map_iff in H. destruct H as [x [Hx Hf]].
        apply filter_In in Hf. destruct Hf as [Hxin Hxu].
        apply String.eqb_eq in Hxu.
        assert (x = t).
        { apply (NoDup_map_inj Todo.id _ _ _ Hpk Hxin Hin). congruence. }
        subst x. contradiction. }
  rewrite Hone.
  destruct ((TodoCategory.category_id tc =? categoryId)
            && mem (TodoCategory.todo_id tc)
                   (map Todo.id
                        (filter (fun t => Todo.user_id t =? userId) (todos db))));
    reflexivity.
Qed.

(** X30. [getCategoriesWithCounts], in a database that satisfies its
    constraints, never fails and writes nothing.  It returns the
    categories of the user in the order of [getUserCategories], by name,
    each with the number of its association rows whose todo is a todo of
    the user: a row that ties the category to a todo of another user is
    not counted. *)
Theorem getCategoriesWithCounts_counts (userId : uuid) (db : Db) :
  integrity db = true ->
  exists result userCategories,
    getCategoriesWithCounts userId db = (Ok result, db)
    /\ getUserCategories userId db = (Ok userCategories, db)
    /\ map cwc_category result = userCategories
    /\ (forall r, In r result ->
          todoCount r = length (tags_of userId (Category.id (cwc_category r)) db)).
Proof.
  intros Hi.
  set (userCategories :=
         sort_by (fun a b => String.leb (Category.name a) (Category.name b))
                 (filter (fun c => Category.user_id c =? userId) (categories db))).
  exists (map (fun c => mkCategoryWithCount
                          c (length (tags_of userId (Category.id c) db)))
              userCategories), userCategories.
  split; [|split; [reflexivity|split]].
  - unfold getCategoriesWithCounts, getUserCategories. step.
    fold userCategories.
    rewrite (all_pure _
               (fun c => mkCategoryWithCount
                           c (length (tags_of userId (Category.id c) db)))
               db userCategories).
    + reflexivity.
    + intros c. now rewrite (join_count db userId (Category.id c) Hi).
  - rewrite map_map. simpl. apply map_id.
  - intros r Hr. apply in_map_iff in Hr. destruct Hr as [c [<- _]]. reflexivity.
Qed.

Lemma getCategoriesWithCounts_counts_witness :
  exists result,
    getCategoriesWithCounts Sample.alice Sample.db = (Ok result, Sample.db)
    /\ map (fun r => (Category.name (cwc_category r), todoCount r)) result
       = [("Errands", 0%nat); ("Home", 1%nat)].
Proof.
  destruct (getCategoriesWithCounts_counts Sample.alice Sample.db eq_refl)
    as [result [userCategories [Hrun [Hcats [Hmap Hcount]]]]].
  exists result. split; [exact Hrun|].
  injection Hcats as <-.
  destruct result as [|r1 [|r2 [|r3 rest]]]; try discriminate Hmap.
  injection Hmap as H1 H2.
  pose proof (Hcount r1 (or_introl eq_refl)) as C1.
  pose proof (Hcount r2 (or_intror (or_introl eq_refl))) as C2.
  rewrite H1 in C1. rewrite H2 in C2.
  simpl. rewrite H1, H2, C1, C2. reflexivity.
Defined.
